(** * Teleinfo dashboard: CSV normalisation and derived aggregates

    A shallow embedding of the parsing, classification, aggregation and
    timeline/hours code of the dashboard (components/DashboardView.tsx,
    components/PresentationView.tsx, the monitoring view and the
    risk-analysis prompt builder), with the properties its specification
    states about them.

    Conventions of the embedding.
    - A JavaScript string is the list of its UTF-16 code units ([jstring]);
      [toUpperCase] is the full case mapping of Unicode 14.0, surrogate
      pairs included.
    - A JavaScript number is a rational extended with the two infinities
      and NaN ([number]); the sign of zero is not represented.  [add64],
      [sub64], [mul64], [div64] and [parseFloat] round to the nearest
      binary64 number, ties to even, with overflow to the infinities: they
      model the timeline progress, the average of the percentages and the
      numbers read from the CSV.  [add], [sub], [mul] and [div] are the
      exact operations: they model the sums of hours, the mean of the step
      percentages and the day counts, whose properties are stated of the
      exact values.
    - [alert] is modelled by returning the alerts raised next to the value.
    - Plain objects used as string-keyed counters are modelled as insertion
      ordered association lists ([JS.object]).  A key that is the name of a
      member inherited from Object.prototype is outside the model, and the
      theorem about the charts excludes such labels. *)

From Stdlib Require Import List ZArith NArith QArith Qround Qcanon Qpower Bool Lia.
From Stdlib Require Import String Ascii DecimalString Sorting Permutation Lqa.
Import ListNotations.

Close Scope Qc_scope.
Close Scope Q_scope.

Set Implicit Arguments.

(** ** The JavaScript built-ins used by the code *)

Module JS.

Definition jstring := list N.

(** An ASCII literal as a JavaScript string. *)
Definition lit (s : string) : jstring :=
  map N_of_ascii (list_ascii_of_string s).

Definition jstring_eq_dec : forall a b : jstring, {a = b} + {a <> b} :=
  list_eq_dec N.eq_dec.

Definition eqs (a b : jstring) : bool :=
  if jstring_eq_dec a b then true else false.

(** Truthiness of a string: the empty string is the only falsy one. *)
Definition truthy (s : jstring) : bool :=
  match s with [] => false | _ => true end.

(** [a || b] on strings. *)
Definition or_else (a b : jstring) : jstring :=
  if truthy a then a else b.

(** WhiteSpace and LineTerminator code units, as removed by [trim]. *)
Definition isWhiteSpace (c : N) : bool :=
  ((9 <=? c) && (c <=? 13) || (c =? 32) || (c =? 160) || (c =? 5760)
   || (8192 <=? c) && (c <=? 8202) || (c =? 8232) || (c =? 8233)
   || (c =? 8239) || (c =? 8287) || (c =? 12288) || (c =? 65279))%N.

Fixpoint dropWhile (f : N -> bool) (s : jstring) : jstring :=
  match s with
  | [] => []
  | c :: r => if f c then dropWhile f r else s
  end.

Definition trimStart (s : jstring) : jstring := dropWhile isWhiteSpace s.
Definition trimEnd (s : jstring) : jstring := rev (dropWhile isWhiteSpace (rev s)).
Definition trim (s : jstring) : jstring := trimEnd (trimStart s).

(** *** Case mapping

    [String.prototype.toUpperCase] maps every code point of the string to
    its upper-case mapping in the Unicode Character Database
    (UnicodeData.txt and the unconditional mappings of SpecialCasing.txt);
    the tables below are those of Unicode 14.0.  A run [(first, last,
    step, image)] maps [first], [first + step], ..., [last] to [image],
    [image + step], ...; [upperSpecial] lists the code points that map to
    more than one code point. *)
Definition upperRanges : list (N * N * N * N) :=
  [
    (97, 122, 1, 65); (181, 181, 1, 924); (224, 246, 1, 192);
    (248, 254, 1, 216); (255, 255, 1, 376); (257, 303, 2, 256);
    (305, 305, 1, 73); (307, 311, 2, 306); (314, 328, 2, 313);
    (331, 375, 2, 330); (378, 382, 2, 377); (383, 383, 1, 83);
    (384, 384, 1, 579); (387, 389, 2, 386); (392, 392, 1, 391);
    (396, 396, 1, 395); (402, 402, 1, 401); (405, 405, 1, 502);
    (409, 409, 1, 408); (410, 410, 1, 573); (414, 414, 1, 544);
    (417, 421, 2, 416); (424, 424, 1, 423); (429, 429, 1, 428);
    (432, 432, 1, 431); (436, 438, 2, 435); (441, 441, 1, 440);
    (445, 445, 1, 444); (447, 447, 1, 503); (453, 453, 1, 452);
    (454, 454, 1, 452); (456, 456, 1, 455); (457, 457, 1, 455);
    (459, 459, 1, 458); (460, 460, 1, 458); (462, 476, 2, 461);
    (477, 477, 1, 398); (479, 495, 2, 478); (498, 498, 1, 497);
    (499, 499, 1, 497); (501, 501, 1, 500); (505, 543, 2, 504);
    (547, 563, 2, 546); (572, 572, 1, 571); (575, 576, 1, 11390);
    (578, 578, 1, 577); (583, 591, 2, 582); (592, 592, 1, 11375);
    (593, 593, 1, 11373); (594, 594, 1, 11376); (595, 595, 1, 385);
    (596, 596, 1, 390); (598, 599, 1, 393); (601, 601, 1, 399);
    (603, 603, 1, 400); (604, 604, 1, 42923); (608, 608, 1, 403);
    (609, 609, 1, 42924); (611, 611, 1, 404); (613, 613, 1, 42893);
    (614, 614, 1, 42922); (616, 616, 1, 407); (617, 617, 1, 406);
    (618, 618, 1, 42926); (619, 619, 1, 11362); (620, 620, 1, 42925);
    (623, 623, 1, 412); (625, 625, 1, 11374); (626, 626, 1, 413);
    (629, 629, 1, 415); (637, 637, 1, 11364); (640, 640, 1, 422);
    (642, 642, 1, 42949); (643, 643, 1, 425); (647, 647, 1, 42929);
    (648, 648, 1, 430); (649, 649, 1, 580); (650, 651, 1, 433);
    (652, 652, 1, 581); (658, 658, 1, 439); (669, 669, 1, 42930);
    (670, 670, 1, 42928); (837, 837, 1, 921); (881, 883, 2, 880);
    (887, 887, 1, 886); (891, 893, 1, 1021); (940, 940, 1, 902);
    (941, 943, 1, 904); (945, 961, 1, 913); (962, 962, 1, 931);
    (963, 971, 1, 931); (972, 972, 1, 908); (973, 974, 1, 910);
    (976, 976, 1, 914); (977, 977, 1, 920); (981, 981, 1, 934);
    (982, 982, 1, 928); (983, 983, 1, 975); (985, 1007, 2, 984);
    (1008, 1008, 1, 922); (1009, 1009, 1, 929); (1010, 1010, 1, 1017);
    (1011, 1011, 1, 895); (1013, 1013, 1, 917); (1016, 1016, 1, 1015);
    (1019, 1019, 1, 1018); (1072, 1103, 1, 1040); (1104, 1119, 1, 1024);
    (1121, 1153, 2, 1120); (1163, 1215, 2, 1162); (1218, 1230, 2, 1217);
    (1231, 1231, 1, 1216); (1233, 1327, 2, 1232); (1377, 1414, 1, 1329);
    (4304, 4346, 1, 7312); (4349, 4351, 1, 7357); (5112, 5117, 1, 5104);
    (7296, 7296, 1, 1042); (7297, 7297, 1, 1044); (7298, 7298, 1, 1054);
    (7299, 7300, 1, 1057); (7301, 7301, 1, 1058); (7302, 7302, 1, 1066);
    (7303, 7303, 1, 1122); (7304, 7304, 1, 42570); (7545, 7545, 1, 42877);
    (7549, 7549, 1, 11363); (7566, 7566, 1, 42950); (7681, 7829, 2, 7680);
    (7835, 7835, 1, 7776); (7841, 7935, 2, 7840); (7936, 7943, 1, 7944);
    (7952, 7957, 1, 7960); (7968, 7975, 1, 7976); (7984, 7991, 1, 7992);
    (8000, 8005, 1, 8008); (8017, 8023, 2, 8025); (8032, 8039, 1, 8040);
    (8048, 8049, 1, 8122); (8050, 8053, 1, 8136); (8054, 8055, 1, 8154);
    (8056, 8057, 1, 8184); (8058, 8059, 1, 8170); (8060, 8061, 1, 8186);
    (8112, 8113, 1, 8120); (8126, 8126, 1, 921); (8144, 8145, 1, 8152);
    (8160, 8161, 1, 8168); (8165, 8165, 1, 8172); (8526, 8526, 1, 8498);
    (8560, 8575, 1, 8544); (8580, 8580, 1, 8579); (9424, 9449, 1, 9398);
    (11312, 11359, 1, 11264); (11361, 11361, 1, 11360);
    (11365, 11365, 1, 570); (11366, 11366, 1, 574);
    (11368, 11372, 2, 11367); (11379, 11379, 1, 11378);
    (11382, 11382, 1, 11381); (11393, 11491, 2, 11392);
    (11500, 11502, 2, 11499); (11507, 11507, 1, 11506);
    (11520, 11557, 1, 4256); (11559, 11559, 1, 4295);
    (11565, 11565, 1, 4301); (42561, 42605, 2, 42560);
    (42625, 42651, 2, 42624); (42787, 42799, 2, 42786);
    (42803, 42863, 2, 42802); (42874, 42876, 2, 42873);
    (42879, 42887, 2, 42878); (42892, 42892, 1, 42891);
    (42897, 42899, 2, 42896); (42900, 42900, 1, 42948);
    (42903, 42921, 2, 42902); (42933, 42947, 2, 42932);
    (42952, 42954, 2, 42951); (42961, 42961, 1, 42960);
    (42967, 42969, 2, 42966); (42998, 42998, 1, 42997);
    (43859, 43859, 1, 42931); (43888, 43967, 1, 5024);
    (65345, 65370, 1, 65313); (66600, 66639, 1, 66560);
    (66776, 66811, 1, 66736); (66967, 67003, 2, 66928);
    (66968, 66976, 2, 66929); (66980, 66992, 2, 66941);
    (66996, 67000, 2, 66957); (67004, 67004, 1, 66965);
    (68800, 68850, 1, 68736); (71872, 71903, 1, 71840);
    (93792, 93823, 1, 93760); (125218, 125251, 1, 125184)
  ]%N.

Definition upperSpecial : list (N * list N) :=
  [
    (223, [83; 83]); (329, [700; 78]); (496, [74; 780]);
    (912, [921; 776; 769]); (944, [933; 776; 769]); (1415, [1333; 1362]);
    (7830, [72; 817]); (7831, [84; 776]); (7832, [87; 778]);
    (7833, [89; 778]); (7834, [65; 702]); (8016, [933; 787]);
    (8018, [933; 787; 768]); (8020, [933; 787; 769]);
    (8022, [933; 787; 834]); (8064, [7944; 921]); (8065, [7945; 921]);
    (8066, [7946; 921]); (8067, [7947; 921]); (8068, [7948; 921]);
    (8069, [7949; 921]); (8070, [7950; 921]); (8071, [7951; 921]);
    (8072, [7944; 921]); (8073, [7945; 921]); (8074, [7946; 921]);
    (8075, [7947; 921]); (8076, [7948; 921]); (8077, [7949; 921]);
    (8078, [7950; 921]); (8079, [7951; 921]); (8080, [7976; 921]);
    (8081, [7977; 921]); (8082, [7978; 921]); (8083, [7979; 921]);
    (8084, [7980; 921]); (8085, [7981; 921]); (8086, [7982; 921]);
    (8087, [7983; 921]); (8088, [7976; 921]); (8089, [7977; 921]);
    (8090, [7978; 921]); (8091, [7979; 921]); (8092, [7980; 921]);
    (8093, [7981; 921]); (8094, [7982; 921]); (8095, [7983; 921]);
    (8096, [8040; 921]); (8097, [8041; 921]); (8098, [8042; 921]);
    (8099, [8043; 921]); (8100, [8044; 921]); (8101, [8045; 921]);
    (8102, [8046; 921]); (8103, [8047; 921]); (8104, [8040; 921]);
    (8105, [8041; 921]); (8106, [8042; 921]); (8107, [8043; 921]);
    (8108, [8044; 921]); (8109, [8045; 921]); (8110, [8046; 921]);
    (8111, [8047; 921]); (8114, [8122; 921]); (8115, [913; 921]);
    (8116, [902; 921]); (8118, [913; 834]); (8119, [913; 834; 921]);
    (8124, [913; 921]); (8130, [8138; 921]); (8131, [919; 921]);
    (8132, [905; 921]); (8134, [919; 834]); (8135, [919; 834; 921]);
    (8140, [919; 921]); (8146, [921; 776; 768]); (8147, [921; 776; 769]);
    (8150, [921; 834]); (8151, [921; 776; 834]); (8162, [933; 776; 768]);
    (8163, [933; 776; 769]); (8164, [929; 787]); (8166, [933; 834]);
    (8167, [933; 776; 834]); (8178, [8186; 921]); (8179, [937; 921]);
    (8180, [911; 921]); (8182, [937; 834]); (8183, [937; 834; 921]);
    (8188, [937; 921]); (64256, [70; 70]); (64257, [70; 73]);
    (64258, [70; 76]); (64259, [70; 70; 73]); (64260, [70; 70; 76]);
    (64261, [83; 84]); (64262, [83; 84]); (64275, [1348; 1350]);
    (64276, [1348; 1333]); (64277, [1348; 1339]); (64278, [1358; 1350]);
    (64279, [1348; 1341])
  ]%N.

Definition expandRange (r : N * N * N * N) : list (N * list N) :=
  let '(a, b, s, t) := r in
  map (fun k => (a + N.of_nat k * s, [t + N.of_nat k * s])%N)
      (seq 0 (S (N.to_nat ((b - a) / s)))).

Definition upperTable : list (N * list N) :=
  Eval vm_compute in flat_map expandRange upperRanges ++ upperSpecial.

Fixpoint assoc (c : N) (t : list (N * list N)) : option (list N) :=
  match t with
  | [] => None
  | (k, m) :: r => if (k =? c)%N then Some m else assoc c r
  end.

(** The upper-case mapping of a code point; no code point below U+0061
    has one. *)
Definition upperPoint (c : N) : list N :=
  if (c <? 97)%N then [c]
  else match assoc c upperTable with
       | Some m => m
       | None => [c]
       end.

(** UTF-16: the surrogates, the code point of a surrogate pair and the
    code units of a code point. *)
Definition isHigh (c : N) : bool := ((55296 <=? c) && (c <=? 56319))%N.
Definition isLow (c : N) : bool := ((56320 <=? c) && (c <=? 57343))%N.
Definition isSurrogate (c : N) : bool := isHigh c || isLow c.

Definition codePoint (h l : N) : N :=
  (65536 + (h - 55296) * 1024 + (l - 56320))%N.

Definition codeUnits (cp : N) : jstring :=
  (if cp <? 65536 then [cp]
   else [55296 + (cp - 65536) / 1024; 56320 + (cp - 65536) mod 1024])%N.

(** The image of a code unit that stands for itself (the images of the
    Basic Multilingual Plane stay in that plane) and of a surrogate
    pair. *)
Definition upperUnit (c : N) : jstring :=
  if (c <? 65536)%N then upperPoint c else [c].

Definition upperPair (h l : N) : jstring :=
  flat_map codeUnits (upperPoint (codePoint h l)).

(** [s.toUpperCase()]: a high surrogate followed by a low one is one code
    point, any other code unit is a code point of its own. *)
Fixpoint toUpperCase (s : jstring) : jstring :=
  match s with
  | [] => []
  | h :: r =>
      match r with
      | l :: r' =>
          if isHigh h && isLow l
          then upperPair h l ++ toUpperCase r'
          else upperUnit h ++ toUpperCase r
      | [] => upperUnit h
      end
  end.

(** What the proofs check of every entry [(k, m)] of the table: [k] is no
    white space and no surrogate, [m] is not empty, made of code points
    that are no white space, no surrogates, fixed by the mapping and in
    the plane of [k] (one of them in the supplementary planes), and [m]
    holds a [C] for [c] only. *)
Definition isFixed (x : N) : bool :=
  match upperPoint x with
  | [y] => (y =? x)%N
  | _ => false
  end.

Definition entryOk (e : N * list N) : bool :=
  let '(k, m) := e in
  negb (isWhiteSpace k) && negb (isSurrogate k) && (k <? 1114112)%N
  && match m with [] => false | _ => true end
  && forallb (fun x => negb (isWhiteSpace x) && negb (isSurrogate x)
                       && isFixed x
                       && (if (k <? 65536)%N then (x <? 65536)%N
                           else (65536 <=? x)%N && (x <? 1114112)%N)) m
  && (if (k <? 65536)%N then true
      else match m with [_] => true | _ => false end)
  && (if existsb (N.eqb 67) m then (k =? 99)%N else true).

(** Whether a text starts with a low surrogate. *)
Definition startsLow (s : jstring) : bool :=
  match s with
  | l :: _ => isLow l
  | [] => false
  end.

(** A text that is empty or ends with a unit that is not white space. *)
Definition endsClean (s : jstring) : Prop :=
  s = [] \/ exists a c, s = a ++ [c] /\ isWhiteSpace c = false.

(** [toLowerCase] is used by the code only to compare a header token with
    one of its seven ASCII column names.  [lowerUnit] is the lower-case
    mapping of U+0000..U+00FF and leaves the other code units as they are.
    Beyond U+00FF the only lower-case mappings that produce an ASCII
    character are those of U+0130 (i followed by U+0307) and of U+212A
    (k); neither makes a token equal to a column name, so the comparison
    is decided as in the code. *)
Definition lowerUnit (c : N) : N :=
  (if (65 <=? c) && (c <=? 90) then c + 32
   else if (192 <=? c) && (c <=? 222) && negb (c =? 215) then c + 32
   else c)%N.

Definition toLowerCase (s : jstring) : jstring := map lowerUnit s.

Fixpoint startsWith (p s : jstring) : bool :=
  match p, s with
  | [], _ => true
  | _ :: _, [] => false
  | a :: p', b :: s' => (a =? b)%N && startsWith p' s'
  end.

Fixpoint includes (p s : jstring) : bool :=
  startsWith p s ||
  match s with
  | [] => false
  | _ :: r => includes p r
  end.

(** [s.replace(c, r)] for a one-unit pattern [c]: only the first
    occurrence is replaced. *)
Fixpoint replaceFirst (c : N) (r : jstring) (s : jstring) : jstring :=
  match s with
  | [] => []
  | x :: t => if (x =? c)%N then r ++ t else x :: replaceFirst c r t
  end.

(** [s.replace(/c/g, '')]. *)
Definition removeAll (c : N) (s : jstring) : jstring :=
  filter (fun x => negb (x =? c)%N) s.

(** [s.split(sep)] for a one-unit separator. *)
Fixpoint split (sep : N) (s : jstring) : list jstring :=
  match s with
  | [] => [[]]
  | c :: r =>
      if (c =? sep)%N then [] :: split sep r
      else match split sep r with
           | cur :: rest => (c :: cur) :: rest
           | [] => [[c]]
           end
  end.

(** [s.split(/\r?\n/)]. *)
Fixpoint splitLines (s : jstring) : list jstring :=
  match s with
  | [] => [[]]
  | c :: r =>
      if (c =? 10)%N then [] :: splitLines r
      else
        match r with
        | c2 :: r2 =>
            if (c =? 13)%N && (c2 =? 10)%N then [] :: splitLines r2
            else match splitLines r with
                 | cur :: rest => (c :: cur) :: rest
                 | [] => [[c]]
                 end
        | [] => [[c]]
        end
  end.

(** [xs.findIndex(f)]: the first index whose element satisfies [f], -1
    when there is none. *)
Fixpoint findIndex_from {A} (f : A -> bool) (xs : list A) (i : Z) : Z :=
  match xs with
  | [] => (-1)%Z
  | x :: r => if f x then i else findIndex_from f r (i + 1)%Z
  end.

Definition findIndex {A} (f : A -> bool) (xs : list A) : Z :=
  findIndex_from f xs 0%Z.

(** [xs.slice(i)] for [i >= 0]. *)
Definition slice {A} (i : Z) (xs : list A) : list A := skipn (Z.to_nat i) xs.

(** ** Numbers *)

Inductive number :=
| Fin (q : Qc)
| PInf
| NInf
| NaN.

Definition ofZ (z : Z) : number := Fin (Q2Qc (inject_Z z)).
Definition ofQ (q : Q) : number := Fin (Q2Qc q).

Definition Qcltb (a b : Qc) : bool :=
  match (a ?= b)%Qc with Lt => true | _ => false end.
Definition Qcleb (a b : Qc) : bool :=
  match (a ?= b)%Qc with Gt => false | _ => true end.
Definition Qceqb (a b : Qc) : bool :=
  match (a ?= b)%Qc with Eq => true | _ => false end.

Definition isNaN (x : number) : bool :=
  match x with NaN => true | _ => false end.

Definition add (x y : number) : number :=
  match x, y with
  | NaN, _ | _, NaN => NaN
  | Fin a, Fin b => Fin (a + b)%Qc
  | PInf, NInf | NInf, PInf => NaN
  | PInf, _ | _, PInf => PInf
  | NInf, _ | _, NInf => NInf
  end.

Definition sub (x y : number) : number :=
  match x, y with
  | NaN, _ | _, NaN => NaN
  | Fin a, Fin b => Fin (a - b)%Qc
  | PInf, PInf | NInf, NInf => NaN
  | PInf, _ | _, NInf => PInf
  | NInf, _ | _, PInf => NInf
  end.

Definition mul (x y : number) : number :=
  match x, y with
  | NaN, _ | _, NaN => NaN
  | Fin a, Fin b => Fin (a * b)%Qc
  | Fin a, PInf | PInf, Fin a =>
      if Qceqb a 0 then NaN else if Qcltb 0 a then PInf else NInf
  | Fin a, NInf | NInf, Fin a =>
      if Qceqb a 0 then NaN else if Qcltb 0 a then NInf else PInf
  | PInf, PInf | NInf, NInf => PInf
  | PInf, NInf | NInf, PInf => NInf
  end.

(** Division; a zero divisor is taken as +0 (the sign of zero is not
    represented). *)
Definition div (x y : number) : number :=
  match x, y with
  | NaN, _ | _, NaN => NaN
  | Fin a, Fin b =>
      if Qceqb b 0 then
        (if Qceqb a 0 then NaN else if Qcltb 0 a then PInf else NInf)
      else Fin (a / b)%Qc
  | Fin _, (PInf | NInf) => Fin 0%Qc
  | (PInf | NInf), (PInf | NInf) => NaN
  | PInf, Fin b => if Qcltb b 0 then NInf else PInf
  | NInf, Fin b => if Qcltb b 0 then PInf else NInf
  end.

(** [x < y]; false as soon as one side is NaN. *)
Definition lt (x y : number) : bool :=
  match x, y with
  | NaN, _ | _, NaN => false
  | Fin a, Fin b => Qcltb a b
  | NInf, (Fin _ | PInf) => true
  | Fin _, PInf => true
  | _, _ => false
  end.

Definition le (x y : number) : bool :=
  match x, y with
  | NaN, _ | _, NaN => false
  | Fin a, Fin b => Qcleb a b
  | NInf, _ => true
  | _, PInf => true
  | _, _ => false
  end.

Definition gt (x y : number) : bool := lt y x.
Definition ge (x y : number) : bool := le y x.

(** [Math.max(x, y)] and [Math.min(x, y)]. *)
Definition max (x y : number) : number :=
  match x, y with
  | NaN, _ | _, NaN => NaN
  | _, _ => if lt x y then y else x
  end.

Definition min (x y : number) : number :=
  match x, y with
  | NaN, _ | _, NaN => NaN
  | _, _ => if lt y x then y else x
  end.

(** Equality of numbers, decided by comparing the rationals. *)
Definition number_eqb (x y : number) : bool :=
  match x, y with
  | Fin a, Fin b => Qceqb a b
  | PInf, PInf | NInf, NInf | NaN, NaN => true
  | _, _ => false
  end.

Definition option_number_eqb (x y : option number) : bool :=
  match x, y with
  | Some a, Some b => number_eqb a b
  | None, None => true
  | _, _ => false
  end.

(** *** Binary64

    The arithmetic of the machine: an operation gives the binary64 number
    nearest to its exact result, ties going to the even significand, and
    an infinity from 2^1024 on.  [add], [sub], [mul] and [div] above are
    the exact operations; [add64], [sub64], [mul64] and [div64] round
    them.  The sign of zero is not represented. *)
Definition pow2 (k : Z) : Q := Qpower 2 k.

(** The exponent [e] of a positive rational: [2^e <= q < 2^(e+1)]. *)
Definition ilog2 (q : Q) : Z :=
  let k := (Z.log2 (Qnum q) - Z.log2 (Zpos (Qden q)))%Z in
  if Qle_bool (pow2 k) q then k else (k - 1)%Z.

(** The nearest integer, ties to even. *)
Definition roundEven (x : Q) : Z :=
  let f := Qfloor x in
  match (x - inject_Z f ?= 1 # 2)%Q with
  | Lt => f
  | Gt => (f + 1)%Z
  | Eq => if Z.even f then f else (f + 1)%Z
  end.

(** The nearest multiple of [2^(e - 52)]: the binary64 numbers of exponent
    [e] are those multiples. *)
Definition grid (e : Z) (q : Q) : Q :=
  (inject_Z (roundEven (q / pow2 (e - 52))) * pow2 (e - 52))%Q.

(** The nearest binary64 number of a positive rational, before overflow;
    below 2^-1022 the numbers are the multiples of 2^-1074. *)
Definition nearest64 (q : Q) : Q := grid (Z.max (ilog2 q) (-1022)) q.

Definition round64 (q : Qc) : number :=
  match (q ?= Q2Qc 0)%Qc with
  | Eq => Fin q
  | Gt => let r := nearest64 q in
          if Qle_bool (pow2 1024) r then PInf else Fin (Q2Qc r)
  | Lt => let r := nearest64 (- q) in
          if Qle_bool (pow2 1024) r then NInf else Fin (Q2Qc (- r))
  end.

Definition rounded (x : number) : number :=
  match x with
  | Fin q => round64 q
  | _ => x
  end.

Definition add64 (x y : number) : number := rounded (add x y).
Definition sub64 (x y : number) : number := rounded (sub x y).
Definition mul64 (x y : number) : number := rounded (mul x y).
Definition div64 (x y : number) : number := rounded (div x y).

(** *** parseFloat *)

Definition isDigit (c : N) : bool := ((48 <=? c) && (c <=? 57))%N.

Fixpoint span (f : N -> bool) (s : jstring) : jstring * jstring :=
  match s with
  | [] => ([], [])
  | c :: r => if f c then let '(a, b) := span f r in (c :: a, b) else ([], s)
  end.

Definition digitsValue (ds : jstring) : Z :=
  fold_left (fun acc d => acc * 10 + Z.of_N (d - 48))%Z ds 0%Z.

(** The rational [m * 10^e]. *)
Definition decimal (m e : Z) : Qc :=
  if (0 <=? e)%Z then Q2Qc (inject_Z (m * 10 ^ e))
  else Q2Qc (m # Z.to_pos (10 ^ (- e)))%Q.

(** An optional sign: [+] is 43 and [-] is 45. *)
Definition signOf (s : jstring) : bool * jstring :=
  match s with
  | c :: r => if (c =? 43)%N then (false, r)
              else if (c =? 45)%N then (true, r) else (false, s)
  | [] => (false, s)
  end.

(** ExponentPart: [e] or [E], an optional sign and at least one digit;
    anything else contributes no exponent. *)
Definition exponentPart (s : jstring) : Z :=
  match s with
  | c :: r =>
      if (c =? 101)%N || (c =? 69)%N then
        let '(neg, r') := signOf r in
        match fst (span isDigit r') with
        | [] => 0%Z
        | ed => if neg then (- digitsValue ed)%Z else digitsValue ed
        end
      else 0%Z
  | [] => 0%Z
  end.

(** [parseFloat(s)]: leading white space is skipped and the longest
    prefix that is a StrDecimalLiteral is read, its value rounded to
    binary64; NaN when there is none. *)
Definition parseFloat (s : jstring) : number :=
  let '(neg, u) := signOf (trimStart s) in
  if startsWith (lit "Infinity") u then (if neg then NInf else PInf)
  else
    let '(ip, r1) := span isDigit u in
    let '(fp, r2) :=
      match r1 with
      | c :: r => if (c =? 46)%N then span isDigit r else ([], r1)
      | [] => ([], r1)
      end in
    match ip ++ fp with
    | [] => NaN
    | ds =>
        let m := digitsValue ds in
        round64 (decimal (if neg then - m else m)%Z
                         (exponentPart r2 - Z.of_nat (List.length fp))%Z)
    end.

(** *** Number.prototype.toFixed *)

Definition digitsOf (n : Z) : jstring :=
  lit (NilZero.string_of_uint (N.to_uint (Z.to_N n))).

Section ToFixed.

(** Number::toString on a finite value of magnitude at least 10^21, where
    [toFixed] switches to exponential notation; that notation depends on
    the binary64 digits and is left to the host. *)
Variable largeToString : Qc -> jstring.

Definition toFixedAbs (f : nat) (x : Qc) : jstring :=
  if Qcleb (Q2Qc (inject_Z (10 ^ 21))) x then largeToString x
  else
    let n := Qfloor (x * Q2Qc (inject_Z (10 ^ Z.of_nat f)) + Q2Qc (1 # 2)%Q)%Qc in
    let m := digitsOf n in
    match f with
    | O => m
    | _ =>
        let m' := repeat 48%N (S f - List.length m) ++ m in
        let k := List.length m' in
        firstn (k - f) m' ++ [46%N] ++ skipn (k - f) m'
    end.

Definition toFixed (f : nat) (x : number) : jstring :=
  match x with
  | NaN => lit "NaN"
  | PInf => lit "Infinity"
  | NInf => lit "-Infinity"
  | Fin q =>
      if Qcltb q 0 then 45%N :: toFixedAbs f (- q)%Qc else toFixedAbs f q
  end.

End ToFixed.

(** *** Plain objects used as string-keyed maps *)

Definition object (V : Type) := list (jstring * V).

Fixpoint get {V} (o : object V) (k : jstring) : option V :=
  match o with
  | [] => None
  | (k', v) :: r => if eqs k' k then Some v else get r k
  end.

(** [o[k] = v]: an existing property keeps its place, a new one is
    created last. *)
Fixpoint set {V} (o : object V) (k : jstring) (v : V) : object V :=
  match o with
  | [] => [(k, v)]
  | (k', v') :: r => if eqs k' k then (k', v) :: r else (k', v') :: set r k v
  end.

(** A property key that is an array index: the canonical decimal form of
    an integer below 2^32 - 1. *)
Definition arrayIndex (k : jstring) : option N :=
  match k with
  | [] => None
  | c :: r =>
      if forallb isDigit k && ((negb (c =? 48)%N) || match r with [] => true | _ => false end)
      then let v := Z.to_N (digitsValue k) in
           if (v <? 4294967295)%N then Some v else None
      else None
  end.

Fixpoint insertIndexed {V} (i : N) (e : jstring * V)
    (l : list (N * (jstring * V))) : list (N * (jstring * V)) :=
  match l with
  | [] => [(i, e)]
  | (j, e') :: r =>
      if (i <? j)%N then (i, e) :: l else (j, e') :: insertIndexed i e r
  end.

Definition indexedEntries {V} (o : object V) : list (N * (jstring * V)) :=
  fold_left
    (fun acc e => match arrayIndex (fst e) with
                  | Some i => insertIndexed i e acc
                  | None => acc
                  end) o [].

(** [Object.entries(o)]: array-index keys in ascending numeric order, then
    the other keys in creation order. *)
Definition entries {V} (o : object V) : list (jstring * V) :=
  map snd (indexedEntries o) ++
  filter (fun e => match arrayIndex (fst e) with Some _ => false | None => true end) o.

(** *** Set of strings, Array.from and the default sort *)

Definition JSet := list jstring.

(** [s.add(x)]: membership keeps the set as it is, a new element goes
    last. *)
Fixpoint setAdd (s : JSet) (x : jstring) : JSet :=
  match s with
  | [] => [x]
  | y :: r => if eqs y x then s else y :: setAdd r x
  end.

(** Code-unit lexicographic order, the order of the default
    [Array.prototype.sort]. *)
Fixpoint leStr (a b : jstring) : bool :=
  match a, b with
  | [], _ => true
  | _ :: _, [] => false
  | x :: a', y :: b' => (x <? y)%N || ((x =? y)%N && leStr a' b')
  end.

Fixpoint insertSorted (x : jstring) (l : list jstring) : list jstring :=
  match l with
  | [] => [x]
  | y :: r => if leStr x y then x :: l else y :: insertSorted x r
  end.

(** [xs.sort()] on strings.  The order is total and strings equal for it
    are identical, so every sorting algorithm returns this list. *)
Definition sort (l : list jstring) : list jstring :=
  fold_right insertSorted [] l.

(** *** Math.ceil, Math.abs, strict equality and Number::toString *)

Definition ceil (x : number) : number :=
  match x with
  | Fin q => ofZ (Qceiling q)
  | _ => x
  end.

Definition abs (x : number) : number :=
  match x with
  | Fin q => if Qcltb q (Q2Qc 0) then Fin (- q)%Qc else x
  | NInf => PInf
  | _ => x
  end.

(** [x === y] on numbers: NaN is not equal to itself. *)
Definition strictEq (x y : number) : bool :=
  match x, y with
  | Fin a, Fin b => Qceqb a b
  | PInf, PInf | NInf, NInf => true
  | _, _ => false
  end.

Section NumberToString.

(** Number::toString on a finite value that is not an integer of
    magnitude below 10^21; its digits depend on the binary64 value and
    are left to the host. *)
Variable hostToString : Qc -> jstring.

(** [String(x)] and [`${x}`]: an integer below 10^21 in magnitude is
    printed in decimal. *)
Definition toString (x : number) : jstring :=
  match x with
  | NaN => lit "NaN"
  | PInf => lit "Infinity"
  | NInf => lit "-Infinity"
  | Fin q =>
      if (Qden q =? 1)%positive
         && Qcltb (Q2Qc (inject_Z (- 10 ^ 21))) q
         && Qcltb q (Q2Qc (inject_Z (10 ^ 21)))
      then (if Qcltb q (Q2Qc 0) then 45%N :: digitsOf (- Qnum q)
            else digitsOf (Qnum q))
      else hostToString q
  end.

End NumberToString.

End JS.

(** ** types.ts *)

Module Types.
Import JS.

(** A [Project] as the CSV parser builds it; [perc] is [number | null]. *)
Record Project := {
  CLIENTE : jstring;
  TIPO_DE_PROJETO : jstring;
  TIPO_DE_PRODUTO : jstring;
  BUs : jstring;
  C_Custo : jstring;
  STATUS : jstring;
  perc : option number
}.

Record DetailedProjectStep := {
  step_name : jstring;
  step_perc : number
}.

Record BuHours := {
  infra : number;
  sse : number;
  ti : number;
  aut : number
}.

Record DetailedProject := {
  id : jstring;
  name : jstring;
  start : jstring;
  end_ : jstring;
  steps : list DetailedProjectStep;
  soldHours : BuHours;
  usedHours : BuHours
}.

(** The object literals returned by the two summary computations. *)
Record Summary := {
  total : nat;
  avgPercent : jstring;
  finished : nat;
  inProgress : nat;
  paralyzed : nat;
  notStarted : nat
}.

Record ChartDatum := {
  datum_name : jstring;
  Projetos : nat;
  color : jstring
}.

Record StatusStyle := {
  pill : jstring;
  chart : jstring
}.

(** The labels of the canonical statuses; the two accented ones are
    written with their code units (U+00C3 is 195). *)
Definition FINALIZADO : jstring := lit "FINALIZADO".
Definition EM_ANDAMENTO : jstring := lit "EM ANDAMENTO".
Definition PARALIZADO : jstring := lit "PARALIZADO".
Definition NAO_INICIADO : jstring := lit "N" ++ [195%N] ++ lit "O INICIADO".

(** The state of the counting loop shared by both summaries: the four
    counters and the two counting objects. *)
Record Tally := {
  t_finished : nat;
  t_inProgress : nat;
  t_paralyzed : nat;
  t_notStarted : nat;
  statusCounts : object nat;
  buCounts : object nat
}.

Definition emptyTally : Tally :=
  {| t_finished := 0; t_inProgress := 0; t_paralyzed := 0; t_notStarted := 0;
     statusCounts := []; buCounts := [] |}.

(** [vs.filter((v): v is number => typeof v === 'number')]: the values
    that are not [null], as numbers. *)
Fixpoint numbers (vs : list (option number)) : list number :=
  match vs with
  | [] => []
  | Some x :: r => x :: numbers r
  | None :: r => numbers r
  end.

(** [o[k] = (o[k] || 0) + 1], for a key [k] that is not the name of a
    member inherited from [Object.prototype]. *)
Definition increment (o : object nat) (k : jstring) : object nat :=
  set o k (match get o k with Some v => v | None => 0 end + 1).

Record KeyFact := {
  kf_id : jstring;
  kf_text : jstring;
  kf_logoUrl : option jstring
}.

Record NextStep := {
  ns_id : jstring;
  ns_project : jstring;
  ns_description : jstring
}.

End Types.

(** ** components/DashboardView.tsx *)

Module DashboardView.
Import JS Types.

(** The argument of [normalizePercent] is typed [any]; the parser passes
    it a string or [null]. *)
Inductive value :=
| Null
| Undefined
| Str (s : jstring).

Definition normalizePercent (v : value) : option number :=
  match v with
  | Null | Undefined => None
  | Str s =>
      let cleaned := trim (replaceFirst 37%N [] s) in
      if negb (truthy cleaned) then None
      else
        let num := parseFloat (replaceFirst 44%N [46%N] cleaned) in
        if isNaN num then None else Some num
  end.

Definition normalizeStatus (status : jstring) : jstring :=
  if negb (truthy status) then [] else toUpperCase (trim status).

(** The alerts [parseTeleinfoCsv] can raise, by their message:
    - [NoHeaderLine]: "Erro de Analise: Nao foi possivel encontrar a linha
      de cabecalho. ..."
    - [EmptyOrHeaderOnly]: "Erro de Analise: O arquivo CSV esta vazio ou
      contem apenas a linha de cabecalho."
    - [NoIdentityColumn]: "Erro de Analise: O arquivo CSV deve conter uma
      coluna 'CLIENTE' ou 'C.Custo'. ..."
    - [NoValidRows]: "Aviso: Nenhuma linha de projeto valida foi
      encontrada no arquivo CSV. ..." *)
Inductive Alert :=
| NoHeaderLine
| EmptyOrHeaderOnly
| NoIdentityColumn
| NoValidRows.

(** An "Erro de Analise" alert comes with an early [return []]; the
    "Aviso" one does not stop the parser. *)
Definition fatal (a : Alert) : bool :=
  match a with
  | NoHeaderLine | EmptyOrHeaderOnly | NoIdentityColumn => true
  | NoValidRows => false
  end.

Record IdxMap := {
  idx_cliente : Z;
  idx_tipoProjeto : Z;
  idx_tipoProduto : Z;
  idx_bus : Z;
  idx_cCusto : Z;
  idx_status : Z;
  idx_perc : Z
}.

(** The local [findIndex] closure over [headers]. *)
Fixpoint findIndex (headers : list jstring) (possibleNames : list jstring) : Z :=
  match possibleNames with
  | [] => (-1)%Z
  | name :: rest =>
      let idx := JS.findIndex (fun h => eqs (toLowerCase h) (toLowerCase name)) headers in
      if negb (idx =? -1)%Z then idx else findIndex headers rest
  end.

Definition mkIdxMap (headers : list jstring) : IdxMap :=
  {| idx_cliente := findIndex headers [lit "CLIENTE"];
     idx_tipoProjeto := findIndex headers [lit "TIPO DE PROJETO"];
     idx_tipoProduto := findIndex headers [lit "TIPO DE PRODUTO"];
     idx_bus := findIndex headers [lit "BUs"];
     idx_cCusto := findIndex headers [lit "C.Custo"];
     idx_status := findIndex headers [lit "STATUS"];
     idx_perc := findIndex headers [lit "%"] |}.

(** [cells[idx]?.trim() || ""]. *)
Definition getCell (cells : list jstring) (idx : Z) : jstring :=
  match nth_error cells (Z.to_nat idx) with
  | Some c => or_else (trim c) []
  | None => []
  end.

(** [idx > -1 ? getCell(idx) : ""]. *)
Definition cellOr (cells : list jstring) (idx : Z) : jstring :=
  if (-1 <? idx)%Z then getCell cells idx else [].

(** One iteration of the row loop: [rows] is the array built so far. *)
Definition rowStep (idxMap : IdxMap) (rows : list Project) (line : jstring)
  : list Project :=
  let cells := split 59%N line in
  let cliente := cellOr cells (idx_cliente idxMap) in
  let cCusto := cellOr cells (idx_cCusto idxMap) in
  if negb (truthy cliente) && negb (truthy cCusto) then rows
  else
    rows ++
    [{| CLIENTE := cliente;
        TIPO_DE_PROJETO := cellOr cells (idx_tipoProjeto idxMap);
        TIPO_DE_PRODUTO := cellOr cells (idx_tipoProduto idxMap);
        BUs := cellOr cells (idx_bus idxMap);
        C_Custo := cCusto;
        STATUS := normalizeStatus (cellOr cells (idx_status idxMap));
        perc := normalizePercent
                  (if (-1 <? idx_perc idxMap)%Z
                   then Str (getCell cells (idx_perc idxMap)) else Null) |}].

(** Step 1: a leading byte order mark is dropped. *)
Definition stripBom (text : jstring) : jstring :=
  match text with
  | c :: r => if (c =? 65279)%N then r else text
  | [] => text
  end.

Definition isHeaderLine (l : jstring) : bool :=
  includes (lit "CLIENTE") (toUpperCase l).

Definition notBlank (l : jstring) : bool :=
  (0 <? List.length (trim (removeAll 59%N l)))%nat.

(** [parseTeleinfoCsv]: the rows returned and the alerts raised. *)
Definition parseTeleinfoCsv (text : jstring) : list Project * list Alert :=
  let text := stripBom text in
  let allLines := splitLines text in
  let headerRowIndex := JS.findIndex isHeaderLine allLines in
  if (headerRowIndex =? -1)%Z then ([], [NoHeaderLine])
  else
    let lines := filter notBlank (slice headerRowIndex allLines) in
    if (List.length lines <? 2)%nat then ([], [EmptyOrHeaderOnly])
    else
      let headers := map trim (split 59%N (nth 0 lines [])) in
      let idxMap := mkIdxMap headers in
      if (idx_cliente idxMap =? -1)%Z && (idx_cCusto idxMap =? -1)%Z
      then ([], [NoIdentityColumn])
      else
        let rows := fold_left (rowStep idxMap) (skipn 1 lines) [] in
        (rows, if (List.length rows =? 0)%nat then [NoValidRows] else []).

(** *** Status and BU colours *)

Definition statusColors_FINALIZADO : StatusStyle :=
  {| pill := lit "bg-green-500/10 text-green-400"; chart := lit "#22c55e" |}.
Definition statusColors_EM_ANDAMENTO : StatusStyle :=
  {| pill := lit "bg-blue-500/10 text-blue-400"; chart := lit "#3b82f6" |}.
Definition statusColors_PARALIZADO : StatusStyle :=
  {| pill := lit "bg-red-500/10 text-red-400"; chart := lit "#ef4444" |}.
Definition statusColors_NAO_INICIADO : StatusStyle :=
  {| pill := lit "bg-yellow-500/10 text-yellow-400"; chart := lit "#eab308" |}.
Definition statusColors_DEFAULT : StatusStyle :=
  {| pill := lit "bg-gray-500/10 text-gray-400"; chart := lit "#6b7280" |}.

Definition getStatusClass (status : jstring) : jstring :=
  let normalized := normalizeStatus status in
  if startsWith FINALIZADO normalized then pill statusColors_FINALIZADO
  else if startsWith EM_ANDAMENTO normalized then pill statusColors_EM_ANDAMENTO
  else if startsWith PARALIZADO normalized then pill statusColors_PARALIZADO
  else if startsWith NAO_INICIADO normalized then pill statusColors_NAO_INICIADO
  else pill statusColors_DEFAULT.

Definition getStatusChartColor (status : jstring) : jstring :=
  let normalized := normalizeStatus status in
  if startsWith FINALIZADO normalized then chart statusColors_FINALIZADO
  else if startsWith EM_ANDAMENTO normalized then chart statusColors_EM_ANDAMENTO
  else if startsWith PARALIZADO normalized then chart statusColors_PARALIZADO
  else if startsWith NAO_INICIADO normalized then chart statusColors_NAO_INICIADO
  else chart statusColors_DEFAULT.

(** U+00C7 is 199 and U+00C3 is 195. *)
Definition getBuChartColor (bu : jstring) : jstring :=
  let normalized := toUpperCase (trim bu) in
  if includes (lit "INFRAESTRUTURA") normalized then lit "#f97316"
  else if includes (lit "SEGURAN" ++ [199%N] ++ lit "A") normalized then lit "#10b981"
  else if includes (lit "TI") normalized then lit "#0b5ed7"
  else if includes (lit "AUTOMA" ++ [199%N; 195%N] ++ lit "O") normalized then lit "#6b7280"
  else lit "#8b949e".

(** *** The view model *)

Record UniqueFilters := {
  statuses : list jstring;
  bus : list jstring;
  clients : list jstring
}.

Record ViewModel := {
  summary : Summary;
  statusChartData : list ChartDatum;
  buChartData : list ChartDatum;
  uniqueFilters : UniqueFilters
}.

(** [filter ? field === filter : true]. *)
Definition matches (filter field : jstring) : bool :=
  if truthy filter then eqs field filter else true.

Definition filteredProjects (projects : list Project)
    (statusFilter buFilter clientFilter : jstring) : list Project :=
  filter (fun p => matches statusFilter (STATUS p)
                   && matches buFilter (BUs p)
                   && matches clientFilter (CLIENTE p)) projects.

(** The three sets filled by [projects.forEach]. *)
Definition collect (field : Project -> jstring) (projects : list Project) : JSet :=
  fold_left (fun s p => if truthy (field p) then setAdd s (field p) else s)
            projects [].

(** The body of [data.forEach]. *)
Definition tallyStep (t : Tally) (p : Project) : Tally :=
  let s := STATUS p in
  let f := t_finished t in
  let i := t_inProgress t in
  let pa := t_paralyzed t in
  let n := t_notStarted t in
  let '(f, i, pa, n) :=
    if startsWith FINALIZADO s then (f + 1, i, pa, n)
    else if startsWith EM_ANDAMENTO s then (f, i + 1, pa, n)
    else if startsWith PARALIZADO s then (f, i, pa + 1, n)
    else if startsWith NAO_INICIADO s then (f, i, pa, n + 1)
    else (f, i, pa, n) in
  let status := or_else s (lit "N/A") in
  let bu := or_else (BUs p) (lit "N/A") in
  {| t_finished := f; t_inProgress := i; t_paralyzed := pa; t_notStarted := n;
     statusCounts := increment (statusCounts t) status;
     buCounts := increment (buCounts t) bu |}.

(** [percValues] and [avg].  [avg64] is the number the code computes,
    every sum and the quotient rounded to binary64; [avg] is the same
    expression with the exact operations. *)
Definition percValues (data : list Project) : list number :=
  numbers (map perc data).

Definition avg (data : list Project) : number :=
  let vs := percValues data in
  if (0 <? List.length vs)%nat
  then div (fold_left add vs (ofZ 0)) (ofZ (Z.of_nat (List.length vs)))
  else ofZ 0.

Definition avg64 (data : list Project) : number :=
  let vs := percValues data in
  if (0 <? List.length vs)%nat
  then div64 (fold_left add64 vs (ofZ 0)) (ofZ (Z.of_nat (List.length vs)))
  else ofZ 0.

Section View.

Variable largeToString : Qc -> jstring.

Definition dashboard (projects : list Project)
    (statusFilter buFilter clientFilter : jstring) : ViewModel :=
  let data := filteredProjects projects statusFilter buFilter clientFilter in
  let t := fold_left tallyStep data emptyTally in
  let avg := avg64 data in
  {| summary :=
       {| total := List.length data;
          avgPercent := toFixed largeToString 1 avg ++ [37%N];
          finished := t_finished t;
          inProgress := t_inProgress t;
          paralyzed := t_paralyzed t;
          notStarted := t_notStarted t |};
     statusChartData :=
       map (fun e => {| datum_name := fst e; Projetos := snd e;
                        color := getStatusChartColor (fst e) |})
           (entries (statusCounts t));
     buChartData :=
       map (fun e => {| datum_name := fst e; Projetos := snd e;
                        color := getBuChartColor (fst e) |})
           (entries (buCounts t));
     uniqueFilters :=
       {| statuses := sort (collect STATUS projects);
          bus := sort (collect BUs projects);
          clients := sort (collect CLIENTE projects) |} |}.

End View.

End DashboardView.

(** ** components/PresentationView.tsx *)

Module PresentationView.
Import JS Types.

Definition statusColors_FINALIZADO : StatusStyle :=
  {| pill := lit "bg-green-500/10 text-green-400"; chart := lit "#22c55e" |}.
Definition statusColors_EM_ANDAMENTO : StatusStyle :=
  {| pill := lit "bg-blue-500/10 text-blue-400"; chart := lit "#3b82f6" |}.
Definition statusColors_PARALIZADO : StatusStyle :=
  {| pill := lit "bg-red-500/10 text-red-400"; chart := lit "#ef4444" |}.
Definition statusColors_NAO_INICIADO : StatusStyle :=
  {| pill := lit "bg-yellow-500/10 text-yellow-400"; chart := lit "#eab308" |}.
Definition statusColors_DEFAULT : StatusStyle :=
  {| pill := lit "bg-gray-500/10 text-gray-400"; chart := lit "#6b7280" |}.

Definition normalizeStatus (status : jstring) : jstring :=
  if negb (truthy status) then [] else toUpperCase (trim status).

Definition getStatusChartColor (status : jstring) : jstring :=
  let normalized := normalizeStatus status in
  if startsWith FINALIZADO normalized then chart statusColors_FINALIZADO
  else if startsWith EM_ANDAMENTO normalized then chart statusColors_EM_ANDAMENTO
  else if startsWith PARALIZADO normalized then chart statusColors_PARALIZADO
  else if startsWith NAO_INICIADO normalized then chart statusColors_NAO_INICIADO
  else chart statusColors_DEFAULT.

Definition getBuChartColor (bu : jstring) : jstring :=
  let normalized := toUpperCase (trim bu) in
  if includes (lit "INFRAESTRUTURA") normalized then lit "#f97316"
  else if includes (lit "SEGURAN" ++ [199%N] ++ lit "A") normalized then lit "#10b981"
  else if includes (lit "TI") normalized then lit "#0b5ed7"
  else if includes (lit "AUTOMA" ++ [199%N; 195%N] ++ lit "O") normalized then lit "#6b7280"
  else lit "#8b949e".

(** The object returned by the [portfolioSummary] memo. *)
Record PortfolioSummary := {
  ps_total : nat;
  ps_avgPercent : jstring;
  ps_finished : nat;
  ps_inProgress : nat;
  ps_paralyzed : nat;
  ps_notStarted : nat;
  ps_statusChartData : list ChartDatum;
  ps_buChartData : list ChartDatum
}.

(** The body of [data.forEach] in [portfolioSummary]. *)
Definition tallyStep (t : Tally) (p : Project) : Tally :=
  let s := STATUS p in
  let f := t_finished t in
  let i := t_inProgress t in
  let pa := t_paralyzed t in
  let n := t_notStarted t in
  let '(f, i, pa, n) :=
    if startsWith FINALIZADO s then (f + 1, i, pa, n)
    else if startsWith EM_ANDAMENTO s then (f, i + 1, pa, n)
    else if startsWith PARALIZADO s then (f, i, pa + 1, n)
    else if startsWith NAO_INICIADO s then (f, i, pa, n + 1)
    else (f, i, pa, n) in
  let status := or_else s (lit "N/A") in
  let bu := or_else (BUs p) (lit "N/A") in
  {| t_finished := f; t_inProgress := i; t_paralyzed := pa; t_notStarted := n;
     statusCounts := increment (statusCounts t) status;
     buCounts := increment (buCounts t) bu |}.

(** [percValues] and [avg].  [avg64] is the number the code computes,
    every sum and the quotient rounded to binary64; [avg] is the same
    expression with the exact operations. *)
Definition percValues (data : list Project) : list number :=
  numbers (map perc data).

Definition avg (data : list Project) : number :=
  let vs := percValues data in
  if (0 <? List.length vs)%nat
  then div (fold_left add vs (ofZ 0)) (ofZ (Z.of_nat (List.length vs)))
  else ofZ 0.

Definition avg64 (data : list Project) : number :=
  let vs := percValues data in
  if (0 <? List.length vs)%nat
  then div64 (fold_left add64 vs (ofZ 0)) (ofZ (Z.of_nat (List.length vs)))
  else ofZ 0.

Section Summary.

Variable largeToString : Qc -> jstring.

Definition portfolioSummary (allProjects : list Project) : PortfolioSummary :=
  let data := allProjects in
  let t := fold_left tallyStep data emptyTally in
  let avg := avg64 data in
  {| ps_total := List.length data;
     ps_avgPercent := toFixed largeToString 1 avg ++ [37%N];
     ps_finished := t_finished t;
     ps_inProgress := t_inProgress t;
     ps_paralyzed := t_paralyzed t;
     ps_notStarted := t_notStarted t;
     ps_statusChartData :=
       map (fun e => {| datum_name := fst e; Projetos := snd e;
                        color := getStatusChartColor (fst e) |})
           (entries (statusCounts t));
     ps_buChartData :=
       map (fun e => {| datum_name := fst e; Projetos := snd e;
                        color := getBuChartColor (fst e) |})
           (entries (buCounts t)) |}.

End Summary.

(** *** The slide of a detailed project *)

(** [proj.steps.length > 0 ? proj.steps.reduce((acc, s) => acc + s.perc, 0)
    / proj.steps.length : 0]. *)
Definition overallProgress (proj : DetailedProject) : number :=
  if (0 <? List.length (steps proj))%nat
  then div (fold_left (fun acc s => add acc (step_perc s)) (steps proj) (ofZ 0))
           (ofZ (Z.of_nat (List.length (steps proj))))
  else ofZ 0.

(** A [Date] by its time value in milliseconds; [None] is the invalid
    date, whose time value is NaN.  [startDate] and [endDate] are built by
    the host from [proj.start] and [proj.end] and are [null] when the field
    is empty; [today] is always a valid date. *)
Definition Date := option Z.

Definition timeValue (d : Date) : number :=
  match d with Some ms => ofZ ms | None => NaN end.

(** The [progress] field of [timelineInfo], in the arithmetic of the
    machine. *)
Definition timelineProgress (today : Z) (startDate endDate : option Date) : number :=
  match startDate, endDate with
  | Some s, Some e =>
      if le (timeValue s) (timeValue e) then
        let totalDuration := sub64 (timeValue e) (timeValue s) in
        let elapsedDuration := sub64 (ofZ today) (timeValue s) in
        if gt totalDuration (ofZ 0)
        then max (ofZ 0)
                 (min (ofZ 100)
                      (mul64 (div64 elapsedDuration totalDuration) (ofZ 100)))
        else if ge (ofZ today) (timeValue e) then ofZ 100 else ofZ 0
      else ofZ 0
  | _, _ => ofZ 0
  end.

(** The fill colour of one "Utilizadas" bar. *)
Definition cellColor (sold used : number) : jstring :=
  let color := lit "#f97316" in
  if gt sold (ofZ 0) then
    if gt used sold then lit "#ef4444"
    else if ge (div used sold) (ofQ (8 # 10)%Q) then lit "#eab308"
    else color
  else color.

(** *** The text of the timeline *)

Definition oneDay : Z := 1000 * 60 * 60 * 24.

(** [`dia${n > 1 ? 's' : ''}`]. *)
Definition dias (n : number) : jstring :=
  lit " dia" ++ (if gt n (ofZ 1) then lit "s" else []).

Section TimelineText.

Variable hostToString : Qc -> jstring.

(** The [text] field of [timelineInfo]; U+00E3 is 227 and U+00E1 is
    225. *)
Definition timelineText (today : Z) (startDate endDate : option Date) : jstring :=
  let undefinedDates := lit "Datas n" ++ [227%N] ++ lit "o definidas" in
  match startDate, endDate with
  | Some s, Some e =>
      if le (timeValue s) (timeValue e) then
        let remainingDays :=
          ceil (div (sub (timeValue e) (ofZ today)) (ofZ oneDay)) in
        if gt (ofZ today) (timeValue e) then
          let daysPast := abs remainingDays in
          if strictEq daysPast (ofZ 0) then lit "Finaliza hoje"
          else lit "Finalizado h" ++ [225%N] ++ lit " "
               ++ toString hostToString daysPast ++ dias daysPast
        else if lt (ofZ today) (timeValue s) then
          let daysToStart :=
            ceil (div (sub (timeValue s) (ofZ today)) (ofZ oneDay)) in
          lit "Inicia em " ++ toString hostToString daysToStart ++ dias daysToStart
        else
          if strictEq remainingDays (ofZ 0) then lit "Finaliza hoje"
          else lit "Faltam " ++ toString hostToString remainingDays
               ++ dias remainingDays
      else undefinedDates
  | _, _ => undefinedDates
  end.

End TimelineText.

(** *** Key facts and next steps *)

(** The state [addKeyFact] reads and writes: the stored facts and the two
    input fields. *)
Record KeyFactForm := {
  keyFacts : list KeyFact;
  newFactText : jstring;
  newFactLogo : jstring
}.

(** [addKeyFact]; [now] is [Date.now().toString()]. *)
Definition addKeyFact (now : jstring) (st : KeyFactForm) : KeyFactForm :=
  if negb (truthy (trim (newFactText st))) then st
  else
    {| keyFacts := keyFacts st ++
                   [{| kf_id := now; kf_text := newFactText st;
                       kf_logoUrl := Some (newFactLogo st) |}];
       newFactText := [];
       newFactLogo := [] |}.

Definition removeKeyFact (id : jstring) (facts : list KeyFact) : list KeyFact :=
  filter (fun f => negb (eqs (kf_id f) id)) facts.

Record NextStepForm := {
  nextSteps : list NextStep;
  newNextStepProject : jstring;
  newNextStepDesc : jstring
}.

Definition addNextStep (now : jstring) (st : NextStepForm) : NextStepForm :=
  if negb (truthy (trim (newNextStepProject st)))
     || negb (truthy (trim (newNextStepDesc st)))
  then st
  else
    {| nextSteps := nextSteps st ++
                    [{| ns_id := now; ns_project := newNextStepProject st;
                        ns_description := newNextStepDesc st |}];
       newNextStepProject := [];
       newNextStepDesc := [] |}.

Definition removeNextStep (id : jstring) (steps : list NextStep) : list NextStep :=
  filter (fun s => negb (eqs (ns_id s) id)) steps.

(** *** Slide navigation *)

(** [slides.length]: the cover, the key facts, the portfolio summary, one
    slide per detailed project and the next steps. *)
Definition slidesLength (detailedProjects : list DetailedProject) : Z :=
  3 + Z.of_nat (List.length detailedProjects) + 1.

(** The updaters [prev => Math.min(prev + 1, slides.length - 1)] and
    [prev => Math.max(prev - 1, 0)]. *)
Definition goToNextSlide (slidesLength : Z) (prev : Z) : Z :=
  Z.min (prev + 1) (slidesLength - 1).

Definition goToPrevSlide (prev : Z) : Z := Z.max (prev - 1) 0.

Inductive Key :=
| ArrowRight
| ArrowLeft
| Escape
| OtherKey.

(** [handleKeyDown], which is installed in slide mode only: the state is
    the slide-mode flag and the current slide index. *)
Definition handleKeyDown (slidesLength : Z) (k : Key) (st : bool * Z) : bool * Z :=
  let '(isSlideMode, index) := st in
  if negb isSlideMode then st
  else match k with
       | ArrowRight => (isSlideMode, goToNextSlide slidesLength index)
       | ArrowLeft => (isSlideMode, goToPrevSlide index)
       | Escape => (false, index)
       | OtherKey => st
       end.

End PresentationView.

(** ** The monitoring view *)

Module MonitoringView.
Import JS Types.

(** The [overallProgress] memo over [currentProject.steps]. *)
Definition overallProgress (steps : list DetailedProjectStep) : number :=
  let validSteps := filter (fun s => negb (eqs (trim (step_name s)) [])) steps in
  if (List.length validSteps =? 0)%nat then ofZ 0
  else
    let total := fold_left (fun acc step => add acc (step_perc step)) validSteps (ofZ 0) in
    div total (ofZ (Z.of_nat (List.length validSteps))).

(** *** Editing a detailed project *)

(** The edited project: a [DetailedProject] without its [id]. *)
Record Draft := {
  d_name : jstring;
  d_start : jstring;
  d_end : jstring;
  d_steps : list DetailedProjectStep;
  d_soldHours : BuHours;
  d_usedHours : BuHours
}.

Definition initialBuHours : BuHours :=
  {| infra := ofZ 0; sse := ofZ 0; ti := ofZ 0; aut := ofZ 0 |}.

(** U+00E7 is 231 and U+00E3 is 227. *)
Definition initialProjectState : Draft :=
  {| d_name := []; d_start := []; d_end := [];
     d_steps := [ {| step_name := lit "Planejamento"; step_perc := ofZ 0 |};
                  {| step_name := lit "Execu" ++ [231%N; 227%N] ++ lit "o";
                     step_perc := ofZ 0 |};
                  {| step_name := lit "Entrega"; step_perc := ofZ 0 |} ];
     d_soldHours := initialBuHours;
     d_usedHours := initialBuHours |}.

Definition withSteps (d : Draft) (steps : list DetailedProjectStep) : Draft :=
  {| d_name := d_name d; d_start := d_start d; d_end := d_end d;
     d_steps := steps;
     d_soldHours := d_soldHours d; d_usedHours := d_usedHours d |}.

(** The two edits of a step.  For [perc] the argument is [Number(value)],
    the number the host reads from the text of the input. *)
Inductive StepEdit :=
| EditName (value : jstring)
| EditPerc (value : number).

Fixpoint replaceAt {A} (i : nat) (f : A -> A) (l : list A) : list A :=
  match l, i with
  | [], _ => []
  | x :: r, O => f x :: r
  | x :: r, S j => x :: replaceAt j f r
  end.

(** [handleStepChange] for the index of an existing step.  For another
    index the assignment [newSteps[index] = ...] would extend the array
    with an element that is no step; the component passes only the
    indices of the steps it lists, and the model answers [None] there. *)
Definition handleStepChange (current : Draft) (index : nat) (edit : StepEdit)
  : option Draft :=
  if (index <? List.length (d_steps current))%nat then
    Some (withSteps current
      (replaceAt index
         (fun st =>
            match edit with
            | EditPerc value =>
                {| step_name := step_name st;
                   step_perc := max (ofZ 0) (min (ofZ 100) value) |}
            | EditName value =>
                {| step_name := value; step_perc := step_perc st |}
            end)
         (d_steps current)))
  else None.

Inductive HoursType :=
| T_soldHours
| T_usedHours.

Inductive Bu :=
| K_infra
| K_sse
| K_ti
| K_aut.

Definition getBu (h : BuHours) (bu : Bu) : number :=
  match bu with
  | K_infra => infra h
  | K_sse => sse h
  | K_ti => ti h
  | K_aut => aut h
  end.

Definition setBu (h : BuHours) (bu : Bu) (v : number) : BuHours :=
  match bu with
  | K_infra => {| infra := v; sse := sse h; ti := ti h; aut := aut h |}
  | K_sse => {| infra := infra h; sse := v; ti := ti h; aut := aut h |}
  | K_ti => {| infra := infra h; sse := sse h; ti := v; aut := aut h |}
  | K_aut => {| infra := infra h; sse := sse h; ti := ti h; aut := v |}
  end.

Definition getHours (d : Draft) (type : HoursType) : BuHours :=
  match type with
  | T_soldHours => d_soldHours d
  | T_usedHours => d_usedHours d
  end.

(** [handleHoursChange]; [value] is [Number(value)]. *)
Definition handleHoursChange (prev : Draft) (type : HoursType) (bu : Bu)
    (value : number) : Draft :=
  let numericValue := if ge value (ofZ 0) then value else ofZ 0 in
  match type with
  | T_soldHours =>
      {| d_name := d_name prev; d_start := d_start prev; d_end := d_end prev;
         d_steps := d_steps prev;
         d_soldHours := setBu (d_soldHours prev) bu numericValue;
         d_usedHours := d_usedHours prev |}
  | T_usedHours =>
      {| d_name := d_name prev; d_start := d_start prev; d_end := d_end prev;
         d_steps := d_steps prev;
         d_soldHours := d_soldHours prev;
         d_usedHours := setBu (d_usedHours prev) bu numericValue |}
  end.

Definition addStep (prev : Draft) : Draft :=
  withSteps prev
    (d_steps prev ++ [{| step_name := lit "Nova Etapa"; step_perc := ofZ 0 |}]).

(** [xs.filter((_, i) => i !== index)]. *)
Fixpoint dropAt {A} (index : nat) (l : list A) : list A :=
  match l, index with
  | [], _ => []
  | _ :: r, O => r
  | x :: r, S j => x :: dropAt j r
  end.

Definition removeStep (index : nat) (prev : Draft) : Draft :=
  withSteps prev (dropAt index (d_steps prev)).

Definition withId (d : Draft) (i : jstring) : DetailedProject :=
  {| id := i; name := d_name d; start := d_start d; end_ := d_end d;
     steps := d_steps d; soldHours := d_soldHours d;
     usedHours := d_usedHours d |}.

(** The alerts of [handleSave]: "O nome do projeto e obrigatorio." and
    "Projeto salvo!". *)
Inductive SaveAlert :=
| NameRequired
| Saved.

(** The state [handleSave] works on: the stored projects and the
    selected id, which is "new" for a project not saved yet. *)
Record Store := {
  projects : list DetailedProject;
  selectedProjectId : jstring
}.

(** [handleSave]; [now] is [Date.now().toString()]. *)
Definition handleSave (now : jstring) (currentProject : Draft) (st : Store)
  : Store * SaveAlert :=
  if negb (truthy (trim (d_name currentProject))) then (st, NameRequired)
  else if eqs (selectedProjectId st) (lit "new") then
    let newProject := withId currentProject now in
    ({| projects := projects st ++ [newProject];
        selectedProjectId := id newProject |}, Saved)
  else
    ({| projects :=
          map (fun p => if eqs (id p) (selectedProjectId st)
                        then withId currentProject (selectedProjectId st)
                        else p)
              (projects st);
        selectedProjectId := selectedProjectId st |}, Saved).

(** The effect run when the selection or the stored projects change: the
    draft it leaves in [currentProject].  A stored project is a typed
    [DetailedProject], so both hours structures are present and the
    fallbacks [project.soldHours || {...initialBuHours}] are not taken. *)
Definition selectProject (st : Store) (currentProject : Draft) : Draft :=
  if eqs (selectedProjectId st) (lit "new") then initialProjectState
  else
    match find (fun p => eqs (id p) (selectedProjectId st)) (projects st) with
    | Some project =>
        {| d_name := name project; d_start := start project;
           d_end := end_ project; d_steps := steps project;
           d_soldHours := soldHours project;
           d_usedHours := usedHours project |}
    | None => currentProject
    end.

End MonitoringView.

(** ** The risk-analysis prompt builder *)

Module GeminiService.
Import JS Types.

Definition totalHours (h : BuHours) : number :=
  add (add (add (infra h) (sse h)) (ti h)) (aut h).

(** The three values [generateDetailedProjectRiskAnalysis] computes
    before it builds the prompt. *)
Definition totalSold (project : DetailedProject) : number :=
  totalHours (soldHours project).
Definition totalUsed (project : DetailedProject) : number :=
  totalHours (usedHours project).
Definition overallProgress (project : DetailedProject) : number :=
  if (0 <? List.length (steps project))%nat
  then div (fold_left (fun acc s => add acc (step_perc s)) (steps project) (ofZ 0))
           (ofZ (Z.of_nat (List.length (steps project))))
  else ofZ 0.

End GeminiService.

(** ** The specification's wording

    Definitions that follow the specification's sentences, to compare the
    code with. *)

Module Spec.
Import JS Types.

(** The arithmetic mean of a list of numbers, 0 for the empty list. *)
Definition sum (xs : list number) : number := fold_right add (ofZ 0) xs.

Definition mean (xs : list number) : number :=
  match xs with
  | [] => ofZ 0
  | _ => div (sum xs) (ofZ (Z.of_nat (List.length xs)))
  end.

(** The arithmetic mean in the arithmetic of the machine: the numbers are
    added from the first to the last, and each sum and the quotient are
    rounded to binary64. *)
Fixpoint sumFrom (acc : number) (xs : list number) : number :=
  match xs with
  | [] => acc
  | x :: r => sumFrom (add64 acc x) r
  end.

Definition mean64 (xs : list number) : number :=
  match xs with
  | [] => ofZ 0
  | _ => div64 (sumFrom (ofZ 0) xs) (ofZ (Z.of_nat (List.length xs)))
  end.

(** A whole number of percent, from 0 to 100. *)
Definition wholePercent (x : number) : Prop :=
  exists z, x = ofZ z /\ (0 <= z <= 100)%Z.

(** The percentage values that are present (not [null]) in a collection
    of records. *)
Definition presentPercents (data : list Project) : list number :=
  flat_map (fun p => match perc p with Some x => [x] | None => [] end) data.

(** The same collection with every absent percentage read as 0. *)
Definition percentsOrZero (data : list Project) : list number :=
  map (fun p => match perc p with Some x => x | None => ofZ 0 end) data.

(** A percentage clamped to the interval from 0 to 100. *)
Definition clampPercent (q : Qc) : Qc :=
  if Qcltb q (Q2Qc (inject_Z 0)) then Q2Qc (inject_Z 0)
  else if Qcltb (Q2Qc (inject_Z 100)) q then Q2Qc (inject_Z 100)
  else q.

(** The elapsed fraction [(today - start) / (end - start)] as a
    percentage, for [start < end]. *)
Definition elapsedPercent (today start end_ : Z) : Qc :=
  Q2Qc (((today - start) * 100)%Z # Z.to_pos (end_ - start))%Q.

(** A number clamped to the interval from 0 to 100. *)
Definition clamp (x : number) : number :=
  if lt x (ofZ 0) then ofZ 0
  else if lt (ofZ 100) x then ofZ 100
  else x.

(** The elapsed fraction [(today - start) / (end - start)] as a
    percentage, in the arithmetic of the machine: the two differences,
    their quotient and its product by 100 are each rounded to binary64. *)
Definition elapsed64 (today start end_ : Z) : number :=
  mul64 (div64 (sub64 (ofZ today) (ofZ start))
               (sub64 (ofZ end_) (ofZ start)))
        (ofZ 100).

(** The hours-risk colours. *)
Definition exceeded : jstring := lit "#ef4444".
Definition atRisk : jstring := lit "#eab308".
Definition normal : jstring := lit "#f97316".

(** The canonical status buckets and the ordered prefix rules. *)
Inductive Bucket :=
| B_FINALIZADO
| B_EM_ANDAMENTO
| B_PARALIZADO
| B_NAO_INICIADO
| B_DEFAULT.

Definition Bucket_eqb (a b : Bucket) : bool :=
  match a, b with
  | B_FINALIZADO, B_FINALIZADO | B_EM_ANDAMENTO, B_EM_ANDAMENTO
  | B_PARALIZADO, B_PARALIZADO | B_NAO_INICIADO, B_NAO_INICIADO
  | B_DEFAULT, B_DEFAULT => true
  | _, _ => false
  end.

Definition rules : list (jstring * Bucket) :=
  [ (FINALIZADO, B_FINALIZADO); (EM_ANDAMENTO, B_EM_ANDAMENTO);
    (PARALIZADO, B_PARALIZADO); (NAO_INICIADO, B_NAO_INICIADO) ].

(** The bucket of a status text that is already normalized: the first
    rule whose label is a prefix of it. *)
Definition bucketOf (normalized : jstring) : Bucket :=
  match find (fun r => startsWith (fst r) normalized) rules with
  | Some r => snd r
  | None => B_DEFAULT
  end.

(** Normalized means trimmed, then upper-cased. *)
Definition normalize (s : jstring) : jstring := toUpperCase (trim s).

Definition classify (status : jstring) : Bucket := bucketOf (normalize status).

Definition chartColor (b : Bucket) : jstring :=
  match b with
  | B_FINALIZADO => lit "#22c55e"
  | B_EM_ANDAMENTO => lit "#3b82f6"
  | B_PARALIZADO => lit "#ef4444"
  | B_NAO_INICIADO => lit "#eab308"
  | B_DEFAULT => lit "#6b7280"
  end.

(** The number of records whose stored status falls in bucket [b]. *)
Definition countBucket (b : Bucket) (data : list Project) : nat :=
  List.length (filter (fun p => Bucket_eqb (classify (STATUS p)) b) data).

(** The percentage normalizer as worded: a trailing percent sign and the
    surrounding white space are stripped. *)
Definition stripTrailingPercent (s : jstring) : jstring :=
  let t := trim s in
  match rev t with
  | c :: r => if (c =? 37)%N then trim (rev r) else t
  | [] => t
  end.

Definition normalizePercent (v : option jstring) : option number :=
  match v with
  | None => None
  | Some s =>
      match stripTrailingPercent s with
      | [] => None
      | rest =>
          match parseFloat (replaceFirst 44%N [46%N] rest) with
          | NaN => None
          | num => Some num
          end
      end
  end.

(** The percentage normalizer as amended, after the removal of the first
    percent sign: the text is trimmed, nothing is read from an empty
    text, the first comma becomes a point and the number is read by
    [parseFloat]. *)
Definition readPercent (s : jstring) : option number :=
  match trim s with
  | [] => None
  | rest =>
      match parseFloat (replaceFirst 44%N [46%N] rest) with
      | NaN => None
      | num => Some num
      end
  end.

(** *** The CSV normalizer, step by step *)

(** The first element satisfying [f] and the elements after it. *)
Fixpoint breakAt {A} (f : A -> bool) (l : list A) : option (A * list A) :=
  match l with
  | [] => None
  | x :: r => if f x then Some (x, r) else breakAt f r
  end.

(** The header line of a text and the lines that follow it. *)
Definition headerAndRest (text : jstring) : option (jstring * list jstring) :=
  breakAt DashboardView.isHeaderLine (splitLines (DashboardView.stripBom text)).

(** The header tokens: split on the semicolon, each trimmed. *)
Definition headerTokens (h : jstring) : list jstring := map trim (split 59%N h).

(** The column names of the text: the tokens of its header line. *)
Definition headerNames (text : jstring) : list jstring :=
  match headerAndRest text with
  | Some (h, _) => headerTokens h
  | None => []
  end.

(** Whether the header of the text resolves a column named [name]: some
    header token equals the name, case-insensitively. *)
Definition resolves (text : jstring) (name : jstring) : bool :=
  existsb (fun tok => eqs (toLowerCase tok) (toLowerCase name)) (headerNames text).

(** The data lines: the lines after the header that are not separator
    noise. *)
Definition dataLines (text : jstring) : list jstring :=
  match headerAndRest text with
  | Some (_, rest) => filter DashboardView.notBlank rest
  | None => []
  end.

(** The column positions resolved from the header of the text. *)
Definition idxMapOf (text : jstring) : DashboardView.IdxMap :=
  match headerAndRest text with
  | Some (h, _) => DashboardView.mkIdxMap (headerTokens h)
  | None => DashboardView.mkIdxMap []
  end.

(** A data line is kept when its CLIENTE or its C.Custo cell is not
    empty after trimming. *)
Definition identified (idxMap : DashboardView.IdxMap) (line : jstring) : bool :=
  let cells := split 59%N line in
  truthy (DashboardView.cellOr cells (DashboardView.idx_cliente idxMap))
  || truthy (DashboardView.cellOr cells (DashboardView.idx_cCusto idxMap)).

(** The record built from a data line. *)
Definition recordOf (idxMap : DashboardView.IdxMap) (line : jstring) : Project :=
  let cells := split 59%N line in
  {| CLIENTE := DashboardView.cellOr cells (DashboardView.idx_cliente idxMap);
     TIPO_DE_PROJETO := DashboardView.cellOr cells (DashboardView.idx_tipoProjeto idxMap);
     TIPO_DE_PRODUTO := DashboardView.cellOr cells (DashboardView.idx_tipoProduto idxMap);
     BUs := DashboardView.cellOr cells (DashboardView.idx_bus idxMap);
     C_Custo := DashboardView.cellOr cells (DashboardView.idx_cCusto idxMap);
     STATUS := DashboardView.normalizeStatus
                 (DashboardView.cellOr cells (DashboardView.idx_status idxMap));
     perc := DashboardView.normalizePercent
               (if (-1 <? DashboardView.idx_perc idxMap)%Z
                then DashboardView.Str
                       (DashboardView.getCell cells (DashboardView.idx_perc idxMap))
                else DashboardView.Null) |}.

(** The normalizer of section 4.1: the records and the conditions it
    reports. *)
Definition normalizer (text : jstring) : list Project * list DashboardView.Alert :=
  match headerAndRest text with
  | None => ([], [DashboardView.NoHeaderLine])
  | Some (h, rest) =>
      match filter DashboardView.notBlank rest with
      | [] => ([], [DashboardView.EmptyOrHeaderOnly])
      | body =>
          let idxMap := DashboardView.mkIdxMap (headerTokens h) in
          if (DashboardView.idx_cliente idxMap =? -1)%Z
             && (DashboardView.idx_cCusto idxMap =? -1)%Z
          then ([], [DashboardView.NoIdentityColumn])
          else
            match map (recordOf idxMap) (filter (identified idxMap) body) with
            | [] => ([], [DashboardView.NoValidRows])
            | rows => (rows, [])
            end
      end
  end.

(** [sub] is a subsequence of [l]: it keeps some elements of [l], in the
    order of [l]. *)
Inductive subseq {A} : list A -> list A -> Prop :=
| subseq_nil : subseq [] []
| subseq_skip x sub l : subseq sub l -> subseq sub (x :: l)
| subseq_keep x sub l : subseq sub l -> subseq (x :: sub) (x :: l).

(** The filter choices for one field: the distinct non-empty values of the
    field over the collection, in ascending code-unit order. *)
Definition isChoiceList (projects : list Project) (field : Project -> jstring)
    (l : list jstring) : Prop :=
  StronglySorted (fun a b => leStr a b = true) l
  /\ NoDup l
  /\ forall x, In x l <-> x <> [] /\ exists p, In p projects /\ field p = x.

(** *** Notions used to state further properties *)

(** The cells joined by a separator. *)
Fixpoint join (sep : N) (cells : list jstring) : jstring :=
  match cells with
  | [] => []
  | [c] => c
  | c :: rest => c ++ sep :: join sep rest
  end.

(** The text with every line feed written as carriage return, line
    feed. *)
Definition toCRLF (text : jstring) : jstring :=
  flat_map (fun c => if (c =? 10)%N then [13%N; 10%N] else [c]) text.

(** The label under which a record is counted in a chart: its field, or
    "N/A" when the field is empty. *)
Definition labelOf (field : Project -> jstring) (p : Project) : jstring :=
  or_else (field p) (lit "N/A").

(** The number of records counted under a label. *)
Definition occurrences (field : Project -> jstring) (label : jstring)
    (data : list Project) : nat :=
  List.length (filter (fun p => eqs (labelOf field p) label) data).

(** The sum of the bars of a chart. *)
Definition chartTotal (chart : list ChartDatum) : nat :=
  fold_right (fun d acc => Projetos d + acc) 0 chart.

(** A number that is a percentage: finite, between 0 and 100. *)
Definition isPercentage (x : number) : Prop :=
  exists q, x = Fin q /\ (Q2Qc (inject_Z 0) <= q)%Qc /\ (q <= Q2Qc (inject_Z 100))%Qc.

(** A number of hours an edit can store: not NaN and not negative. *)
Definition isHours (x : number) : Prop := le (ofZ 0) x = true.

(** The whole days in a span of milliseconds, rounded up. *)
Definition daysUp (ms : Z) : Z := (- ((- ms) / PresentationView.oneDay))%Z.

(** A count of days as the timeline prints it. *)
Definition showDays (n : Z) : jstring :=
  digitsOf n ++ lit " dia" ++ (if (1 <? n)%Z then lit "s" else []).

(** A time value a valid [Date] can hold: at most 8.64e15 ms from the
    epoch. *)
Definition validTime (t : Z) : Prop := (- 8640000000000000 <= t <= 8640000000000000)%Z.

(** Reading a counter, counting a key, and adding up a counting object. *)
Definition valueOr0 (o : object nat) (k : jstring) : nat :=
  match get o k with Some v => v | None => 0 end.

Definition countKey (k : jstring) (ks : list jstring) : nat :=
  List.length (filter (fun x => eqs x k) ks).

Definition sumValues (o : object nat) : nat :=
  fold_right (fun e acc => snd e + acc) 0 o.

Definition isIndexed (e : jstring * nat) : bool :=
  match arrayIndex (fst e) with Some _ => true | None => false end.

(** The names a plain object inherits from [Object.prototype]
    (ECMAScript 2023, with Annex B.2.1).  Read from a counting object
    that has no property of its own under that name, such a key gives the
    inherited member and not [undefined]; the counting objects are
    modelled for the other keys. *)
(** Two drafts that differ at most in their steps. *)
Definition sameButSteps (a b : MonitoringView.Draft) : Prop :=
  MonitoringView.d_name a = MonitoringView.d_name b
  /\ MonitoringView.d_start a = MonitoringView.d_start b
  /\ MonitoringView.d_end a = MonitoringView.d_end b
  /\ MonitoringView.d_soldHours a = MonitoringView.d_soldHours b
  /\ MonitoringView.d_usedHours a = MonitoringView.d_usedHours b.

Definition inheritedNames : list jstring :=
  [ lit "constructor"; lit "hasOwnProperty"; lit "isPrototypeOf";
    lit "propertyIsEnumerable"; lit "toLocaleString"; lit "toString";
    lit "valueOf"; lit "__proto__"; lit "__defineGetter__";
    lit "__defineSetter__"; lit "__lookupGetter__"; lit "__lookupSetter__" ].

(** Records whose chart labels are keys of their own in the counting
    objects. *)
Definition plainLabels (data : list Project) : Prop :=
  Forall (fun p => ~ In (labelOf STATUS p) inheritedNames
                   /\ ~ In (labelOf BUs p) inheritedNames) data.

(** What a chart of the records by a field is: one bar per label, each
    bar counting the records under its label and coloured by its label,
    every record under some bar, and the bars adding up to the number of
    records. *)
Definition isChartOf (field : Project -> jstring) (colour : jstring -> jstring)
    (data : list Project) (chart : list ChartDatum) : Prop :=
  NoDup (map datum_name chart)
  /\ (forall d, In d chart ->
        Projetos d = occurrences field (datum_name d) data
        /\ 1 <= Projetos d
        /\ color d = colour (datum_name d))
  /\ (forall p, In p data ->
        exists d, In d chart /\ datum_name d = labelOf field p)
  /\ chartTotal chart = List.length data.

(** Steps whose percentages are all percentages. *)
Definition percentSteps (steps : list DetailedProjectStep) : Prop :=
  Forall (fun st => isPercentage (step_perc st)) steps.

(** Hours structures whose four buckets are all storable hours. *)
Definition hoursOk (h : BuHours) : Prop :=
  isHours (infra h) /\ isHours (sse h) /\ isHours (ti h) /\ isHours (aut h).

(** A slide index that points into a deck of [n] slides. *)
Definition inDeck (n i : Z) : Prop := (0 <= i <= n - 1)%Z.

End Spec.

(** ** Concrete inputs *)

Module Inputs.
Import JS Types.

(** The steps the monitoring view leaves out: an unnamed step at 100%
    next to a named one at 0%. *)
Definition unnamedStepProject : DetailedProject :=
  {| id := lit "1"; name := lit "P"; start := []; end_ := [];
     steps := [ {| step_name := []; step_perc := ofZ 100 |};
                {| step_name := lit "A"; step_perc := ofZ 0 |} ];
     soldHours := {| infra := ofZ 0; sse := ofZ 0; ti := ofZ 0; aut := ofZ 0 |};
     usedHours := {| infra := ofZ 0; sse := ofZ 0; ti := ofZ 0; aut := ofZ 0 |} |}.

(** The edits of the monitoring form that lead to it: on a new project
    named "P" without steps, two steps are added, the name of the first
    is cleared and its percentage set to 100, and the second is named
    "A". *)
Definition unnamedStepDraft : option MonitoringView.Draft :=
  let d0 := {| MonitoringView.d_name := lit "P";
               MonitoringView.d_start := []; MonitoringView.d_end := [];
               MonitoringView.d_steps := [];
               MonitoringView.d_soldHours := MonitoringView.initialBuHours;
               MonitoringView.d_usedHours := MonitoringView.initialBuHours |} in
  let d2 := MonitoringView.addStep (MonitoringView.addStep d0) in
  match MonitoringView.handleStepChange d2 0 (MonitoringView.EditName []) with
  | Some d3 =>
      match MonitoringView.handleStepChange d3 0
              (MonitoringView.EditPerc (ofZ 100)) with
      | Some d4 =>
          MonitoringView.handleStepChange d4 1 (MonitoringView.EditName (lit "A"))
      | None => None
      end
  | None => None
  end.

End Inputs.

(** * Properties *)

Import JS Types.

(** ** Facts about numbers *)

Section NumberFacts.

Lemma Q2Qc_plus (a b : Q) : (Q2Qc a + Q2Qc b)%Qc = Q2Qc (a + b)%Q.
Proof.
  unfold Qcplus. apply Q2Qc_eq_iff. simpl. now rewrite !Qred_correct.
Qed.

Lemma Q2Qc_opp (a : Q) : (- Q2Qc a)%Qc = Q2Qc (- a)%Q.
Proof.
  unfold Qcopp. apply Q2Qc_eq_iff. simpl. now rewrite !Qred_correct.
Qed.

Lemma Q2Qc_minus (a b : Q) : (Q2Qc a - Q2Qc b)%Qc = Q2Qc (a - b)%Q.
Proof.
  unfold Qcminus. now rewrite Q2Qc_opp, Q2Qc_plus.
Qed.

Lemma Q2Qc_mult (a b : Q) : (Q2Qc a * Q2Qc b)%Qc = Q2Qc (a * b)%Q.
Proof.
  unfold Qcmult. apply Q2Qc_eq_iff. simpl. now rewrite !Qred_correct.
Qed.

Lemma Q2Qc_inv (a : Q) : (/ Q2Qc a)%Qc = Q2Qc (/ a)%Q.
Proof.
  unfold Qcinv. apply Q2Qc_eq_iff. simpl. now rewrite !Qred_correct.
Qed.

Lemma Q2Qc_div (a b : Q) : (Q2Qc a / Q2Qc b)%Qc = Q2Qc (a / b)%Q.
Proof.
  unfold Qcdiv. now rewrite Q2Qc_inv, Q2Qc_mult.
Qed.

Lemma Q2Qc_compare (a b : Q) : (Q2Qc a ?= Q2Qc b)%Qc = (a ?= b)%Q.
Proof.
  unfold Qccompare. simpl. symmetry. apply Qred_compare.
Qed.

Lemma inject_Z_compare (a b : Z) : (inject_Z a ?= inject_Z b)%Q = (a ?= b)%Z.
Proof.
  unfold Qcompare. simpl. now rewrite !Z.mul_1_r.
Qed.

Lemma Qcltb_Z (a b : Z) :
  Qcltb (Q2Qc (inject_Z a)) (Q2Qc (inject_Z b)) = (a <? b)%Z.
Proof.
  unfold Qcltb, Z.ltb. now rewrite Q2Qc_compare, inject_Z_compare.
Qed.

Lemma Qcleb_Z (a b : Z) :
  Qcleb (Q2Qc (inject_Z a)) (Q2Qc (inject_Z b)) = (a <=? b)%Z.
Proof.
  unfold Qcleb, Z.leb. now rewrite Q2Qc_compare, inject_Z_compare.
Qed.

Lemma Qceqb_Z (a b : Z) :
  Qceqb (Q2Qc (inject_Z a)) (Q2Qc (inject_Z b)) = (a =? b)%Z.
Proof.
  unfold Qceqb. rewrite Q2Qc_compare, inject_Z_compare.
  destruct (Z.compare_spec a b); destruct (Z.eqb_spec a b); trivial; lia.
Qed.

Lemma Qcltb_lt (a b : Qc) : Qcltb a b = true <-> (a < b)%Qc.
Proof.
  unfold Qcltb. rewrite Qclt_alt. destruct (a ?= b)%Qc; split; congruence.
Qed.

Lemma Qcleb_le (a b : Qc) : Qcleb a b = true <-> (a <= b)%Qc.
Proof.
  unfold Qcleb. rewrite Qcle_alt. destruct (a ?= b)%Qc; split; congruence.
Qed.

Lemma Qcltb_false (a b : Qc) : Qcltb a b = false <-> (b <= a)%Qc.
Proof.
  split; intro H.
  - apply Qcnot_lt_le. intro L. apply Qcltb_lt in L. congruence.
  - destruct (Qcltb a b) eqn:E; trivial.
    apply Qcltb_lt in E. exfalso. revert E. now apply Qcle_not_lt.
Qed.

Lemma sub_ofZ (a b : Z) : sub (ofZ a) (ofZ b) = ofZ (a - b).
Proof.
  unfold sub, ofZ. f_equal. rewrite Q2Qc_minus. apply Q2Qc_eq_iff.
  unfold Zminus. now rewrite inject_Z_plus, inject_Z_opp.
Qed.

Lemma add_ofZ (a b : Z) : add (ofZ a) (ofZ b) = ofZ (a + b).
Proof.
  unfold add, ofZ. f_equal. apply Qc_is_canon.
  unfold Qcplus. cbn [this Q2Qc]. rewrite !Qred_correct.
  now rewrite inject_Z_plus.
Qed.

Lemma lt_ofZ (a b : Z) : lt (ofZ a) (ofZ b) = (a <? b)%Z.
Proof. apply Qcltb_Z. Qed.

Lemma le_ofZ (a b : Z) : le (ofZ a) (ofZ b) = (a <=? b)%Z.
Proof. apply Qcleb_Z. Qed.

Lemma div_ofZ (a b : Z) :
  (0 < b)%Z -> div (ofZ a) (ofZ b) = Fin (Q2Qc (a # Z.to_pos b)%Q).
Proof.
  intro Hb. unfold div, ofZ.
  change (Q2Qc 0) with (Q2Qc (inject_Z 0)). rewrite Qceqb_Z.
  destruct (Z.eqb_spec b 0) as [->|_]; [lia|].
  f_equal. rewrite Q2Qc_div. apply Q2Qc_eq_iff.
  rewrite Qmake_Qdiv. now rewrite Z2Pos.id.
Qed.

Lemma add_comm (x y : number) : add x y = add y x.
Proof.
  destruct x, y; simpl; trivial. now rewrite Qcplus_comm.
Qed.

Lemma add_assoc (x y z : number) : add x (add y z) = add (add x y) z.
Proof.
  destruct x, y, z; simpl; trivial. now rewrite Qcplus_assoc.
Qed.

Lemma add_0_l (x : number) : add (ofZ 0) x = x.
Proof.
  destruct x; simpl; trivial. f_equal. apply Qcplus_0_l.
Qed.

Lemma add_0_r (x : number) : add x (ofZ 0) = x.
Proof. rewrite add_comm. apply add_0_l. Qed.

(** The [reduce] of the code, a left fold from 0, is the sum. *)
Lemma fold_left_add (xs : list number) (a : number) :
  fold_left add xs a = add a (Spec.sum xs).
Proof.
  revert a. induction xs as [|x xs IH]; intro a; simpl.
  - now rewrite add_0_r.
  - rewrite IH. now rewrite add_assoc.
Qed.

Lemma reduce_sum (xs : list number) : fold_left add xs (ofZ 0) = Spec.sum xs.
Proof. rewrite fold_left_add. apply add_0_l. Qed.

Lemma number_eqb_eq (x y : number) : number_eqb x y = true -> x = y.
Proof.
  destruct x, y; simpl; try congruence.
  unfold Qceqb. intro H. f_equal. apply Qceq_alt.
  destruct (q ?= q0)%Qc; congruence.
Qed.

Lemma option_number_eqb_eq (x y : option number) :
  option_number_eqb x y = true -> x = y.
Proof.
  destruct x, y; simpl; try congruence.
  intro H. f_equal. now apply number_eqb_eq.
Qed.

Lemma this_ofZ (z : Z) : this (Q2Qc (inject_Z z)) = inject_Z z.
Proof.
  unfold Q2Qc. cbn [this]. apply Qred_identity. cbn. apply Z.gcd_1_r.
Qed.

Lemma this_0 : this (Q2Qc (inject_Z 0)) = 0%Q.
Proof. reflexivity. Qed.

Lemma this_100 : this (Q2Qc (inject_Z 100)) = inject_Z 100.
Proof. apply this_ofZ. Qed.

Lemma isPercentage_bounds (x : number) :
  Spec.isPercentage x <->
  exists q, x = Fin q /\ (0 <= this q)%Q /\ (this q <= inject_Z 100)%Q.
Proof.
  unfold Spec.isPercentage, Qcle. rewrite this_0, this_100. reflexivity.
Qed.

Lemma clampPercent_bounds (q : Qc) : Spec.isPercentage (Fin (Spec.clampPercent q)).
Proof.
  exists (Spec.clampPercent q). split; [reflexivity|].
  unfold Spec.clampPercent.
  destruct (Qcltb q (Q2Qc (inject_Z 0))) eqn:H0.
  - split; [apply Qcle_refl|]. apply Qcleb_le. now rewrite Qcleb_Z.
  - destruct (Qcltb (Q2Qc (inject_Z 100)) q) eqn:H100.
    + split; [|apply Qcle_refl]. apply Qcleb_le. now rewrite Qcleb_Z.
    + split; now apply Qcltb_false.
Qed.

(** [Math.max(0, Math.min(100, x))] is the clamp of the specification. *)
Lemma max_min_clamp (x : Qc) :
  max (ofZ 0) (min (ofZ 100) (Fin x)) = Fin (Spec.clampPercent x).
Proof.
  assert (L : (Q2Qc (inject_Z 0) < Q2Qc (inject_Z 100))%Qc)
    by (apply Qcltb_lt; now rewrite Qcltb_Z).
  unfold Spec.clampPercent, min, max, ofZ, lt.
  destruct (Qcltb x (Q2Qc (inject_Z 100))) eqn:H100.
  - destruct (Qcltb x (Q2Qc (inject_Z 0))) eqn:H0.
    + destruct (Qcltb (Q2Qc (inject_Z 0)) x) eqn:Hpos; trivial.
      apply Qcltb_lt in Hpos, H0. exfalso.
      apply (Qclt_not_le _ _ Hpos). now apply Qclt_le_weak.
    + destruct (Qcltb (Q2Qc (inject_Z 100)) x) eqn:Hgt.
      * apply Qcltb_lt in H100, Hgt. exfalso.
        apply (Qclt_not_le _ _ Hgt). now apply Qclt_le_weak.
      * destruct (Qcltb (Q2Qc (inject_Z 0)) x) eqn:Hpos; trivial.
        apply Qcltb_false in Hpos, H0. f_equal. now apply Qcle_antisym.
  - rewrite Qcltb_Z. cbn [Z.ltb Z.compare Pos.compare Pos.compare_cont].
    apply Qcltb_false in H100.
    destruct (Qcltb x (Q2Qc (inject_Z 0))) eqn:H0.
    + apply Qcltb_lt in H0. exfalso.
      apply (Qclt_not_le _ _ (Qclt_trans _ _ _ H0 L)). exact H100.
    + destruct (Qcltb (Q2Qc (inject_Z 100)) x) eqn:Hgt; trivial.
      apply Qcltb_false in Hgt. f_equal. now apply Qcle_antisym.
Qed.

(** What the clamp [Math.max(0, Math.min(100, x))] gives. *)
Lemma clamp_stores_percentage (value : number) :
  (value <> NaN -> Spec.isPercentage (max (ofZ 0) (min (ofZ 100) value)))
  /\ (value = NaN -> max (ofZ 0) (min (ofZ 100) value) = NaN).
Proof.
  split.
  - intro H. destruct value as [q| | |]; [| | |congruence].
    + rewrite max_min_clamp. apply clampPercent_bounds.
    + replace (max (ofZ 0) (min (ofZ 100) PInf)) with (Fin (Spec.clampPercent (Q2Qc (inject_Z 100))));
        [apply clampPercent_bounds|].
      apply number_eqb_eq. vm_compute. reflexivity.
    + replace (max (ofZ 0) (min (ofZ 100) NInf)) with (Fin (Spec.clampPercent (Q2Qc (inject_Z 0))));
        [apply clampPercent_bounds|].
      apply number_eqb_eq. vm_compute. reflexivity.
  - intros ->. reflexivity.
Qed.

Lemma this_plus (a b : Qc) : (this (a + b)%Qc == this a + this b)%Q.
Proof. unfold Qcplus. cbn [this Q2Qc]. apply Qred_correct. Qed.

Lemma this_div (a b : Qc) : (this (a / b)%Qc == this a / this b)%Q.
Proof.
  unfold Qcdiv, Qcmult, Qcinv. cbn [this Q2Qc].
  now rewrite !Qred_correct.
Qed.

End NumberFacts.

(** ** Facts about trimming *)

Section TextFacts.

Lemma dropWhile_all (f : N -> bool) (w r : jstring) :
  forallb f w = true -> dropWhile f (w ++ r) = dropWhile f r.
Proof.
  induction w as [|x w IH]; [reflexivity|].
  simpl. intro H. apply andb_true_iff in H. destruct H as [Hx Hw].
  rewrite Hx. now apply IH.
Qed.

Lemma forallb_rev (f : N -> bool) (w : jstring) :
  forallb f w = true -> forallb f (rev w) = true.
Proof.
  rewrite !forallb_forall. intros H x Hx. apply H. now apply in_rev.
Qed.

Lemma trimEnd_app_ws (x w : jstring) :
  forallb isWhiteSpace w = true -> trimEnd (x ++ w) = trimEnd x.
Proof.
  intro H. unfold trimEnd. rewrite rev_app_distr.
  rewrite dropWhile_all by now apply forallb_rev. reflexivity.
Qed.

Lemma dropWhile_suffix (f : N -> bool) (s : jstring) :
  exists pre, s = pre ++ dropWhile f s.
Proof.
  induction s as [|x s [pre IH]]; [now exists []|].
  simpl. destruct (f x).
  - exists (x :: pre). simpl. now rewrite <- IH.
  - now exists [].
Qed.

End TextFacts.

(** ** Binary64 rounding *)

Section Binary64.

Lemma pow2_pos (k : Z) : (0 < pow2 k)%Q.
Proof. apply Qpower_0_lt. reflexivity. Qed.

Lemma pow2_add (a b : Z) : (pow2 (a + b) == pow2 a * pow2 b)%Q.
Proof. apply Qpower_plus. discriminate. Qed.

Lemma pow2_succ (k : Z) : (pow2 (k + 1) == 2 * pow2 k)%Q.
Proof. rewrite pow2_add. change (pow2 1) with 2%Q. ring. Qed.

Lemma pow2_le (a b : Z) : (a <= b)%Z -> (pow2 a <= pow2 b)%Q.
Proof.
  intro H. apply Qpower_le_compat_l; [exact H|]. discriminate.
Qed.

Lemma pow2_lt (a b : Z) : (a < b)%Z -> (pow2 a < pow2 b)%Q.
Proof.
  intro H. apply Qpower_lt_compat_l; [exact H|]. reflexivity.
Qed.

Lemma pow2_Z (n : Z) : (0 <= n)%Z -> (pow2 n == inject_Z (2 ^ n))%Q.
Proof. intro H. symmetry. now apply Zpower_Qpower. Qed.

Lemma pow2_lt_inv (a b : Z) : (pow2 a < pow2 b)%Q -> (a < b)%Z.
Proof.
  intro H. destruct (Z.lt_ge_cases a b) as [L|G]; [exact L|].
  apply pow2_le in G. exfalso. apply (Qlt_irrefl (pow2 a)).
  eapply Qlt_le_trans; eassumption.
Qed.

(** Division by a positive number, as cross multiplication. *)
Lemma Qdiv_le_iff (x y z : Q) : (0 < y)%Q -> (x / y <= z <-> x <= z * y)%Q.
Proof.
  intro H. split; intro L.
  - setoid_replace x with (x / y * y)%Q
      by (field; intro E; rewrite E in H; discriminate).
    apply Qmult_le_compat_r; [exact L|now apply Qlt_le_weak].
  - now apply Qle_shift_div_r.
Qed.

Lemma Qdiv_ge_iff (x y z : Q) : (0 < y)%Q -> (z <= x / y <-> z * y <= x)%Q.
Proof.
  intro H. split; intro L.
  - setoid_replace x with (x / y * y)%Q by (field; intro E; rewrite E in H; discriminate).
    apply Qmult_le_compat_r; [exact L|now apply Qlt_le_weak].
  - now apply Qle_shift_div_l.
Qed.

Lemma Qdiv_lt_iff (x y z : Q) : (0 < y)%Q -> (x / y < z <-> x < z * y)%Q.
Proof.
  intro H. split; intro L.
  - apply Qnot_le_lt. intro G. apply (Qdiv_ge_iff x z H) in G.
    exact (Qlt_not_le _ _ L G).
  - now apply Qlt_shift_div_r.
Qed.

Lemma ilog2_spec (q : Q) :
  (0 < q)%Q -> (pow2 (ilog2 q) <= q /\ q < pow2 (ilog2 q + 1))%Q.
Proof.
  intro Hq. destruct q as [a b]. unfold ilog2. cbn [Qnum Qden].
  assert (Ha : (0 < a)%Z) by (unfold Qlt in Hq; simpl in Hq; lia).
  set (la := Z.log2 a). set (lb := Z.log2 (Zpos b)).
  destruct (Z.log2_spec a Ha) as [A1 A2]. fold la in A1, A2.
  destruct (Z.log2_spec (Zpos b) ltac:(lia)) as [B1 B2]. fold lb in B1, B2.
  assert (La : (0 <= la)%Z) by apply Z.log2_nonneg.
  assert (Lb : (0 <= lb)%Z) by apply Z.log2_nonneg.
  assert (PA := pow2_Z La). assert (PB := pow2_Z Lb).
  assert (PA1 : (pow2 la <= inject_Z a)%Q)
    by (rewrite PA; rewrite <- Zle_Qle; exact A1).
  assert (PA2 : (inject_Z a < 2 * pow2 la)%Q).
  { rewrite <- pow2_succ, pow2_Z by lia. rewrite <- Zlt_Qlt.
    now replace (la + 1)%Z with (Z.succ la) by lia. }
  assert (PB1 : (pow2 lb <= inject_Z (Zpos b))%Q)
    by (rewrite PB; rewrite <- Zle_Qle; exact B1).
  assert (PB2 : (inject_Z (Zpos b) < 2 * pow2 lb)%Q).
  { rewrite <- pow2_succ, pow2_Z by lia. rewrite <- Zlt_Qlt.
    now replace (lb + 1)%Z with (Z.succ lb) by lia. }
  assert (Pa := pow2_pos la). assert (Pb := pow2_pos lb).
  assert (E : (a # b == inject_Z a / inject_Z (Zpos b))%Q) by apply Qmake_Qdiv.
  assert (Bp : (0 < inject_Z (Zpos b))%Q) by reflexivity.
  assert (K : (pow2 (la - lb) * pow2 lb == pow2 la)%Q).
  { rewrite <- pow2_add. now replace (la - lb + lb)%Z with la by lia. }
  assert (Pk := pow2_pos (la - lb)).
  destruct (Qle_bool (pow2 (la - lb)) (a # b)) eqn:C.
  - apply Qle_bool_iff in C. split; [exact C|].
    rewrite pow2_succ, E. apply Qdiv_lt_iff; [exact Bp|]. nra.
  - assert (C' : (a # b < pow2 (la - lb))%Q).
    { apply Qnot_le_lt. intro X. apply Qle_bool_iff in X. congruence. }
    replace (la - lb - 1 + 1)%Z with (la - lb)%Z by lia.
    split; [|exact C'].
    assert (S : (pow2 (la - lb) == 2 * pow2 (la - lb - 1))%Q).
    { rewrite <- pow2_succ. now replace (la - lb - 1 + 1)%Z with (la - lb)%Z by lia. }
    rewrite E. apply Qdiv_ge_iff; [exact Bp|]. nra.
Qed.

Lemma ilog2_unique (q : Q) (e : Z) :
  (pow2 e <= q)%Q -> (q < pow2 (e + 1))%Q -> ilog2 q = e.
Proof.
  intros H1 H2.
  assert (Hq : (0 < q)%Q) by (eapply Qlt_le_trans; [apply pow2_pos|exact H1]).
  destruct (ilog2_spec Hq) as [S1 S2].
  assert (L1 : (ilog2 q < e + 1)%Z)
    by (apply pow2_lt_inv; eapply Qle_lt_trans; eassumption).
  assert (L2 : (e < ilog2 q + 1)%Z)
    by (apply pow2_lt_inv; eapply Qle_lt_trans; eassumption).
  lia.
Qed.

Lemma ilog2_mono (a b : Q) : (0 < a)%Q -> (a <= b)%Q -> (ilog2 a <= ilog2 b)%Z.
Proof.
  intros Ha Hab.
  assert (Hb : (0 < b)%Q) by (eapply Qlt_le_trans; eassumption).
  destruct (ilog2_spec Ha) as [A1 A2]. destruct (ilog2_spec Hb) as [B1 B2].
  assert (L : (ilog2 a < ilog2 b + 1)%Z).
  { apply pow2_lt_inv. eapply Qle_lt_trans; [exact A1|].
    eapply Qle_lt_trans; eassumption. }
  lia.
Qed.

(** *** Rounding to the nearest integer, ties to even *)

Lemma roundEven_cases (x : Q) :
  let f := Qfloor x in
  (inject_Z f <= x)%Q /\ (x < inject_Z f + 1)%Q
  /\ ((roundEven x = f /\ (x - inject_Z f <= 1 # 2)%Q
       /\ ((x - inject_Z f == 1 # 2)%Q -> Z.even f = true))
      \/ (roundEven x = (f + 1)%Z /\ (1 # 2 <= x - inject_Z f)%Q
          /\ ((x - inject_Z f == 1 # 2)%Q -> Z.even f = false))).
Proof.
  intro f. split; [apply Qfloor_le|]. split.
  { pose proof (Qlt_floor x) as H. rewrite inject_Z_plus in H. exact H. }
  unfold roundEven. fold f.
  destruct (Qcompare_spec (x - inject_Z f) (1 # 2)) as [E|L|G].
  - destruct (Z.even f) eqn:Ev.
    + left. split; [reflexivity|]. split; [rewrite E; apply Qle_refl|trivial].
    + right. split; [reflexivity|]. split; [rewrite E; apply Qle_refl|trivial].
  - left. split; [reflexivity|]. split; [now apply Qlt_le_weak|].
    intro E. rewrite E in L. discriminate.
  - right. split; [reflexivity|]. split; [now apply Qlt_le_weak|].
    intro E. rewrite E in G. discriminate.
Qed.

Lemma roundEven_Z (z : Z) : roundEven (inject_Z z) = z.
Proof.
  unfold roundEven. rewrite Qfloor_Z.
  assert (Z0 : (inject_Z z - inject_Z z == 0)%Q) by ring.
  destruct (Qcompare_spec (inject_Z z - inject_Z z) (1 # 2)) as [E|L|G];
    [|reflexivity|]; exfalso.
  - rewrite Z0 in E. discriminate.
  - rewrite Z0 in G. discriminate.
Qed.

Lemma roundEven_mono (x y : Q) : (x <= y)%Q -> (roundEven x <= roundEven y)%Z.
Proof.
  intro H. pose proof (Qfloor_resp_le _ _ H) as F.
  destruct (roundEven_cases x) as [X1 [X2 X]].
  destruct (roundEven_cases y) as [Y1 [Y2 Y]].
  destruct (Z.eq_dec (Qfloor x) (Qfloor y)) as [E|NE].
  - rewrite E in *.
    destruct X as [[-> [Xa Xb]]|[-> [Xa Xb]]], Y as [[-> [Ya Yb]]|[-> [Ya Yb]]];
      try lia.
    exfalso.
    assert (Ex : (x - inject_Z (Qfloor y) == 1 # 2)%Q) by lra.
    assert (Ey : (y - inject_Z (Qfloor y) == 1 # 2)%Q) by lra.
    specialize (Xb Ex). specialize (Yb Ey). congruence.
  - assert (L : (Qfloor x + 1 <= Qfloor y)%Z) by lia.
    destruct X as [[-> _]|[-> _]], Y as [[-> _]|[-> _]]; lia.
Qed.

Lemma roundEven_ge (x : Q) (z : Z) : (inject_Z z <= x)%Q -> (z <= roundEven x)%Z.
Proof. intro H. rewrite <- (roundEven_Z z). now apply roundEven_mono. Qed.

Lemma roundEven_le (x : Q) (z : Z) : (x <= inject_Z z)%Q -> (roundEven x <= z)%Z.
Proof. intro H. rewrite <- (roundEven_Z z). now apply roundEven_mono. Qed.

Lemma roundEven_compat (x y : Q) : (x == y)%Q -> roundEven x = roundEven y.
Proof.
  intro E. apply Z.le_antisymm; apply roundEven_mono; rewrite E; apply Qle_refl.
Qed.

Lemma roundEven_error (x : Q) :
  (inject_Z (roundEven x) - x <= 1 # 2)%Q /\ (x - inject_Z (roundEven x) <= 1 # 2)%Q.
Proof.
  destruct (roundEven_cases x) as [X1 [X2 [[-> [A _]]|[-> [A _]]]]].
  - split; lra.
  - rewrite inject_Z_plus. change (inject_Z 1) with 1%Q. split; lra.
Qed.

(** *** The nearest binary64 value of a positive rational *)

Lemma nearest64_grid (q : Q) : nearest64 q = grid (Z.max (ilog2 q) (-1022)) q.
Proof. reflexivity. Qed.

Lemma pow2_split (e : Z) (k : Z) :
  (0 <= k)%Z -> (inject_Z (2 ^ k) * pow2 (e - k) == pow2 e)%Q.
Proof.
  intro H. pose proof (pow2_Z H) as P. rewrite <- P, <- pow2_add.
  now replace (k + (e - k))%Z with e by lia.
Qed.

Lemma grid_mono (e : Z) (a b : Q) : (a <= b)%Q -> (grid e a <= grid e b)%Q.
Proof.
  intro H. unfold grid. pose proof (pow2_pos (e - 52)) as U.
  apply Qmult_le_compat_r; [|now apply Qlt_le_weak].
  rewrite <- Zle_Qle. apply roundEven_mono.
  apply Qdiv_le_iff; [exact U|].
  setoid_replace (b / pow2 (e - 52) * pow2 (e - 52))%Q with b
    by (field; intro E; rewrite E in U; discriminate).
  exact H.
Qed.

Lemma grid_upper (e : Z) (q : Q) :
  (q <= pow2 (e + 1))%Q -> (grid e q <= pow2 (e + 1))%Q.
Proof.
  intro H. unfold grid. pose proof (pow2_pos (e - 52)) as U.
  pose proof (@pow2_split (e + 1) 53 ltac:(lia)) as P.
  replace (e + 1 - 53)%Z with (e - 52)%Z in P by lia.
  rewrite <- P.
  apply Qmult_le_compat_r; [|now apply Qlt_le_weak].
  rewrite <- Zle_Qle. apply roundEven_le.
  apply Qdiv_le_iff; [exact U|].
  rewrite P. exact H.
Qed.

Lemma grid_lower (e : Z) (q : Q) :
  (pow2 e <= q)%Q -> (pow2 e <= grid e q)%Q.
Proof.
  intro H. unfold grid. pose proof (pow2_pos (e - 52)) as U.
  pose proof (@pow2_split e 52 ltac:(lia)) as P.
  rewrite <- P at 1.
  apply Qmult_le_compat_r; [|now apply Qlt_le_weak].
  rewrite <- Zle_Qle. apply roundEven_ge.
  apply Qdiv_ge_iff; [exact U|].
  rewrite P. exact H.
Qed.

Lemma grid_nonneg (e : Z) (q : Q) : (0 <= q)%Q -> (0 <= grid e q)%Q.
Proof.
  intro H. unfold grid. pose proof (pow2_pos (e - 52)) as U.
  apply Qmult_le_0_compat; [|now apply Qlt_le_weak].
  change 0%Q with (inject_Z 0). rewrite <- Zle_Qle. apply roundEven_ge.
  change (inject_Z 0) with 0%Q. apply Qdiv_ge_iff; [exact U|]. lra.
Qed.

Lemma nearest64_mono (a b : Q) :
  (0 < a)%Q -> (a <= b)%Q -> (nearest64 a <= nearest64 b)%Q.
Proof.
  intros Ha Hab.
  assert (Hb : (0 < b)%Q) by (eapply Qlt_le_trans; eassumption).
  pose proof (ilog2_mono Ha Hab) as L.
  destruct (ilog2_spec Ha) as [A1 A2]. destruct (ilog2_spec Hb) as [B1 B2].
  rewrite !nearest64_grid.
  set (ea := Z.max (ilog2 a) (-1022)). set (eb := Z.max (ilog2 b) (-1022)).
  destruct (Z.eq_dec ea eb) as [E|NE].
  - rewrite E. now apply grid_mono.
  - assert (Lt : (ea < eb)%Z) by lia.
    assert (Eb : eb = ilog2 b) by lia.
    apply (Qle_trans _ (pow2 (ea + 1))).
    + apply grid_upper. apply Qlt_le_weak. eapply Qlt_le_trans; [exact A2|].
      apply pow2_le. lia.
    + apply (Qle_trans _ (pow2 eb)); [apply pow2_le; lia|].
      apply grid_lower. now rewrite Eb.
Qed.

Lemma nearest64_nonneg (q : Q) : (0 <= q)%Q -> (0 <= nearest64 q)%Q.
Proof. intro H. rewrite nearest64_grid. now apply grid_nonneg. Qed.

(** A value on the grid of its own binade is left as it is. *)
Lemma nearest64_exact (q : Q) (n : Z) :
  (0 < q)%Q ->
  (q == inject_Z n * pow2 (Z.max (ilog2 q) (-1022) - 52))%Q ->
  (nearest64 q == q)%Q.
Proof.
  intros Hq E. rewrite nearest64_grid. unfold grid.
  set (u := pow2 (Z.max (ilog2 q) (-1022) - 52)) in *.
  assert (U : (0 < u)%Q) by apply pow2_pos.
  assert (D : (q / u == inject_Z n)%Q).
  { rewrite E. field. intro X. rewrite X in U. discriminate. }
  rewrite (roundEven_compat D), roundEven_Z. now rewrite E.
Qed.

Lemma nearest64_Z (z : Z) :
  (0 < z <= 2 ^ 53)%Z -> (nearest64 (inject_Z z) == inject_Z z)%Q.
Proof.
  intros [Hz Hm].
  assert (Hq : (0 < inject_Z z)%Q) by (change 0%Q with (inject_Z 0); now rewrite <- Zlt_Qlt).
  destruct (ilog2_spec Hq) as [S1 S2].
  set (e := ilog2 (inject_Z z)) in *.
  assert (E0 : (0 <= e)%Z).
  { assert (X : (0 < e + 1)%Z); [|lia]. apply pow2_lt_inv.
    eapply Qle_lt_trans; [|exact S2].
    change (pow2 0) with (inject_Z 1). rewrite <- Zle_Qle. lia. }
  assert (E1 : (e <= 53)%Z).
  { assert (X : (e < 54)%Z); [|lia]. apply pow2_lt_inv.
    eapply Qle_lt_trans; [exact S1|].
    rewrite (@pow2_Z 54) by lia. rewrite <- Zlt_Qlt. lia. }
  destruct (Z.eq_dec e 53) as [E53|NE].
  - assert (Z53 : z = (2 ^ 53)%Z).
    { rewrite E53, (@pow2_Z 53) in S1 by lia. rewrite <- Zle_Qle in S1. lia. }
    apply (@nearest64_exact _ (2 ^ 52)); [exact Hq|].
    fold e. rewrite E53, Z53. reflexivity.
  - apply (@nearest64_exact _ (z * 2 ^ (52 - e))); [exact Hq|].
    fold e. replace (Z.max e (-1022)) with e by lia.
    rewrite inject_Z_mult, <- (@pow2_Z (52 - e)) by lia.
    rewrite <- Qmult_assoc, <- pow2_add.
    replace (52 - e + (e - 52))%Z with 0%Z by lia.
    change (pow2 0) with 1%Q. ring.
Qed.

(** The rounding error is at most half a unit in the last place. *)
Lemma nearest64_error (q : Q) :
  let u := pow2 (Z.max (ilog2 q) (-1022) - 52) in
  (nearest64 q - q <= (1 # 2) * u)%Q /\ (q - nearest64 q <= (1 # 2) * u)%Q.
Proof.
  intro u. rewrite nearest64_grid. unfold grid. fold u.
  assert (U : (0 < u)%Q) by apply pow2_pos.
  destruct (roundEven_error (q / u)) as [E1 E2].
  assert (D : (q == q / u * u)%Q)
    by (field; intro X; rewrite X in U; discriminate).
  set (n := inject_Z (roundEven (q / u))) in *.
  set (d := (q / u)%Q) in *.
  assert (M1 : ((n - d) * u <= (1 # 2) * u)%Q)
    by (apply Qmult_le_compat_r; [exact E1|now apply Qlt_le_weak]).
  assert (M2 : ((d - n) * u <= (1 # 2) * u)%Q)
    by (apply Qmult_le_compat_r; [exact E2|now apply Qlt_le_weak]).
  split; lra.
Qed.

Lemma Qc_compare_0 (q : Qc) :
  CompareSpec (q = Q2Qc 0) (this q < 0)%Q (0 < this q)%Q (q ?= Q2Qc 0)%Qc.
Proof.
  unfold Qccompare. cbn [this Q2Qc]. change (Qred 0) with 0%Q.
  destruct (Qcompare_spec q 0) as [E|L|G]; constructor; trivial.
  apply Qc_is_canon. exact E.
Qed.

Lemma le_Fin (a b : Q) : le (Fin (Q2Qc a)) (Fin (Q2Qc b)) = true <-> (a <= b)%Q.
Proof.
  cbn [le]. rewrite Qcleb_le. unfold Qcle. cbn [this Q2Qc].
  now rewrite !Qred_correct.
Qed.

Lemma le_Fin_l (a : Qc) (b : Q) : le (Fin a) (Fin (Q2Qc b)) = true <-> (a <= b)%Q.
Proof.
  cbn [le]. rewrite Qcleb_le. unfold Qcle. cbn [this Q2Qc].
  now rewrite Qred_correct.
Qed.

Lemma le_Fin_r (a : Q) (b : Qc) : le (Fin (Q2Qc a)) (Fin b) = true <-> (a <= b)%Q.
Proof.
  cbn [le]. rewrite Qcleb_le. unfold Qcle. cbn [this Q2Qc].
  now rewrite Qred_correct.
Qed.

(** Rounding is monotone. *)
Lemma round64_mono (a b : Qc) :
  (a <= b)%Qc -> le (round64 a) (round64 b) = true.
Proof.
  intro H. unfold Qcle in H. unfold round64.
  destruct (Qc_compare_0 a) as [Ea|La|Ga]; destruct (Qc_compare_0 b) as [Eb|Lb|Gb];
    cbv zeta; try (subst; cbn [this Q2Qc] in *; change (Qred 0) with 0%Q in * );
    try (exfalso; lra).
  - reflexivity.
  - destruct (Qle_bool _ _); [reflexivity|].
    apply le_Fin. apply nearest64_nonneg. lra.
  - destruct (Qle_bool _ _); [reflexivity|].
    apply le_Fin. assert (N := @nearest64_nonneg (- a) ltac:(lra)). lra.
  - assert (M : (nearest64 (- b) <= nearest64 (- a))%Q)
      by (apply nearest64_mono; lra).
    destruct (Qle_bool (pow2 1024) (nearest64 (- a))) eqn:Oa;
      destruct (Qle_bool (pow2 1024) (nearest64 (- b))) eqn:Ob;
      try reflexivity.
    + exfalso. apply Qle_bool_iff in Ob.
      assert (X : Qle_bool (pow2 1024) (nearest64 (- a)) = true)
        by (apply Qle_bool_iff; lra).
      congruence.
    + apply le_Fin. lra.
  - assert (Na := @nearest64_nonneg (- a) ltac:(lra)).
    assert (Nb := @nearest64_nonneg b ltac:(lra)).
    destruct (Qle_bool (pow2 1024) (nearest64 (- a)));
      destruct (Qle_bool (pow2 1024) (nearest64 b)); try reflexivity.
    apply le_Fin. lra.
  - assert (M : (nearest64 a <= nearest64 b)%Q)
      by (apply nearest64_mono; lra).
    destruct (Qle_bool (pow2 1024) (nearest64 a)) eqn:Oa;
      destruct (Qle_bool (pow2 1024) (nearest64 b)) eqn:Ob;
      try reflexivity.
    + exfalso. apply Qle_bool_iff in Oa.
      assert (X : Qle_bool (pow2 1024) (nearest64 b) = true)
        by (apply Qle_bool_iff; lra).
      congruence.
    + apply le_Fin. exact M.
Qed.

(** Integers of magnitude up to 2^53 are binary64 numbers. *)
Lemma round64_ofZ (z : Z) :
  (- 2 ^ 53 <= z <= 2 ^ 53)%Z -> round64 (Q2Qc (inject_Z z)) = ofZ z.
Proof.
  intro H. unfold round64, ofZ.
  assert (T : this (Q2Qc (inject_Z z)) = inject_Z z)
    by (unfold Q2Qc; cbn [this]; apply Qred_identity; cbn; apply Z.gcd_1_r).
  destruct (Qc_compare_0 (Q2Qc (inject_Z z))) as [E|L|G]; cbv zeta.
  - reflexivity.
  - rewrite T in *. assert (Hz : (z < 0)%Z).
    { change 0%Q with (inject_Z 0) in L. now rewrite <- Zlt_Qlt in L. }
    assert (N : (nearest64 (- inject_Z z) == inject_Z (- z))%Q).
    { rewrite <- inject_Z_opp. apply nearest64_Z. lia. }
    assert (B : Qle_bool (pow2 1024) (nearest64 (- inject_Z z)) = false).
    { destruct (Qle_bool _ _) eqn:O; [|reflexivity]. exfalso.
      apply Qle_bool_iff in O. rewrite N in O.
      pose proof (@pow2_Z 1024 ltac:(lia)) as P. rewrite P in O.
      rewrite <- Zle_Qle in O.
      assert (2 ^ 53 < 2 ^ 1024)%Z by (apply Z.pow_lt_mono_r; lia). lia. }
    rewrite B. f_equal. apply Qc_is_canon. cbn [this Q2Qc].
    rewrite !Qred_correct, N, inject_Z_opp. ring.
  - rewrite T in *. assert (Hz : (0 < z)%Z).
    { change 0%Q with (inject_Z 0) in G. now rewrite <- Zlt_Qlt in G. }
    assert (N : (nearest64 (inject_Z z) == inject_Z z)%Q)
      by (apply nearest64_Z; lia).
    assert (B : Qle_bool (pow2 1024) (nearest64 (inject_Z z)) = false).
    { destruct (Qle_bool _ _) eqn:O; [|reflexivity]. exfalso.
      apply Qle_bool_iff in O. rewrite N in O.
      pose proof (@pow2_Z 1024 ltac:(lia)) as P. rewrite P in O.
      rewrite <- Zle_Qle in O.
      assert (2 ^ 53 < 2 ^ 1024)%Z by (apply Z.pow_lt_mono_r; lia). lia. }
    rewrite B. f_equal. apply Qc_is_canon. cbn [this Q2Qc].
    now rewrite !Qred_correct, N.
Qed.

(** A value between two binary64 numbers is rounded between them. *)
Lemma round64_between (lo hi q : Qc) :
  round64 lo = Fin lo -> round64 hi = Fin hi ->
  (lo <= q)%Qc -> (q <= hi)%Qc ->
  exists r, round64 q = Fin r /\ (lo <= r)%Qc /\ (r <= hi)%Qc.
Proof.
  intros El Eh L H.
  pose proof (round64_mono L) as M1. pose proof (round64_mono H) as M2.
  rewrite El in M1. rewrite Eh in M2.
  destruct (round64 q) as [r| | |]; cbn [le] in M1, M2; try discriminate.
  exists r. split; [reflexivity|]. split; now apply Qcleb_le.
Qed.

(** Away from underflow and overflow the rounding error is at most
    2^-53 of the number. *)
Lemma round64_relative (q : Qc) :
  (pow2 (-1022) <= q)%Q -> (q <= pow2 1023)%Q ->
  exists r, round64 q = Fin r
    /\ (this r - q <= pow2 (-53) * q)%Q /\ (q - this r <= pow2 (-53) * q)%Q.
Proof.
  intros L H.
  assert (P0 := pow2_pos (-1022)).
  assert (Q0 : (0 < q)%Q) by lra.
  assert (E : ilog2 q = Z.max (ilog2 q) (-1022)).
  { assert (M : (ilog2 (pow2 (-1022)) <= ilog2 q)%Z) by (apply ilog2_mono; assumption).
    rewrite (@ilog2_unique (pow2 (-1022)) (-1022)) in M.
    - lia.
    - apply Qle_refl.
    - apply pow2_lt. lia. }
  destruct (nearest64_error q) as [E1 E2]. rewrite <- E in E1, E2.
  destruct (ilog2_spec Q0) as [S1 _].
  set (e := ilog2 q) in *.
  assert (U : ((1 # 2) * pow2 (e - 52) == pow2 (-53) * pow2 e)%Q).
  { replace (e - 52)%Z with ((-53 + e) + 1)%Z by lia.
    rewrite pow2_succ, pow2_add. ring. }
  assert (U53 : (0 < pow2 (-53))%Q) by apply pow2_pos.
  assert (V53 : (pow2 (-53) < 1)%Q) by (change 1%Q with (pow2 0); apply pow2_lt; lia).
  assert (B : (pow2 (-53) * pow2 e <= pow2 (-53) * q)%Q).
  { rewrite !(Qmult_comm (pow2 (-53))). apply Qmult_le_compat_r; [exact S1|lra]. }
  unfold round64. destruct (Qc_compare_0 q) as [Z0|L0|G0]; cbv zeta.
  - exfalso. rewrite Z0 in Q0. cbn in Q0. lra.
  - exfalso. lra.
  - assert (O : Qle_bool (pow2 1024) (nearest64 q) = false).
    { destruct (Qle_bool _ _) eqn:O; [|reflexivity]. exfalso.
      apply Qle_bool_iff in O.
      assert (T : (pow2 1024 == 2 * pow2 1023)%Q) by (apply (pow2_succ 1023)).
      assert (X : (pow2 (-53) * q < q)%Q).
      { rewrite <- (Qmult_1_l q) at 2. apply Qmult_lt_compat_r; assumption. }
      lra. }
    rewrite O. eexists. split; [reflexivity|].
    cbn [this Q2Qc]. rewrite !Qred_correct. split; lra.
Qed.

Lemma range_relative (q : Qc) (lo hi : Q) :
  (pow2 (-1022) <= lo)%Q -> (hi <= pow2 1023)%Q ->
  (lo <= q)%Q -> (q <= hi)%Q ->
  exists r, round64 q = Fin r
    /\ (this r <= (1 + (1 # 9007199254740992)) * q)%Q
    /\ ((1 - (1 # 9007199254740992)) * q <= this r)%Q.
Proof.
  intros L H Lq Hq.
  destruct (@round64_relative q) as [r [E [U1 U2]]]; [lra|lra|].
  exists r. split; [exact E|].
  change (pow2 (-53)) with (1 # 9007199254740992)%Q in U1, U2.
  split; lra.
Qed.

(** Up to [2^k] the rounding error is at most [2^(k - 53)]. *)
Lemma round64_absolute (q : Qc) (k : Z) :
  (-1022 <= k <= 1022)%Z -> (0 <= q)%Q -> (q <= pow2 k)%Q ->
  exists r, round64 q = Fin r
    /\ (this r - q <= pow2 (k - 53))%Q /\ (q - this r <= pow2 (k - 53))%Q.
Proof.
  intros Hk L H.
  assert (P := pow2_pos (k - 53)).
  unfold round64. destruct (Qc_compare_0 q) as [Z0|L0|G0]; cbv zeta.
  - exists q. split; [reflexivity|]. split; lra.
  - exfalso. lra.
  - destruct (ilog2_spec G0) as [S1 _].
    assert (I : (ilog2 q <= k)%Z).
    { destruct (Z.le_gt_cases (ilog2 q) k) as [C|C]; [exact C|]. exfalso.
      assert (X : (pow2 k < pow2 (ilog2 q))%Q) by (apply pow2_lt; lia). lra. }
    destruct (nearest64_error q) as [E1 E2].
    set (e := Z.max (ilog2 q) (-1022)) in *.
    assert (U : ((1 # 2) * pow2 (e - 52) == pow2 (e - 53))%Q).
    { replace (e - 52)%Z with ((e - 53) + 1)%Z by lia. rewrite pow2_succ. ring. }
    assert (B : (pow2 (e - 53) <= pow2 (k - 53))%Q) by (apply pow2_le; lia).
    assert (O : Qle_bool (pow2 1024) (nearest64 q) = false).
    { destruct (Qle_bool _ _) eqn:O; [|reflexivity]. exfalso.
      apply Qle_bool_iff in O.
      assert (T : (pow2 1024 == 2 * pow2 1023)%Q) by (apply (pow2_succ 1023)).
      assert (X1 : (pow2 k <= pow2 1022)%Q) by (apply pow2_le; lia).
      assert (X2 : (pow2 (k - 53) <= pow2 1022)%Q) by (apply pow2_le; lia).
      assert (X3 : (pow2 1023 == 2 * pow2 1022)%Q) by (apply (pow2_succ 1022)).
      assert (X4 := pow2_pos 1022).
      lra. }
    rewrite O. eexists. split; [reflexivity|].
    cbn [this Q2Qc]. rewrite !Qred_correct. split; lra.
Qed.

End Binary64.

(** ** The case mapping *)

Section CaseMapping.

Lemma upperTable_ok : forallb entryOk upperTable = true.
Proof. vm_compute. reflexivity. Qed.

Lemma assoc_In (c : N) (t : list (N * list N)) (m : list N) :
  assoc c t = Some m -> In (c, m) t.
Proof.
  induction t as [|[k m'] t IH]; simpl; [discriminate|].
  destruct (N.eqb_spec k c) as [->|_].
  - intro E. inversion E. now left.
  - intro E. right. now apply IH.
Qed.

Lemma upperPoint_cases (c : N) :
  upperPoint c = [c] \/ entryOk (c, upperPoint c) = true.
Proof.
  unfold upperPoint. destruct (c <? 97)%N; [now left|].
  destruct (assoc c upperTable) as [m|] eqn:E; [|now left].
  right. apply assoc_In in E.
  exact (proj1 (forallb_forall entryOk upperTable) upperTable_ok _ E).
Qed.

Lemma isFixed_spec (x : N) : isFixed x = true -> upperPoint x = [x].
Proof.
  unfold isFixed. destruct (upperPoint x) as [|y [|z t]]; try discriminate.
  intro E. apply N.eqb_eq in E. now subst.
Qed.

Lemma ws_not_surrogate (c : N) : isWhiteSpace c = true -> isSurrogate c = false.
Proof.
  unfold isWhiteSpace, isSurrogate, isHigh, isLow.
  rewrite !orb_true_iff, !andb_true_iff, !N.leb_le, !N.eqb_eq.
  intro H. apply orb_false_iff. split; apply andb_false_iff;
    rewrite !N.leb_gt; lia.
Qed.

Lemma high_not_low (c : N) : isHigh c = true -> isLow c = false.
Proof.
  unfold isHigh, isLow. rewrite !andb_true_iff, !N.leb_le. intro H.
  apply andb_false_iff. rewrite !N.leb_gt. lia.
Qed.

(** The image of a code unit: the unit itself, or units that are fixed,
    not white space and not surrogates. *)
Lemma upperUnit_cases (c : N) :
  upperUnit c = [c]
  \/ (isWhiteSpace c = false /\ isSurrogate c = false
      /\ upperUnit c <> []
      /\ Forall (fun x => isWhiteSpace x = false /\ isSurrogate x = false
                          /\ upperUnit x = [x]) (upperUnit c)
      /\ (In 67%N (upperUnit c) -> c = 99%N)).
Proof.
  assert (U : upperUnit c = if (c <? 65536)%N then upperPoint c else [c])
    by reflexivity.
  destruct (N.ltb_spec c 65536) as [B|B]; [|now left].
  rewrite U. clear U.
  destruct (upperPoint_cases c) as [E|E]; [now left|right].
  unfold entryOk in E. rewrite !andb_true_iff in E.
  destruct E as [[[[[[W S] _] NE] F] _] C].
  apply negb_true_iff in W, S.
  destruct (N.ltb_spec c 65536) as [_|]; [|lia].
  split; [exact W|]. split; [exact S|]. split.
  { destruct (upperPoint c); [discriminate|discriminate]. }
  split.
  - apply Forall_forall. intros x Hx.
    apply (proj1 (forallb_forall _ _) F) in Hx.
    rewrite !andb_true_iff in Hx. destruct Hx as [[[Wx Sx] Fx] Bx].
    apply negb_true_iff in Wx, Sx. apply N.ltb_lt in Bx.
    split; [exact Wx|]. split; [exact Sx|].
    unfold upperUnit. destruct (N.ltb_spec x 65536); [|lia].
    now apply isFixed_spec.
  - intro H. destruct (existsb (N.eqb 67) (upperPoint c)) eqn:X.
    + now apply N.eqb_eq in C.
    + exfalso. assert (Y : existsb (N.eqb 67) (upperPoint c) = true).
      { apply existsb_exists. exists 67%N. split; [exact H|reflexivity]. }
      congruence.
Qed.

Lemma upperUnit_ws (c : N) : isWhiteSpace c = true -> upperUnit c = [c].
Proof.
  intro H. destruct (upperUnit_cases c) as [E|[W _]]; [exact E|congruence].
Qed.

Lemma upperUnit_surrogate (c : N) : isSurrogate c = true -> upperUnit c = [c].
Proof.
  intro H. destruct (upperUnit_cases c) as [E|[_ [S _]]]; [exact E|congruence].
Qed.

(** The image of a surrogate pair is a surrogate pair that is fixed. *)
Lemma codeUnits_pair (y : N) :
  (65536 <= y < 1114112)%N ->
  exists h l, codeUnits y = [h; l] /\ isHigh h = true /\ isLow l = true
              /\ codePoint h l = y.
Proof.
  intro H. unfold codeUnits. destruct (N.ltb_spec y 65536); [lia|].
  eexists. eexists. split; [reflexivity|].
  pose proof (N.div_mod (y - 65536) 1024 ltac:(lia)) as D.
  pose proof (N.mod_lt (y - 65536) 1024 ltac:(lia)) as M.
  assert (Q : ((y - 65536) / 1024 < 1024)%N)
    by (apply N.Div0.div_lt_upper_bound; lia).
  unfold isHigh, isLow, codePoint.
  rewrite !andb_true_iff, !N.leb_le.
  set (q := ((y - 65536) / 1024)%N) in *.
  set (r := ((y - 65536) mod 1024)%N) in *. clearbody q r. lia.
Qed.

Lemma codePoint_range (h l : N) :
  isHigh h = true -> isLow l = true -> (65536 <= codePoint h l < 1114112)%N.
Proof.
  unfold isHigh, isLow, codePoint. rewrite !andb_true_iff, !N.leb_le. lia.
Qed.

Lemma upperPair_cases (h l : N) :
  isHigh h = true -> isLow l = true ->
  exists h' l', upperPair h l = [h'; l'] /\ isHigh h' = true /\ isLow l' = true
                /\ upperPair h' l' = [h'; l'].
Proof.
  intros Hh Hl. pose proof (@codePoint_range h l Hh Hl) as R.
  assert (Y : exists y, upperPoint (codePoint h l) = [y]
                        /\ (65536 <= y < 1114112)%N /\ upperPoint y = [y]).
  { destruct (upperPoint_cases (codePoint h l)) as [E|E].
    - exists (codePoint h l). rewrite E. auto.
    - unfold entryOk in E. rewrite !andb_true_iff in E.
      destruct E as [[[[[[_ _] _] _] F] O] _].
      destruct (N.ltb_spec (codePoint h l) 65536); [lia|].
      destruct (upperPoint (codePoint h l)) as [|y [|z t]]; try discriminate.
      exists y. split; [reflexivity|]. cbn [forallb] in F.
      rewrite !andb_true_iff in F. destruct F as [[[_ Fx] [B1 B2]] _].
      apply N.leb_le in B1. apply N.ltb_lt in B2.
      split; [lia|]. now apply isFixed_spec. }
  destruct Y as [y [E [Ry Fy]]].
  destruct (@codeUnits_pair y Ry) as [h' [l' [U [H1 [H2 C]]]]].
  exists h', l'. unfold upperPair. rewrite E. cbn [flat_map].
  rewrite app_nil_r. split; [exact U|]. split; [exact H1|]. split; [exact H2|].
  rewrite C, Fy. cbn [flat_map]. now rewrite app_nil_r.
Qed.

(** *** The shape of [toUpperCase] *)

Lemma toUpperCase_unit (h : N) (r : jstring) :
  isHigh h && startsLow r = false ->
  toUpperCase (h :: r) = upperUnit h ++ toUpperCase r.
Proof.
  intro H. destruct r as [|l r]; simpl.
  - now rewrite app_nil_r.
  - simpl in H. now rewrite H.
Qed.

Lemma toUpperCase_pair (h l : N) (r : jstring) :
  isHigh h = true -> isLow l = true ->
  toUpperCase (h :: l :: r) = upperPair h l ++ toUpperCase r.
Proof. intros Hh Hl. simpl. now rewrite Hh, Hl. Qed.

(** Induction on a text, code point by code point. *)
Lemma codePoint_ind (P : jstring -> Prop) :
  P [] ->
  (forall h r, isHigh h && startsLow r = false -> P r -> P (h :: r)) ->
  (forall h l r, isHigh h = true -> isLow l = true -> P r -> P (h :: l :: r)) ->
  forall s, P s.
Proof.
  intros P0 P1 P2.
  assert (G : forall n s, List.length s <= n -> P s).
  { induction n as [|n IH]; intros s L.
    - destruct s; [exact P0|simpl in L; lia].
    - destruct s as [|h r]; [exact P0|].
      destruct (isHigh h && startsLow r) eqn:E.
      + destruct r as [|l r]; [now rewrite andb_false_r in E|].
        apply andb_true_iff in E. destruct E as [Hh Hl].
        apply P2; trivial. apply IH. simpl in L. lia.
      + apply P1; trivial. apply IH. simpl in L. lia. }
  intro s. now apply (G (List.length s)).
Qed.

(** The image starts with a low surrogate only when the text does. *)
Lemma startsLow_upper (s : jstring) :
  startsLow (toUpperCase s) = true -> startsLow s = true.
Proof.
  destruct s as [|h r]; [trivial|].
  destruct (isHigh h && startsLow r) eqn:E.
  - destruct r as [|l r]; [now rewrite andb_false_r in E|].
    apply andb_true_iff in E. destruct E as [Hh Hl].
    rewrite (@toUpperCase_pair h l r Hh Hl).
    destruct (@upperPair_cases h l Hh Hl) as [h' [l' [U [H1 _]]]].
    rewrite U. cbn [app startsLow]. rewrite (@high_not_low _ H1). discriminate.
  - rewrite (@toUpperCase_unit h r E).
    destruct (upperUnit_cases h) as [U|[_ [_ [NE [F _]]]]].
    + rewrite U. trivial.
    + destruct (upperUnit h) as [|x t]; [congruence|].
      inversion F as [|? ? [_ [Sx _]] _]; subst.
      cbn [app startsLow]. apply orb_false_iff in Sx. destruct Sx as [_ Sx].
      rewrite Sx. discriminate.
Qed.

(** Units that are fixed and are no high surrogates pass through. *)
Lemma toUpperCase_fixed (x t : jstring) :
  Forall (fun c => isHigh c = false /\ upperUnit c = [c]) x ->
  toUpperCase (x ++ t) = x ++ toUpperCase t.
Proof.
  induction 1 as [|c x [Hc Uc] _ IH]; [reflexivity|].
  cbn [app]. rewrite toUpperCase_unit by now rewrite Hc.
  now rewrite Uc, IH.
Qed.

Lemma toUpperCase_idem (s : jstring) : toUpperCase (toUpperCase s) = toUpperCase s.
Proof.
  induction s as [|h r E IH|h l r Hh Hl IH] using codePoint_ind.
  - reflexivity.
  - rewrite (@toUpperCase_unit h r E).
    destruct (upperUnit_cases h) as [U|[_ [_ [_ [F _]]]]].
    + rewrite U. cbn [app]. rewrite toUpperCase_unit, U, IH; [reflexivity|].
      destruct (isHigh h); [|reflexivity]. cbn [andb] in *.
      destruct (startsLow (toUpperCase r)) eqn:X; [|reflexivity].
      apply startsLow_upper in X. congruence.
    + rewrite toUpperCase_fixed, IH; [reflexivity|].
      apply Forall_forall. intros x Hx.
      apply (proj1 (Forall_forall _ _) F) in Hx.
      destruct Hx as [_ [Sx Ux]]. apply orb_false_iff in Sx. tauto.
  - rewrite (@toUpperCase_pair h l r Hh Hl).
    destruct (@upperPair_cases h l Hh Hl) as [h' [l' [U [H1 [H2 U']]]]].
    rewrite U. cbn [app]. rewrite (@toUpperCase_pair _ _ _ H1 H2), U', IH.
    reflexivity.
Qed.

(** Only [C] and [c] give a [C]. *)
Lemma toUpperCase_C (s : jstring) :
  In 67%N (toUpperCase s) -> In 67%N s \/ In 99%N s.
Proof.
  induction s as [|h r E IH|h l r Hh Hl IH] using codePoint_ind.
  - intros [].
  - rewrite (@toUpperCase_unit h r E). intro H. apply in_app_or in H.
    destruct H as [H|H].
    + destruct (upperUnit_cases h) as [U|[_ [_ [_ [_ C]]]]].
      * rewrite U in H. destruct H as [->|[]]. left. now left.
      * right. left. now apply C.
    + destruct (IH H); [left|right]; now right.
  - rewrite (@toUpperCase_pair h l r Hh Hl). intro H. apply in_app_or in H.
    destruct H as [H|H].
    + exfalso. destruct (@upperPair_cases h l Hh Hl) as [h' [l' [U [H1 [H2 _]]]]].
      rewrite U in H. unfold isHigh, isLow in H1, H2.
      rewrite !andb_true_iff, !N.leb_le in H1, H2.
      destruct H as [X|[X|[]]]; lia.
    + destruct (IH H); [left|right]; right; now right.
Qed.


(** *** Upper-casing and trimming commute *)

Lemma toUpperCase_nonempty (s : jstring) : s <> [] -> toUpperCase s <> [].
Proof.
  destruct s as [|h r]; [congruence|]. intros _.
  destruct (isHigh h && startsLow r) eqn:E.
  - destruct r as [|l r]; [now rewrite andb_false_r in E|].
    apply andb_true_iff in E. destruct E as [Hh Hl].
    rewrite (@toUpperCase_pair h l r Hh Hl).
    destruct (@upperPair_cases h l Hh Hl) as [h' [l' [U _]]].
    rewrite U. discriminate.
  - rewrite (@toUpperCase_unit h r E).
    destruct (upperUnit_cases h) as [U|[_ [_ [NE _]]]].
    + rewrite U. discriminate.
    + destruct (upperUnit h); [congruence|discriminate].
Qed.

(** The image of a text that starts with a unit that is not white space
    starts with such a unit. *)
Lemma toUpperCase_head (c : N) (r : jstring) :
  isWhiteSpace c = false ->
  exists x t, toUpperCase (c :: r) = x :: t /\ isWhiteSpace x = false.
Proof.
  intro W. destruct (isHigh c && startsLow r) eqn:E.
  - destruct r as [|l r]; [now rewrite andb_false_r in E|].
    apply andb_true_iff in E. destruct E as [Hh Hl].
    rewrite (@toUpperCase_pair c l r Hh Hl).
    destruct (@upperPair_cases c l Hh Hl) as [h' [l' [U [H1 _]]]].
    rewrite U. eexists. eexists. split; [reflexivity|].
    destruct (isWhiteSpace h') eqn:X; [|reflexivity].
    apply ws_not_surrogate in X. apply orb_false_iff in X.
    destruct X as [X _]. congruence.
  - rewrite (@toUpperCase_unit c r E).
    destruct (upperUnit_cases c) as [U|[_ [_ [NE [F _]]]]].
    + rewrite U. eexists. eexists. split; [reflexivity|exact W].
    + destruct (upperUnit c) as [|x t]; [congruence|].
      inversion F as [|? ? [Wx _] _]; subst.
      eexists. eexists. split; [reflexivity|exact Wx].
Qed.

Lemma trimStart_upper (s : jstring) :
  trimStart (toUpperCase s) = toUpperCase (trimStart s).
Proof.
  unfold trimStart. induction s as [|c r IH]; [reflexivity|].
  cbn [dropWhile]. destruct (isWhiteSpace c) eqn:W.
  - pose proof (ws_not_surrogate _ W) as S. apply orb_false_iff in S.
    rewrite toUpperCase_unit by (destruct S as [S _]; now rewrite S).
    rewrite (upperUnit_ws _ W). cbn [app dropWhile]. now rewrite W.
  - destruct (@toUpperCase_head c r W) as [x [t [E Wx]]].
    rewrite E. cbn [dropWhile]. now rewrite Wx.
Qed.

Lemma endsClean_trimEnd (s : jstring) : endsClean s -> trimEnd s = s.
Proof.
  intros [->|[a [c [-> W]]]]; [reflexivity|].
  unfold trimEnd. rewrite rev_app_distr. cbn [rev app dropWhile].
  rewrite W. cbn [rev]. now rewrite rev_involutive.
Qed.

Lemma trimEnd_endsClean (s : jstring) : endsClean (trimEnd s).
Proof.
  unfold trimEnd. generalize (rev s). intro t.
  induction t as [|c t IH]; [now left|].
  cbn [dropWhile]. destruct (isWhiteSpace c) eqn:W; [exact IH|].
  right. exists (rev t), c. split; [reflexivity|exact W].
Qed.

Lemma trimEnd_split (s : jstring) :
  exists w, s = trimEnd s ++ w /\ forallb isWhiteSpace w = true.
Proof.
  assert (G : forall t, exists w,
            rev t = rev (dropWhile isWhiteSpace t) ++ w
            /\ forallb isWhiteSpace w = true).
  { induction t as [|c t [w [E F]]]; [now exists []|].
    cbn [dropWhile]. destruct (isWhiteSpace c) eqn:W.
    - exists (w ++ [c]). split.
      + cbn [rev]. rewrite E at 1. now rewrite app_assoc.
      + rewrite forallb_app, F. cbn. now rewrite W.
    - exists []. now rewrite app_nil_r. }
  destruct (G (rev s)) as [w [E F]]. rewrite rev_involutive in E.
  now exists w.
Qed.

Lemma endsClean_app (x t : jstring) : t <> [] -> endsClean t -> endsClean (x ++ t).
Proof.
  intros NE [->|[a [c [-> W]]]]; [congruence|].
  right. exists (x ++ a), c. split; [now rewrite app_assoc|exact W].
Qed.

Lemma endsClean_tail (h : N) (r : jstring) :
  r <> [] -> endsClean (h :: r) -> endsClean r.
Proof.
  intros NE [E|[a [c [E W]]]]; [discriminate|].
  destruct a as [|h' a]; cbn [app] in E.
  - inversion E. congruence.
  - inversion E. right. now exists a, c.
Qed.

Lemma endsClean_units (x : jstring) :
  Forall (fun c => isWhiteSpace c = false) x -> endsClean x.
Proof.
  intro F. destruct x as [|c x] using rev_ind; [now left|].
  right. exists x, c. split; [reflexivity|].
  apply Forall_app in F. destruct F as [_ F]. now inversion F.
Qed.

Lemma surrogate_not_ws (c : N) : isSurrogate c = true -> isWhiteSpace c = false.
Proof.
  intro S. destruct (isWhiteSpace c) eqn:W; [|reflexivity].
  apply ws_not_surrogate in W. congruence.
Qed.

Lemma endsClean_upper (s : jstring) : endsClean s -> endsClean (toUpperCase s).
Proof.
  induction s as [|h r E IH|h l r Hh Hl IH] using codePoint_ind; intro C.
  - now left.
  - rewrite (@toUpperCase_unit h r E).
    destruct r as [|r0 r'].
    + cbn [toUpperCase]. rewrite app_nil_r.
      assert (W : isWhiteSpace h = false).
      { destruct C as [C|[a [c [C W]]]]; [discriminate|].
        destruct a as [|? [|? ?]]; inversion C; now subst. }
      destruct (upperUnit_cases h) as [U|[_ [_ [_ [F _]]]]].
      * rewrite U. right. now exists [], h.
      * apply endsClean_units. apply Forall_forall. intros x Hx.
        apply (proj1 (Forall_forall _ _) F) in Hx. tauto.
    + apply endsClean_app; [apply toUpperCase_nonempty; discriminate|].
      apply IH. eapply endsClean_tail; [discriminate|exact C].
  - rewrite (@toUpperCase_pair h l r Hh Hl).
    destruct (@upperPair_cases h l Hh Hl) as [h' [l' [U [H1 [H2 _]]]]].
    rewrite U. destruct r as [|r0 r'].
    + cbn [toUpperCase]. rewrite app_nil_r. right. exists [h'], l'.
      split; [reflexivity|]. apply surrogate_not_ws.
      unfold isSurrogate. now rewrite H2, orb_true_r.
    + apply endsClean_app; [apply toUpperCase_nonempty; discriminate|].
      apply IH. eapply endsClean_tail; [discriminate|].
      eapply endsClean_tail; [discriminate|exact C].
Qed.

Lemma toUpperCase_app_ws (b w : jstring) :
  forallb isWhiteSpace w = true -> toUpperCase (b ++ w) = toUpperCase b ++ w.
Proof.
  intro F.
  assert (W0 : startsLow w = false).
  { destruct w as [|c w]; [reflexivity|]. cbn [forallb] in F.
    apply andb_true_iff in F. destruct F as [Wc _].
    apply ws_not_surrogate in Wc. apply orb_false_iff in Wc. tauto. }
  induction b as [|h r E IH|h l r Hh Hl IH] using codePoint_ind.
  - cbn [app toUpperCase]. rewrite <- (app_nil_r w) at 1.
    rewrite toUpperCase_fixed; [now rewrite app_nil_r|].
    apply Forall_forall. intros c Hc.
    apply (proj1 (forallb_forall _ _) F) in Hc.
    split; [|now apply upperUnit_ws].
    apply ws_not_surrogate in Hc. apply orb_false_iff in Hc. tauto.
  - cbn [app]. rewrite !toUpperCase_unit, IH, app_assoc; trivial.
    destruct r as [|r0 r']; [|exact E].
    cbn [app]. rewrite W0. apply andb_false_r.
  - cbn [app]. rewrite !(@toUpperCase_pair h l _ Hh Hl), IH, app_assoc.
    reflexivity.
Qed.

Lemma trimEnd_upper (s : jstring) :
  trimEnd (toUpperCase s) = toUpperCase (trimEnd s).
Proof.
  destruct (trimEnd_split s) as [w [E F]].
  rewrite E at 1. rewrite toUpperCase_app_ws, trimEnd_app_ws by exact F.
  apply endsClean_trimEnd. apply endsClean_upper. apply trimEnd_endsClean.
Qed.

Lemma trim_upper (s : jstring) : trim (toUpperCase s) = toUpperCase (trim s).
Proof.
  unfold trim. now rewrite trimStart_upper, trimEnd_upper.
Qed.

End CaseMapping.

(** ** Timeline progress *)

Section Timeline.

Lemma sub64_ofZ (a b : Z) :
  sub64 (ofZ a) (ofZ b) = round64 (Q2Qc (inject_Z (a - b))).
Proof. unfold sub64. now rewrite sub_ofZ. Qed.

(** [Math.max(0, Math.min(100, x))] is the clamp. *)
Lemma max_min_is_clamp (x : number) :
  max (ofZ 0) (min (ofZ 100) x) = Spec.clamp x.
Proof.
  destruct x as [q| | |]; try reflexivity.
  rewrite max_min_clamp. unfold Spec.clamp, Spec.clampPercent, lt, ofZ.
  destruct (Qcltb q (Q2Qc (inject_Z 0))); [reflexivity|].
  destruct (Qcltb (Q2Qc (inject_Z 100)) q); reflexivity.
Qed.

(** Rounding between two integers that are binary64 numbers. *)
Lemma round64_range (lo hi : Z) (q : Qc) :
  round64 (Q2Qc (inject_Z lo)) = ofZ lo ->
  round64 (Q2Qc (inject_Z hi)) = ofZ hi ->
  (inject_Z lo <= this q)%Q -> (this q <= inject_Z hi)%Q ->
  exists r, round64 q = Fin r
            /\ (inject_Z lo <= this r)%Q /\ (this r <= inject_Z hi)%Q.
Proof.
  intros El Eh L H.
  destruct (@round64_between (Q2Qc (inject_Z lo)) (Q2Qc (inject_Z hi)) q El Eh)
    as [r [E [Lr Hr]]].
  - unfold Qcle. now rewrite this_ofZ.
  - unfold Qcle. now rewrite this_ofZ.
  - exists r. unfold Qcle in Lr, Hr. rewrite this_ofZ in Lr, Hr. auto.
Qed.

Ltac exact_double := apply number_eqb_eq; vm_compute; reflexivity.

Lemma this_mult (a b : Qc) : (this (a * b)%Qc == this a * this b)%Q.
Proof. unfold Qcmult. cbn [this Q2Qc]. apply Qred_correct. Qed.

(** The elapsed percentage of the machine is a finite number, not above 0
    up to the start and not below 100 from the end on. *)
Lemma elapsed64_cases (today s e : Z) :
  Spec.validTime today -> Spec.validTime s -> Spec.validTime e -> (s < e)%Z ->
  gt (sub64 (ofZ e) (ofZ s)) (ofZ 0) = true
  /\ exists p, Spec.elapsed64 today s e = Fin p
               /\ ((today <= s)%Z -> (this p <= 0)%Q)
               /\ ((e <= today)%Z -> (inject_Z 100 <= this p)%Q).
Proof.
  unfold Spec.validTime. intros Vt Vs Ve Hse.
  unfold Spec.elapsed64. rewrite !sub64_ofZ.
  set (d1 := (today - s)%Z). set (d2 := (e - s)%Z).
  assert (B54 : round64 (Q2Qc (inject_Z (2 ^ 54))) = ofZ (2 ^ 54)) by exact_double.
  assert (N54 : round64 (Q2Qc (inject_Z (- 2 ^ 54))) = ofZ (- 2 ^ 54)) by exact_double.
  assert (B61 : round64 (Q2Qc (inject_Z (2 ^ 61))) = ofZ (2 ^ 61)) by exact_double.
  assert (N61 : round64 (Q2Qc (inject_Z (- 2 ^ 61))) = ofZ (- 2 ^ 61)) by exact_double.
  assert (E0 : round64 (Q2Qc (inject_Z 0)) = ofZ 0) by (apply round64_ofZ; lia).
  assert (E1 : round64 (Q2Qc (inject_Z 1)) = ofZ 1) by (apply round64_ofZ; lia).
  assert (E100 : round64 (Q2Qc (inject_Z 100)) = ofZ 100) by (apply round64_ofZ; lia).
  assert (D1 : (- 2 ^ 54 <= d1 <= 2 ^ 54)%Z) by (unfold d1; lia).
  assert (D2 : (1 <= d2 <= 2 ^ 54)%Z) by (unfold d2; lia).
  (* the two differences *)
  destruct (@round64_range 1 (2 ^ 54) (Q2Qc (inject_Z d2)) E1 B54) as [t [Et [Lt Ut]]];
    try (rewrite this_ofZ, <- Zle_Qle; lia).
  destruct (@round64_range (- 2 ^ 54) (2 ^ 54) (Q2Qc (inject_Z d1)) N54 B54)
    as [a [Ea [La Ua]]]; try (rewrite this_ofZ, <- Zle_Qle; lia).
  assert (A0 : (today <= s)%Z -> (this a <= 0)%Q).
  { intro H.
    destruct (@round64_range (- 2 ^ 54) 0 (Q2Qc (inject_Z d1)) N54 E0)
      as [a' [Ea' [_ Ua']]]; try (rewrite this_ofZ, <- Zle_Qle; unfold d1; lia).
    rewrite Ea in Ea'. inversion Ea'. subst a'. exact Ua'. }
  assert (A1 : (e <= today)%Z -> (this t <= this a)%Q).
  { intro H.
    assert (M : (Q2Qc (inject_Z d2) <= Q2Qc (inject_Z d1))%Qc).
    { unfold Qcle. rewrite !this_ofZ, <- Zle_Qle. unfold d1, d2. lia. }
    apply round64_mono in M. rewrite Et, Ea in M. cbn [le] in M.
    now apply Qcleb_le in M. }
  rewrite Et, Ea. split.
  { unfold gt, lt, ofZ. apply Qcltb_lt. unfold Qclt. rewrite this_0.
    change (inject_Z 1) with 1%Q in Lt. lra. }
  (* the quotient *)
  change (inject_Z 1) with 1%Q in Lt.
  change (inject_Z (2 ^ 54)) with (18014398509481984 # 1)%Q in *.
  change (inject_Z (- 2 ^ 54)) with (-18014398509481984 # 1)%Q in *.
  assert (T0 : Qceqb t (Q2Qc 0) = false).
  { unfold Qceqb. destruct (t ?= Q2Qc 0)%Qc eqn:C; trivial.
    exfalso. apply Qceq_alt in C. rewrite C in Lt. cbn in Lt. lra. }
  unfold div64. cbn [div rounded]. change 0%Qc with (Q2Qc 0). rewrite T0.
  assert (Qt : (this (a / t)%Qc == this a / this t)%Q) by apply this_div.
  assert (Tp : (0 < this t)%Q) by lra.
  assert (Q1 : (-18014398509481984 # 1 <= this (a / t)%Qc)%Q).
  { rewrite Qt. apply Qdiv_ge_iff; [exact Tp|]. nra. }
  assert (Q2 : (this (a / t)%Qc <= 18014398509481984 # 1)%Q).
  { rewrite Qt. apply Qdiv_le_iff; [exact Tp|]. nra. }
  destruct (@round64_range (- 2 ^ 54) (2 ^ 54) (a / t)%Qc N54 B54 Q1 Q2)
    as [c [Ec [Lc Uc]]].
  assert (C0 : (today <= s)%Z -> (this c <= 0)%Q).
  { intro H. specialize (A0 H).
    destruct (@round64_range (- 2 ^ 54) 0 (a / t)%Qc N54 E0 Q1) as [c' [Ec' [_ Uc']]].
    - rewrite Qt. apply Qdiv_le_iff; [exact Tp|]. change (inject_Z 0) with 0%Q. lra.
    - rewrite Ec in Ec'. inversion Ec'. subst c'. exact Uc'. }
  assert (C1 : (e <= today)%Z -> (1 <= this c)%Q).
  { intro H. specialize (A1 H).
    destruct (@round64_range 1 (2 ^ 54) (a / t)%Qc E1 B54) as [c' [Ec' [Lc' _]]].
    - rewrite Qt. apply Qdiv_ge_iff; [exact Tp|]. change (inject_Z 1) with 1%Q. lra.
    - exact Q2.
    - rewrite Ec in Ec'. inversion Ec'. subst c'. exact Lc'. }
  cbn [rounded]. rewrite Ec.
  (* the product by 100 *)
  unfold mul64. cbn [mul rounded ofZ].
  assert (Mt : (this (c * Q2Qc (inject_Z 100))%Qc == this c * (100 # 1))%Q)
    by (rewrite this_mult, this_ofZ; reflexivity).
  change (inject_Z (2 ^ 54)) with (18014398509481984 # 1)%Q in *.
  change (inject_Z (- 2 ^ 54)) with (-18014398509481984 # 1)%Q in *.
  destruct (@round64_range (- 2 ^ 61) (2 ^ 61) (c * Q2Qc (inject_Z 100))%Qc N61 B61)
    as [p [Ep [Lp Up]]].
  { rewrite Mt. change (inject_Z (- 2 ^ 61)) with (-2305843009213693952 # 1)%Q. lra. }
  { rewrite Mt. change (inject_Z (2 ^ 61)) with (2305843009213693952 # 1)%Q. lra. }
  exists p. split; [exact Ep|]. split.
  - intro H. specialize (C0 H).
    destruct (@round64_range (- 2 ^ 61) 0 (c * Q2Qc (inject_Z 100))%Qc N61 E0)
      as [p' [Ep' [_ Up']]].
    + rewrite Mt. change (inject_Z (- 2 ^ 61)) with (-2305843009213693952 # 1)%Q. lra.
    + rewrite Mt. change (inject_Z 0) with 0%Q. lra.
    + rewrite Ep in Ep'. inversion Ep'. subst p'. exact Up'.
  - intro H. specialize (C1 H).
    destruct (@round64_range 100 (2 ^ 61) (c * Q2Qc (inject_Z 100))%Qc E100 B61)
      as [p' [Ep' [Lp' _]]].
    + rewrite Mt. change (inject_Z 100) with (100 # 1)%Q. lra.
    + rewrite Mt. change (inject_Z (2 ^ 61)) with (2305843009213693952 # 1)%Q. lra.
    + rewrite Ep in Ep'. inversion Ep'. subst p'. exact Lp'.
Qed.

Lemma clamp_low (p : Qc) : (this p <= 0)%Q -> Spec.clamp (Fin p) = ofZ 0.
Proof.
  intro H. unfold Spec.clamp, lt, ofZ.
  destruct (Qcltb p (Q2Qc (inject_Z 0))) eqn:L; [reflexivity|].
  apply Qcltb_false in L. unfold Qcle in L. rewrite this_0 in L.
  assert (E : p = Q2Qc (inject_Z 0)).
  { apply Qc_is_canon. rewrite this_0. lra. }
  subst p. reflexivity.
Qed.

Lemma clamp_high (p : Qc) : (inject_Z 100 <= this p)%Q -> Spec.clamp (Fin p) = ofZ 100.
Proof.
  intro H. change (inject_Z 100) with (100 # 1)%Q in H.
  unfold Spec.clamp, lt, ofZ.
  destruct (Qcltb p (Q2Qc (inject_Z 0))) eqn:L.
  { apply Qcltb_lt in L. unfold Qclt in L. rewrite this_0 in L. lra. }
  destruct (Qcltb (Q2Qc (inject_Z 100)) p) eqn:G; [reflexivity|].
  apply Qcltb_false in G. unfold Qcle in G. rewrite this_100 in G.
  change (inject_Z 100) with (100 # 1)%Q in G.
  f_equal. apply Qc_is_canon. rewrite this_100.
  change (inject_Z 100) with (100 # 1)%Q. lra.
Qed.

(** The exact elapsed percentage as a quotient. *)
Lemma elapsedPercent_value (today s e : Z) :
  (s < e)%Z ->
  (this (Spec.elapsedPercent today s e)
   == 100 * inject_Z (today - s) / inject_Z (e - s))%Q.
Proof.
  intro H. unfold Spec.elapsedPercent. cbn [this Q2Qc]. rewrite Qred_correct.
  rewrite <- (Z2Pos.id (e - s)) at 2 by lia.
  rewrite Qmake_Qdiv, inject_Z_mult. change (inject_Z 100) with 100%Q.
  field. change 0%Q with (inject_Z 0). rewrite inject_Z_injective.
  rewrite Z2Pos.id by lia. lia.
Qed.

(** Between start and end the machine is within 2^-44 of the exact
    percentage. *)
Lemma elapsed64_accuracy (today s e : Z) :
  Spec.validTime today -> Spec.validTime s -> Spec.validTime e ->
  (s < today)%Z -> (today <= e)%Z ->
  exists p, Spec.elapsed64 today s e = Fin p
    /\ (this p - this (Spec.elapsedPercent today s e) <= 1 # 17592186044416)%Q
    /\ (this (Spec.elapsedPercent today s e) - this p <= 1 # 17592186044416)%Q.
Proof.
  unfold Spec.validTime. intros Vt Vs Ve H1 H2.
  pose proof (@elapsedPercent_value today s e ltac:(lia)) as EP.
  unfold Spec.elapsed64. rewrite !sub64_ofZ.
  set (d1 := (today - s)%Z) in *. set (d2 := (e - s)%Z) in *.
  assert (D1 : (1 <= d1 <= d2)%Z) by (unfold d1, d2; lia).
  assert (D2 : (d2 <= 2 ^ 54)%Z) by (unfold d2; lia).
  assert (Lo : (pow2 (-1022) <= 1 # 36028797018963968)%Q).
  { change (1 # 36028797018963968)%Q with (pow2 (-55)). apply pow2_le. lia. }
  assert (Hi : ((2305843009213693952 # 1) <= pow2 1023)%Q).
  { change (2305843009213693952 # 1)%Q with (pow2 61). apply pow2_le. lia. }
  assert (I1 : (1 <= inject_Z d1)%Q) by (change 1%Q with (inject_Z 1); rewrite <- Zle_Qle; lia).
  assert (I2 : (inject_Z d1 <= inject_Z d2)%Q) by (rewrite <- Zle_Qle; lia).
  assert (I3 : (inject_Z d2 <= 18014398509481984 # 1)%Q)
    by (change (18014398509481984 # 1)%Q with (inject_Z (2 ^ 54)); rewrite <- Zle_Qle; lia).
  destruct (@range_relative (Q2Qc (inject_Z d1)) 1 (18014398509481984 # 1))
    as [a [Ea [Ua La]]]; try (rewrite this_ofZ); try lra.
  destruct (@range_relative (Q2Qc (inject_Z d2)) 1 (18014398509481984 # 1))
    as [t [Et [Ut Lt]]]; try (rewrite this_ofZ); try lra.
  rewrite this_ofZ in Ua, La, Ut, Lt.
  rewrite Ea, Et.
  set (x1 := inject_Z d1) in *. set (x2 := inject_Z d2) in *.
  assert (T0 : Qceqb t (Q2Qc 0) = false).
  { unfold Qceqb. destruct (t ?= Q2Qc 0)%Qc eqn:C; trivial.
    exfalso. apply Qceq_alt in C. rewrite C in Lt. cbn in Lt. lra. }
  unfold div64. cbn [div rounded]. change 0%Qc with (Q2Qc 0). rewrite T0.
  assert (Qt : (this (a / t)%Qc == this a / this t)%Q) by apply this_div.
  assert (Tp : (0 < this t)%Q) by lra.
  set (w := this (a / t)%Qc) in *.
  assert (W : (w * this t == this a)%Q).
  { rewrite Qt. field. lra. }
  assert (W0 : (0 <= w)%Q).
  { rewrite Qt. apply Qdiv_ge_iff; [exact Tp|]. lra. }
  (* bounds of the quotient *)
  assert (B1 : (w * x2 * (1 - (1 # 9007199254740992)) <= w * this t)%Q) by nra.
  assert (B2 : (w * this t <= w * x2 * (1 + (1 # 9007199254740992)))%Q) by nra.
  set (y := (w * x2)%Q) in *.
  assert (Wl : ((1 # 36028797018963968) <= w)%Q).
  { rewrite Qt. apply Qdiv_ge_iff; [exact Tp|]. lra. }
  assert (Wh : (w <= 2)%Q).
  { rewrite Qt. apply Qdiv_le_iff; [exact Tp|]. lra. }
  destruct (@range_relative (a / t)%Qc (1 # 36028797018963968) (18014398509481984 # 1))
    as [c [Ec [Uc Lc]]]; try (fold w); try lra.
  fold w in Uc, Lc. cbn [rounded]. rewrite Ec.
  unfold mul64. cbn [mul rounded ofZ].
  assert (Mt : (this (c * Q2Qc (inject_Z 100))%Qc == this c * 100)%Q)
    by (rewrite this_mult, this_ofZ; reflexivity).
  destruct (@range_relative (c * Q2Qc (inject_Z 100))%Qc
              (1 # 36028797018963968) (2305843009213693952 # 1))
    as [p [Ep [Up Lp]]]; try (rewrite Mt); try lra.
  rewrite Mt in Up, Lp.
  exists p. split; [exact Ep|]. rewrite EP.
  assert (X2 : (0 < x2)%Q) by lra.
  assert (C1 : (this c * x2 <= (1 + (1 # 9007199254740992)) * y)%Q) by (unfold y; nra).
  assert (C2 : ((1 - (1 # 9007199254740992)) * y <= this c * x2)%Q) by (unfold y; nra).
  set (z := (this c * x2)%Q) in *.
  assert (P1 : (this p * x2 <= (1 + (1 # 9007199254740992)) * (100 * z))%Q) by (unfold z; nra).
  assert (P2 : ((1 - (1 # 9007199254740992)) * (100 * z) <= this p * x2)%Q) by (unfold z; nra).
  set (P := (this p * x2)%Q) in *.
  assert (G1 : (P - 100 * x1 <= (1 # 17592186044416) * x2)%Q) by lra.
  assert (G2 : (100 * x1 - P <= (1 # 17592186044416) * x2)%Q) by lra.
  assert (F : (100 * x1 / x2 * x2 == 100 * x1)%Q) by (field; lra).
  split.
  - assert (K : ((this p - 100 * x1 / x2) * x2 <= (1 # 17592186044416) * x2)%Q).
    { setoid_replace ((this p - 100 * x1 / x2) * x2)%Q with (P - 100 * x1)%Q
        by (unfold P; field; lra). exact G1. }
    apply Qmult_le_r in K; assumption.
  - assert (K : ((100 * x1 / x2 - this p) * x2 <= (1 # 17592186044416) * x2)%Q).
    { setoid_replace ((100 * x1 / x2 - this p) * x2)%Q with (100 * x1 - P)%Q
        by (unfold P; field; lra). exact G2. }
    apply Qmult_le_r in K; assumption.
Qed.

Lemma clampPercent_cases (q : Qc) :
  ((this q <= 0)%Q /\ Spec.clampPercent q = Q2Qc (inject_Z 0))
  \/ ((100 <= this q)%Q /\ Spec.clampPercent q = Q2Qc (inject_Z 100))
  \/ ((0 <= this q)%Q /\ (this q <= 100)%Q /\ Spec.clampPercent q = q).
Proof.
  unfold Spec.clampPercent.
  destruct (Qcltb q (Q2Qc (inject_Z 0))) eqn:L.
  { left. apply Qcltb_lt in L. unfold Qclt in L. rewrite this_0 in L.
    split; [lra|reflexivity]. }
  apply Qcltb_false in L. unfold Qcle in L. rewrite this_0 in L.
  destruct (Qcltb (Q2Qc (inject_Z 100)) q) eqn:G.
  { right. left. apply Qcltb_lt in G. unfold Qclt in G. rewrite this_100 in G.
    change (inject_Z 100) with 100%Q in G. split; [lra|reflexivity]. }
  apply Qcltb_false in G. unfold Qcle in G. rewrite this_100 in G.
  change (inject_Z 100) with 100%Q in G. right. right. auto.
Qed.

Lemma clamp_Fin (p : Qc) : Spec.clamp (Fin p) = Fin (Spec.clampPercent p).
Proof. rewrite <- max_min_is_clamp. apply max_min_clamp. Qed.

Lemma clamp_accuracy (today s e : Z) :
  Spec.validTime today -> Spec.validTime s -> Spec.validTime e -> (s < e)%Z ->
  exists p, Spec.clamp (Spec.elapsed64 today s e) = Fin p
    /\ (this p - this (Spec.clampPercent (Spec.elapsedPercent today s e))
        <= 1 # 17592186044416)%Q
    /\ (this (Spec.clampPercent (Spec.elapsedPercent today s e)) - this p
        <= 1 # 17592186044416)%Q.
Proof.
  intros Vt Vs Ve H.
  pose proof (@elapsedPercent_value today s e H) as EP.
  assert (D2 : (0 < inject_Z (e - s))%Q)
    by (change 0%Q with (inject_Z 0); rewrite <- Zlt_Qlt; lia).
  destruct (elapsed64_cases Vt Vs Ve H) as [_ [p [E [Lo Hi]]]].
  destruct (Z.le_gt_cases today s) as [C1|C1];
    [|destruct (Z.le_gt_cases e today) as [C2|C2]].
  - (* up to the start *)
    rewrite E, (@clamp_low p (Lo C1)).
    assert (X : (this (Spec.elapsedPercent today s e) <= 0)%Q).
    { rewrite EP. apply Qdiv_le_iff; [exact D2|]. rewrite Qmult_0_l.
      assert (inject_Z (today - s) <= 0)%Q
        by (change 0%Q with (inject_Z 0); rewrite <- Zle_Qle; lia).
      lra. }
    exists (Q2Qc (inject_Z 0)). split; [reflexivity|]. rewrite this_0.
    destruct (clampPercent_cases (Spec.elapsedPercent today s e))
      as [[A ->]|[[A ->]|[A [B ->]]]];
      rewrite ?this_0, ?this_100; change (inject_Z 0) with 0%Q;
      change (inject_Z 100) with 100%Q; split; lra.
  - (* from the end on *)
    rewrite E, (@clamp_high p (Hi C2)).
    assert (X : (100 <= this (Spec.elapsedPercent today s e))%Q).
    { rewrite EP. apply Qdiv_ge_iff; [exact D2|].
      assert (inject_Z (e - s) <= inject_Z (today - s))%Q
        by (rewrite <- Zle_Qle; lia).
      lra. }
    exists (Q2Qc (inject_Z 100)). split; [reflexivity|]. rewrite this_100.
    destruct (clampPercent_cases (Spec.elapsedPercent today s e))
      as [[A ->]|[[A ->]|[A [B ->]]]];
      rewrite ?this_0, ?this_100; change (inject_Z 0) with 0%Q;
      change (inject_Z 100) with 100%Q; split; lra.
  - (* in between *)
    destruct (@elapsed64_accuracy today s e Vt Vs Ve ltac:(lia) ltac:(lia))
      as [p' [E' [A1 A2]]].
    rewrite E in E'. inversion E'. subst p'. clear E'.
    rewrite E, clamp_Fin. exists (Spec.clampPercent p). split; [reflexivity|].
    assert (X0 : (0 <= this (Spec.elapsedPercent today s e))%Q).
    { rewrite EP. apply Qdiv_ge_iff; [exact D2|]. rewrite Qmult_0_l.
      assert (0 <= inject_Z (today - s))%Q
        by (change 0%Q with (inject_Z 0); rewrite <- Zle_Qle; lia).
      lra. }
    assert (X1 : (this (Spec.elapsedPercent today s e) <= 100)%Q).
    { rewrite EP. apply Qdiv_le_iff; [exact D2|].
      assert (inject_Z (today - s) <= inject_Z (e - s))%Q
        by (rewrite <- Zle_Qle; lia).
      lra. }
    destruct (clampPercent_cases (Spec.elapsedPercent today s e))
      as [[A Ex]|[[A Ex]|[A [B Ex]]]];
      destruct (clampPercent_cases p) as [[Ap ->]|[[Ap ->]|[Ap [Bp ->]]]];
      rewrite Ex, ?this_0, ?this_100; change (inject_Z 0) with 0%Q;
      change (inject_Z 100) with 100%Q; split; lra.
Qed.

(** C3.  With both dates present and start <= end, the progress of the
    timeline is, for an interval of positive duration, the elapsed
    fraction (today - start) / (end - start) as a percentage, computed in
    binary64 and clamped to [0, 100]: it is a number from 0 to 100, 0 up
    to the start and 100 from the end on, and it is within 2^-44 of the
    exact percentage clamped to [0, 100].  For a zero duration it is 100
    when today >= end and 0 otherwise; in particular it is 100 when today
    is the shared start and end date.  Seven days into a hundred the
    machine gives 7.000000000000001. *)
Theorem timeline_progress_elapsed (today s e : Z) :
  Spec.validTime today -> Spec.validTime s -> Spec.validTime e -> (s <= e)%Z ->
  let progress :=
    PresentationView.timelineProgress today (Some (Some s)) (Some (Some e)) in
  progress =
    (if (s <? e)%Z then Spec.clamp (Spec.elapsed64 today s e)
     else if (e <=? today)%Z then ofZ 100 else ofZ 0)
  /\ Spec.isPercentage progress
  /\ ((s < e)%Z -> (today <= s)%Z -> progress = ofZ 0)
  /\ ((s < e)%Z -> (e <= today)%Z -> progress = ofZ 100)
  /\ ((s < e)%Z ->
      exists p, progress = Fin p
        /\ (this p - this (Spec.clampPercent (Spec.elapsedPercent today s e))
            <= 1 # 17592186044416)%Q
        /\ (this (Spec.clampPercent (Spec.elapsedPercent today s e)) - this p
            <= 1 # 17592186044416)%Q)
  /\ PresentationView.timelineProgress e (Some (Some e)) (Some (Some e)) = ofZ 100
  /\ PresentationView.timelineProgress (7 * PresentationView.oneDay)
       (Some (Some 0%Z)) (Some (Some (100 * PresentationView.oneDay)%Z))
     = ofQ (7881299347898369 # 1125899906842624)%Q.
Proof.
  intros Vt Vs Ve Hse progress.
  assert (Z0 : forall t x, PresentationView.timelineProgress t
                 (Some (Some x)) (Some (Some x))
               = if (x <=? t)%Z then ofZ 100 else ofZ 0).
  { intros t x. unfold PresentationView.timelineProgress.
    cbn [PresentationView.timeValue]. rewrite le_ofZ, Z.leb_refl.
    rewrite sub64_ofZ, Z.sub_diag.
    replace (round64 (Q2Qc (inject_Z 0))) with (ofZ 0)
      by (symmetry; apply round64_ofZ; lia).
    unfold gt, ge. rewrite lt_ofZ, le_ofZ. reflexivity. }
  assert (G : progress =
    (if (s <? e)%Z then Spec.clamp (Spec.elapsed64 today s e)
     else if (e <=? today)%Z then ofZ 100 else ofZ 0)).
  { destruct (Z.ltb_spec s e) as [Hlt|Hge].
    - unfold progress, PresentationView.timelineProgress.
      cbn [PresentationView.timeValue]. rewrite le_ofZ.
      destruct (Z.leb_spec s e) as [_|]; [|lia].
      destruct (elapsed64_cases Vt Vs Ve Hlt) as [P _]. rewrite P.
      apply max_min_is_clamp.
    - assert (E : s = e) by lia. subst s. apply Z0. }
  split; [exact G|]. split; [|split; [|split; [|split; [|split]]]].
  - rewrite G. destruct (Z.ltb_spec s e) as [Hlt|Hge].
    + destruct (elapsed64_cases Vt Vs Ve Hlt) as [_ [p [E _]]].
      rewrite E, <- max_min_is_clamp. apply clamp_stores_percentage. discriminate.
    + destruct (e <=? today)%Z;
        (apply isPercentage_bounds; eexists; split; [reflexivity|]);
        rewrite this_ofZ; split; unfold Qle; simpl; lia.
  - intros Hlt H. rewrite G. destruct (Z.ltb_spec s e); [|lia].
    destruct (elapsed64_cases Vt Vs Ve Hlt) as [_ [p [E [L _]]]].
    rewrite E. apply clamp_low. now apply L.
  - intros Hlt H. rewrite G. destruct (Z.ltb_spec s e); [|lia].
    destruct (elapsed64_cases Vt Vs Ve Hlt) as [_ [p [E [_ U]]]].
    rewrite E. apply clamp_high. now apply U.
  - intro Hlt. rewrite G. destruct (Z.ltb_spec s e); [|lia].
    now apply clamp_accuracy.
  - rewrite Z0, Z.leb_refl. reflexivity.
  - exact_double.
Qed.

(** Half way through a ten-day interval the progress is 50. *)
Lemma timeline_progress_elapsed_witness :
  PresentationView.timelineProgress 432000000
    (Some (Some 0%Z)) (Some (Some 864000000%Z))
  = Spec.clamp (Spec.elapsed64 432000000 0 864000000).
Proof.
  refine (proj1 (@timeline_progress_elapsed 432000000 0 864000000 _ _ _ _));
    unfold Spec.validTime; lia.
Defined.

End Timeline.

(** ** Hours risk colour *)

Section HoursRisk.

Lemma colours_distinct :
  Spec.exceeded <> Spec.atRisk /\ Spec.exceeded <> Spec.normal
  /\ Spec.atRisk <> Spec.normal.
Proof. repeat split; discriminate. Qed.

(** C4.  For a BU bucket with sold > 0 the colour is "exceeded" exactly
    when used > sold, otherwise "at-risk" when used / sold >= 0.8 and
    "normal" when not; with sold = 0 it is "normal" whatever used is; and
    sold = used = 100 gives "at-risk", not "exceeded". *)
Theorem hours_risk_colour (sold used : number) :
  (gt sold (ofZ 0) = true ->
     (PresentationView.cellColor sold used = Spec.exceeded <-> gt used sold = true)
     /\ (gt used sold = false -> ge (div used sold) (ofQ (8 # 10)%Q) = true ->
         PresentationView.cellColor sold used = Spec.atRisk)
     /\ (gt used sold = false -> ge (div used sold) (ofQ (8 # 10)%Q) = false ->
         PresentationView.cellColor sold used = Spec.normal))
  /\ PresentationView.cellColor (ofZ 0) used = Spec.normal
  /\ PresentationView.cellColor (ofZ 100) (ofZ 100) = Spec.atRisk
  /\ PresentationView.cellColor (ofZ 100) (ofZ 100) <> Spec.exceeded.
Proof.
  repeat split.
  - unfold PresentationView.cellColor. rewrite H.
    destruct (gt used sold); trivial.
    destruct (ge (div used sold) (ofQ (8 # 10))); discriminate.
  - intro G. unfold PresentationView.cellColor. now rewrite H, G.
  - intros G R. unfold PresentationView.cellColor. now rewrite H, G, R.
  - intros G R. unfold PresentationView.cellColor. now rewrite H, G, R.
  - discriminate.
Qed.

Lemma hours_risk_colour_witness :
  gt (ofZ 100) (ofZ 0) = true /\
  (PresentationView.cellColor (ofZ 100) (ofZ 120) = Spec.exceeded
   <-> gt (ofZ 120) (ofZ 100) = true).
Proof.
  split; [reflexivity|].
  exact (proj1 (proj1 (hours_risk_colour (ofZ 100) (ofZ 120)) eq_refl)).
Defined.

End HoursRisk.

(** ** Overall step progress *)

Section OverallProgress.

Lemma reduce_steps (l : list DetailedProjectStep) (a : number) :
  fold_left (fun acc s => add acc (step_perc s)) l a =
  fold_left add (map step_perc l) a.
Proof.
  revert a. induction l as [|x l IH]; intro a; simpl; [reflexivity|apply IH].
Qed.

Lemma mean_of_steps (l : list DetailedProjectStep) :
  (if (0 <? List.length l)%nat
   then div (fold_left (fun acc s => add acc (step_perc s)) l (ofZ 0))
            (ofZ (Z.of_nat (List.length l)))
   else ofZ 0) = Spec.mean (map step_perc l).
Proof.
  destruct l as [|x l]; [reflexivity|].
  cbn [List.length Nat.ltb Nat.leb]. unfold Spec.mean.
  rewrite reduce_steps, reduce_sum, length_map. reflexivity.
Qed.

Lemma monitoring_mean (l : list DetailedProjectStep) :
  MonitoringView.overallProgress l =
  Spec.mean (map step_perc
               (filter (fun s => negb (eqs (trim (step_name s)) [])) l)).
Proof.
  unfold MonitoringView.overallProgress.
  rewrite <- mean_of_steps.
  destruct (filter _ l); reflexivity.
Qed.

(** C2.  The three computations of the overall progress of one project
    do not agree.  The slide and the risk-analysis prompt average the
    percentages of all the steps; the monitoring view first drops the
    steps whose trimmed name is empty.  For the project with an unnamed
    step at 100% and a step "A" at 0% the slide and the prompt give 50,
    printed "50.0%", and the monitoring view gives 0, printed "0.0%";
    every sum and quotient involved is a binary64 number, so the machine
    computes these very values.  In general the prompt computes what the
    slide computes, and the monitoring view computes what the slide
    computes for the project without its unnamed steps.  The project is
    one the monitoring form stores: it is what saving the draft reached
    by the edits of [Inputs.unnamedStepDraft] adds to the stored
    projects. *)
Theorem overall_progress_differs_between_views (largeToString : Qc -> jstring) :
  let proj := Inputs.unnamedStepProject in
  (exists d, Inputs.unnamedStepDraft = Some d
     /\ MonitoringView.handleSave (lit "1") d
          {| MonitoringView.projects := [];
             MonitoringView.selectedProjectId := lit "new" |}
        = ({| MonitoringView.projects := [proj];
              MonitoringView.selectedProjectId := lit "1" |},
           MonitoringView.Saved)
     /\ MonitoringView.overallProgress (MonitoringView.d_steps d) = ofZ 0)
  /\ PresentationView.overallProgress proj = ofZ 50
  /\ GeminiService.overallProgress proj = ofZ 50
  /\ MonitoringView.overallProgress (steps proj) = ofZ 0
  /\ MonitoringView.overallProgress (steps proj)
     <> PresentationView.overallProgress proj
  /\ toFixed largeToString 1 (PresentationView.overallProgress proj) ++ lit "%"
     = lit "50.0%"
  /\ toFixed largeToString 1 (GeminiService.overallProgress proj) ++ lit "%"
     = lit "50.0%"
  /\ toFixed largeToString 1 (MonitoringView.overallProgress (steps proj)) ++ lit "%"
     = lit "0.0%"
  /\ div64 (add64 (add64 (ofZ 0) (ofZ 100)) (ofZ 0)) (ofZ 2) = ofZ 50
  /\ div64 (add64 (ofZ 0) (ofZ 0)) (ofZ 1) = ofZ 0
  /\ (forall p, GeminiService.overallProgress p = PresentationView.overallProgress p)
  /\ (forall p,
        MonitoringView.overallProgress (steps p) =
        PresentationView.overallProgress
          {| id := id p; name := name p; start := start p; end_ := end_ p;
             steps := filter (fun s => negb (eqs (trim (step_name s)) [])) (steps p);
             soldHours := soldHours p; usedHours := usedHours p |}).
Proof.
  intro proj.
  assert (P : PresentationView.overallProgress proj = ofZ 50)
    by (apply number_eqb_eq; vm_compute; reflexivity).
  assert (G : GeminiService.overallProgress proj = ofZ 50)
    by (apply number_eqb_eq; vm_compute; reflexivity).
  assert (V : MonitoringView.overallProgress (steps proj) = ofZ 0)
    by (apply number_eqb_eq; vm_compute; reflexivity).
  split.
  { eexists. split; [reflexivity|]. split; [reflexivity|exact V]. }
  split; [exact P|]. split; [exact G|]. split; [exact V|].
  split.
  { rewrite P, V. intro H. apply (f_equal (number_eqb (ofZ 0))) in H.
    vm_compute in H. discriminate. }
  rewrite P, G, V.
  split; [reflexivity|]. split; [reflexivity|]. split; [reflexivity|].
  split; [apply number_eqb_eq; vm_compute; reflexivity|].
  split; [apply number_eqb_eq; vm_compute; reflexivity|].
  split; [reflexivity|].
  intro p. unfold MonitoringView.overallProgress, PresentationView.overallProgress.
  cbn [steps]. destruct (filter _ (steps p)); reflexivity.
Qed.

End OverallProgress.

(** ** The aggregator *)

Section Aggregator.

Variable largeToString : Qc -> jstring.

Lemma numbers_present (data : list Project) :
  numbers (map perc data) = Spec.presentPercents data.
Proof.
  induction data as [|p data IH]; [reflexivity|].
  unfold Spec.presentPercents in *. simpl.
  destruct (perc p); simpl; now rewrite IH.
Qed.

Lemma avg_mean (data : list Project) :
  DashboardView.avg data = Spec.mean (Spec.presentPercents data).
Proof.
  unfold DashboardView.avg, DashboardView.percValues.
  rewrite numbers_present, reduce_sum.
  destruct (Spec.presentPercents data); reflexivity.
Qed.

Lemma present_filter (data : list Project) :
  Spec.presentPercents
    (filter (fun p => match perc p with Some _ => true | None => false end) data)
  = Spec.presentPercents data.
Proof.
  unfold Spec.presentPercents.
  induction data as [|p data IH]; [reflexivity|].
  simpl. destruct (perc p) eqn:E; simpl; rewrite ?E; simpl; now rewrite IH.
Qed.

Lemma present_none (data : list Project) :
  Forall (fun p => perc p = None) data -> Spec.presentPercents data = [].
Proof.
  unfold Spec.presentPercents.
  induction 1 as [|p l Hp _ IH]; [reflexivity|]. simpl. now rewrite Hp.
Qed.

Lemma filteredProjects_all (projects : list Project) :
  DashboardView.filteredProjects projects [] [] [] = projects.
Proof.
  unfold DashboardView.filteredProjects. simpl.
  induction projects as [|p l IH]; simpl; now rewrite ?IH.
Qed.

(** *** One decimal place *)

Lemma lit_cons (c : ascii) (s : string) : lit (String c s) = N_of_ascii c :: lit s.
Proof. reflexivity. Qed.

Lemma string_of_uint_digits (u : Decimal.uint) :
  Forall (fun c => isDigit c = true) (lit (NilEmpty.string_of_uint u)).
Proof.
  induction u; cbn [NilEmpty.string_of_uint]; rewrite ?lit_cons;
    constructor; trivial.
Qed.

Lemma digitsOf_digits (n : Z) :
  Forall (fun c => isDigit c = true) (digitsOf n) /\ digitsOf n <> [].
Proof.
  unfold digitsOf, NilZero.string_of_uint.
  destruct (N.to_uint (Z.to_N n)) eqn:E;
    try (split; [rewrite <- E at 1 | cbn [NilEmpty.string_of_uint]; rewrite lit_cons; discriminate]);
    try (rewrite E; apply string_of_uint_digits).
  split; [repeat constructor | discriminate].
Qed.

(** A finite value below 10^21 is printed by [toFixed(1)] as a non-empty
    run of digits, a point and exactly one digit. *)
Lemma toFixedAbs_one_decimal (q : Qc) :
  Qcleb (Q2Qc (inject_Z (10 ^ 21))) q = false ->
  exists a d,
    toFixedAbs largeToString 1 q = a ++ [46%N; d]
    /\ a <> [] /\ Forall (fun c => isDigit c = true) (a ++ [d]).
Proof.
  intro H. unfold toFixedAbs. rewrite H.
  set (n := Qfloor _).
  destruct (digitsOf_digits n) as [D NE].
  set (m' := repeat 48%N (2 - List.length (digitsOf n)) ++ digitsOf n).
  assert (Dm : Forall (fun c => isDigit c = true) m').
  { apply Forall_app. split; trivial.
    apply Forall_forall. intros x Hx. apply repeat_spec in Hx. now subst. }
  assert (Lm : 2 <= List.length m').
  { unfold m'. rewrite length_app, repeat_length. lia. }
  destruct (exists_last (l := m')) as [a [d E]].
  { intro Z0. rewrite Z0 in Lm. simpl in Lm. lia. }
  exists a, d.
  assert (La : List.length m' - 1 = List.length a).
  { rewrite E, length_app. simpl. lia. }
  rewrite La. rewrite E at 1 2.
  rewrite firstn_app, Nat.sub_diag, firstn_all, firstn_O, app_nil_r.
  rewrite skipn_app, Nat.sub_diag, skipn_all. simpl.
  split; [reflexivity|]. split.
  - intro Z0. subst a. rewrite E in Lm. simpl in Lm. lia.
  - now rewrite <- E.
Qed.

Lemma fold_add64 (xs : list number) (a : number) :
  fold_left add64 xs a = Spec.sumFrom a xs.
Proof.
  revert a. induction xs as [|x xs IH]; intro a; [reflexivity|apply IH].
Qed.

Lemma avg64_mean64 (data : list Project) :
  DashboardView.avg64 data = Spec.mean64 (Spec.presentPercents data).
Proof.
  unfold DashboardView.avg64, DashboardView.percValues.
  rewrite numbers_present, fold_add64.
  destruct (Spec.presentPercents data); reflexivity.
Qed.

(** Percentages add up, in binary64, to at most 100 each. *)
Lemma sumFrom_percentages (xs : list number) (a : Qc) (k : Z) :
  Forall Spec.isPercentage xs ->
  (0 <= k)%Z -> (100 * (k + Z.of_nat (List.length xs)) <= 2 ^ 53)%Z ->
  (0 <= this a)%Q -> (this a <= inject_Z (100 * k))%Q ->
  exists t, Spec.sumFrom (Fin a) xs = Fin t
            /\ (0 <= this t)%Q
            /\ (this t <= inject_Z (100 * (k + Z.of_nat (List.length xs))))%Q.
Proof.
  intro F. revert a k. induction F as [|x xs Hx _ IH]; intros a k Hk Hn La Ua.
  - exists a. cbn [Spec.sumFrom List.length]. rewrite Z.add_0_r. auto.
  - apply isPercentage_bounds in Hx. destruct Hx as [qx [-> [Lx Ux]]].
    cbn [List.length] in Hn |- *. rewrite Nat2Z.inj_succ in Hn |- *.
    cbn [Spec.sumFrom]. unfold add64. cbn [add rounded].
    assert (E0 : round64 (Q2Qc (inject_Z 0)) = ofZ 0) by (apply round64_ofZ; lia).
    assert (E1 : round64 (Q2Qc (inject_Z (100 * (k + 1)))) = ofZ (100 * (k + 1)))
      by (apply round64_ofZ; lia).
    assert (I : (inject_Z (100 * (k + 1)) == inject_Z (100 * k) + inject_Z 100)%Q).
    { rewrite <- inject_Z_plus. apply inject_Z_injective. lia. }
    destruct (@round64_range 0 (100 * (k + 1)) (a + qx)%Qc E0 E1) as [t [Et [Lt Ut]]].
    + rewrite this_plus. change (inject_Z 0) with 0%Q.
      change (0 <= this qx)%Q in Lx. lra.
    + rewrite this_plus, I. change (this qx <= inject_Z 100)%Q in Ux. lra.
    + rewrite Et.
      destruct (IH t (k + 1)%Z) as [t' [E' [L' U']]]; try lia; trivial.
      exists t'. split; [exact E'|]. split; [exact L'|].
      replace (k + Z.succ (Z.of_nat (List.length xs)))%Z
        with (k + 1 + Z.of_nat (List.length xs))%Z by lia.
      exact U'.
Qed.

(** The binary64 mean of at most 2^32 percentages is a percentage. *)
Lemma mean64_of_percentages (xs : list number) :
  Forall Spec.isPercentage xs ->
  (Z.of_nat (List.length xs) < 2 ^ 32)%Z ->
  Spec.isPercentage (Spec.mean64 xs).
Proof.
  intros F B. destruct xs as [|x xs].
  - apply isPercentage_bounds. exists (Q2Qc (inject_Z 0)).
    split; [reflexivity|]. rewrite this_0. split; [apply Qle_refl|].
    unfold Qle. simpl. lia.
  - set (n := Z.of_nat (List.length (x :: xs))) in *.
    assert (Hn : (0 < n)%Z) by (unfold n; simpl; lia).
    destruct (@sumFrom_percentages (x :: xs) (Q2Qc (inject_Z 0)) 0 F)
      as [t [E [L U]]]; try lia.
    + rewrite this_0. apply Qle_refl.
    + rewrite this_0. apply Qle_refl.
    + fold n in U. rewrite Z.add_0_l in U.
      unfold Spec.mean64. fold n. change (ofZ 0) with (Fin (Q2Qc (inject_Z 0))).
      rewrite E. unfold div64, div, ofZ.
      change (Q2Qc 0) with (Q2Qc (inject_Z 0)). rewrite Qceqb_Z.
      destruct (Z.eqb_spec n 0); [lia|]. cbn [rounded].
      assert (Pn : (0 < inject_Z n)%Q)
        by (change 0%Q with (inject_Z 0); rewrite <- Zlt_Qlt; exact Hn).
      assert (E0 : round64 (Q2Qc (inject_Z 0)) = ofZ 0) by (apply round64_ofZ; lia).
      assert (E1 : round64 (Q2Qc (inject_Z 100)) = ofZ 100) by (apply round64_ofZ; lia).
      destruct (@round64_range 0 100 (t / Q2Qc (inject_Z n))%Qc E0 E1)
        as [r [Er [Lr Ur]]].
      * rewrite this_div, this_ofZ.
        apply Qle_shift_div_l; [exact Pn|]. change (inject_Z 0) with 0%Q.
        rewrite Qmult_0_l. exact L.
      * rewrite this_div, this_ofZ.
        apply Qle_shift_div_r; [exact Pn|]. rewrite <- inject_Z_mult. exact U.
      * rewrite Er. apply isPercentage_bounds. exists r.
        split; [reflexivity|]. split; [exact Lr|exact Ur].
Qed.

(** Each sum of percentages is within 2^-14 of the exact sum per term
    added. *)
Lemma sumFrom_accuracy (xs : list number) (a A : Qc) (j : Z) :
  Forall Spec.isPercentage xs ->
  (0 <= j)%Z -> (j + Z.of_nat (List.length xs) <= 2 ^ 32)%Z ->
  (0 <= this a)%Q -> (this a <= inject_Z (100 * j))%Q ->
  (this a - this A <= inject_Z j * (1 # 16384))%Q ->
  (this A - this a <= inject_Z j * (1 # 16384))%Q ->
  exists t T, Spec.sumFrom (Fin a) xs = Fin t
    /\ fold_left add xs (Fin A) = Fin T
    /\ (this t - this T <= inject_Z (j + Z.of_nat (List.length xs)) * (1 # 16384))%Q
    /\ (this T - this t <= inject_Z (j + Z.of_nat (List.length xs)) * (1 # 16384))%Q.
Proof.
  intro F. revert a A j.
  induction F as [|x xs Hx _ IH]; intros a A j Hj Hn La Ua E1 E2.
  - exists a, A. cbn [Spec.sumFrom fold_left List.length].
    rewrite Z.add_0_r. auto.
  - apply isPercentage_bounds in Hx. destruct Hx as [qx [-> [Lx Ux]]].
    change (0 <= this qx)%Q in Lx. change (this qx <= inject_Z 100)%Q in Ux.
    cbn [List.length] in Hn |- *. rewrite Nat2Z.inj_succ in Hn |- *.
    cbn [Spec.sumFrom fold_left]. unfold add64. cbn [add rounded].
    assert (E0 : round64 (Q2Qc (inject_Z 0)) = ofZ 0) by (apply round64_ofZ; lia).
    assert (Ej : round64 (Q2Qc (inject_Z (100 * (j + 1)))) = ofZ (100 * (j + 1)))
      by (apply round64_ofZ; lia).
    assert (I : (inject_Z (100 * (j + 1)) == inject_Z (100 * j) + inject_Z 100)%Q).
    { rewrite <- inject_Z_plus. apply inject_Z_injective. lia. }
    assert (J : (inject_Z (j + 1) == inject_Z j + 1)%Q).
    { rewrite inject_Z_plus. reflexivity. }
    assert (V : (this (a + qx)%Qc == this a + this qx)%Q) by apply this_plus.
    assert (W : (this (A + qx)%Qc == this A + this qx)%Q) by apply this_plus.
    destruct (@round64_range 0 (100 * (j + 1)) (a + qx)%Qc E0 Ej) as [t [Et [Lt Ut]]].
    + rewrite V. change (inject_Z 0) with 0%Q. lra.
    + rewrite V, I. lra.
    + destruct (@round64_absolute (a + qx)%Qc 39) as [t' [Et' [R1 R2]]].
      * lia.
      * rewrite V. lra.
      * rewrite V. change (pow2 39) with (inject_Z (2 ^ 39)).
        assert (X : (inject_Z (100 * j) + inject_Z 100 <= inject_Z (2 ^ 39))%Q).
        { rewrite <- inject_Z_plus, <- Zle_Qle. lia. }
        lra.
      * rewrite Et in Et'. inversion Et'. subst t'. clear Et'.
        change (pow2 (39 - 53)) with (1 # 16384)%Q in R1, R2.
        rewrite Et.
        destruct (IH t (A + qx)%Qc (j + 1)%Z) as [t2 [T2 [S1 [S2 [B1 B2]]]]];
          try lia.
        -- change (inject_Z 0) with 0%Q in Lt. exact Lt.
        -- exact Ut.
        -- rewrite W, J. rewrite V in R1. lra.
        -- rewrite W, J. rewrite V in R2. lra.
        -- exists t2, T2. split; [exact S1|]. split; [exact S2|].
           replace (j + Z.succ (Z.of_nat (List.length xs)))%Z
             with (j + 1 + Z.of_nat (List.length xs))%Z by lia.
           split; assumption.
Qed.

(** The binary64 mean of fewer than 2^32 percentages is within 2^-13 of
    their exact mean. *)
Lemma mean64_accuracy (xs : list number) :
  Forall Spec.isPercentage xs ->
  (Z.of_nat (List.length xs) < 2 ^ 32)%Z ->
  exists m x, Spec.mean64 xs = Fin m /\ Spec.mean xs = Fin x
    /\ (this m - this x <= 1 # 8192)%Q /\ (this x - this m <= 1 # 8192)%Q.
Proof.
  intros F B. destruct xs as [|x0 xs].
  - exists (Q2Qc (inject_Z 0)), (Q2Qc (inject_Z 0)).
    split; [reflexivity|]. split; [reflexivity|]. rewrite this_0.
    change (inject_Z 0) with 0%Q. split; lra.
  - set (l := x0 :: xs) in *.
    set (n := Z.of_nat (List.length l)) in *.
    assert (Hn : (0 < n)%Z) by (unfold n, l; simpl; lia).
    destruct (@sumFrom_percentages l (Q2Qc (inject_Z 0)) 0 F)
      as [t [E [L U]]]; try lia; try (rewrite this_0; apply Qle_refl).
    fold n in U. rewrite Z.add_0_l in U.
    destruct (@sumFrom_accuracy l (Q2Qc (inject_Z 0)) (Q2Qc (inject_Z 0)) 0 F)
      as [t' [T [E' [ET [A1 A2]]]]]; try lia;
      try (rewrite this_0; change (inject_Z 0) with 0%Q; lra);
      try (rewrite this_0; apply Qle_refl).
    rewrite E in E'. inversion E'. subst t'. clear E'.
    fold n in A1, A2. rewrite Z.add_0_l in A1, A2.
    assert (M64 : Spec.mean64 l = div64 (Fin t) (ofZ n)).
    { unfold Spec.mean64, l. fold l. fold n.
      change (ofZ 0) with (Fin (Q2Qc (inject_Z 0))). now rewrite E. }
    assert (M : Spec.mean l = div (Fin T) (ofZ n)).
    { unfold Spec.mean, l. fold l. fold n. rewrite <- reduce_sum.
      change (ofZ 0) with (Fin (Q2Qc (inject_Z 0))). now rewrite ET. }
    rewrite M64, M. unfold div64, div, ofZ.
    change (Q2Qc 0) with (Q2Qc (inject_Z 0)). rewrite Qceqb_Z.
    destruct (Z.eqb_spec n 0); [lia|]. cbn [rounded].
    assert (Pn : (1 <= inject_Z n)%Q)
      by (change 1%Q with (inject_Z 1); rewrite <- Zle_Qle; lia).
    assert (Dt : (this (t / Q2Qc (inject_Z n))%Qc == this t / inject_Z n)%Q)
      by (rewrite this_div, this_ofZ; reflexivity).
    assert (DT : (this (T / Q2Qc (inject_Z n))%Qc == this T / inject_Z n)%Q)
      by (rewrite this_div, this_ofZ; reflexivity).
    assert (U' : (this t <= 100 * inject_Z n)%Q).
    { rewrite inject_Z_mult in U. exact U. }
    assert (Q1 : (0 <= this t / inject_Z n)%Q).
    { apply Qdiv_ge_iff; [lra|]. lra. }
    assert (Q2 : (this t / inject_Z n <= 100)%Q).
    { apply Qdiv_le_iff; [lra|]. lra. }
    destruct (@round64_absolute (t / Q2Qc (inject_Z n))%Qc 7) as [m [Em [R1 R2]]].
    + lia.
    + rewrite Dt. exact Q1.
    + rewrite Dt. change (pow2 7) with 128%Q. lra.
    + change (pow2 (7 - 53)) with (1 # 70368744177664)%Q in R1, R2.
      rewrite Dt in R1, R2.
      exists m, (T / Q2Qc (inject_Z n))%Qc.
      split; [exact Em|]. split; [reflexivity|]. rewrite DT.
      assert (K1 : (this t / inject_Z n - this T / inject_Z n <= 1 # 16384)%Q).
      { setoid_replace (this t / inject_Z n - this T / inject_Z n)%Q
          with ((this t - this T) / inject_Z n)%Q by (field; lra).
        apply Qdiv_le_iff; [lra|]. lra. }
      assert (K2 : (this T / inject_Z n - this t / inject_Z n <= 1 # 16384)%Q).
      { setoid_replace (this T / inject_Z n - this t / inject_Z n)%Q
          with ((this T - this t) / inject_Z n)%Q by (field; lra).
        apply Qdiv_le_iff; [lra|]. lra. }
      split; lra.
Qed.

(** Whole percentages add up without rounding. *)
Lemma sumFrom_whole (xs : list number) (a : Z) :
  Forall Spec.wholePercent xs ->
  (0 <= a)%Z -> (a + 100 * Z.of_nat (List.length xs) <= 2 ^ 53)%Z ->
  exists t, Spec.sumFrom (ofZ a) xs = ofZ t
            /\ fold_left add xs (ofZ a) = ofZ t
            /\ (0 <= t <= a + 100 * Z.of_nat (List.length xs))%Z.
Proof.
  intro F. revert a. induction F as [|x xs [z [Ex Hz]] _ IH]; intros a Ha Hb.
  - exists a. cbn [List.length] in *. repeat split; lia.
  - cbn [List.length] in Hb. rewrite Nat2Z.inj_succ in Hb.
    destruct (IH (a + z)%Z) as [t [E1 [E2 Ht]]]; [lia|lia|].
    exists t. cbn [Spec.sumFrom fold_left List.length]. subst x.
    unfold add64. rewrite add_ofZ. cbn [rounded ofZ].
    rewrite round64_ofZ by lia. fold (ofZ (a + z)).
    rewrite Nat2Z.inj_succ. repeat split; try tauto; lia.
Qed.

(** The two lists of twenty percentages the printed average tells
    apart. *)
Lemma nineteen_full_one_started :
  Spec.mean64 (repeat (ofZ 100) 19 ++ [ofZ 1]) = ofQ (6688549134086963 # 70368744177664)%Q
  /\ Spec.mean (repeat (ofZ 100) 19 ++ [ofZ 1]) = ofQ (1901 # 20)%Q.
Proof. split; apply number_eqb_eq; vm_compute; reflexivity. Qed.

(** C6.  The average shown by the dashboard is the arithmetic mean of the
    percentages that are present among the displayed records, as the
    machine computes it: the percentages are added from the first to the
    last and the sum is divided by their count, each operation rounded to
    binary64.  Records without a percentage are dropped (not read as 0),
    the mean is 0 when no percentage is present, and the value is printed
    with [toFixed(1)] and a percent sign: for a finite mean of magnitude
    below 10^21 that is an optional minus sign, digits, a point, one
    digit and "%".  When the percentages are whole numbers from 0 to 100
    the sum is exact and the mean is the exact mean rounded once; when
    they are any numbers from 0 to 100 the mean is within 2^-13 of the
    exact mean.
    Nineteen records at 100 and one at 1 print "95.0%", where the exact
    mean 95.05 would print "95.1%".  For percentages 50, null, 100 the
    average is "75.0%". *)
Theorem average_of_present_percentages
    (projects : list Project) (statusFilter buFilter clientFilter : jstring) :
  let data := DashboardView.filteredProjects projects statusFilter buFilter clientFilter in
  let shown := avgPercent (DashboardView.summary
                 (DashboardView.dashboard largeToString projects
                    statusFilter buFilter clientFilter)) in
  shown = toFixed largeToString 1 (Spec.mean64 (Spec.presentPercents data)) ++ lit "%"
  /\ Spec.presentPercents
       (filter (fun p => match perc p with Some _ => true | None => false end) data)
     = Spec.presentPercents data
  /\ (Forall (fun p => perc p = None) data -> shown = lit "0.0%")
  /\ (forall q, Spec.mean64 (Spec.presentPercents data) = Fin q ->
        Qcleb (Q2Qc (inject_Z (10 ^ 21))) q = false ->
        Qcleb (Q2Qc (inject_Z (10 ^ 21))) (- q)%Qc = false ->
        exists sign a d,
          shown = sign ++ a ++ [46%N; d; 37%N]
          /\ (sign = [] \/ sign = [45%N]) /\ a <> []
          /\ Forall (fun c => isDigit c = true) (a ++ [d]))
  /\ (Forall Spec.wholePercent (Spec.presentPercents data) ->
      (Z.of_nat (List.length (Spec.presentPercents data)) < 2 ^ 32)%Z ->
        Spec.mean64 (Spec.presentPercents data)
        = rounded (Spec.mean (Spec.presentPercents data)))
  /\ (Forall Spec.isPercentage (Spec.presentPercents data) ->
      (Z.of_nat (List.length (Spec.presentPercents data)) < 2 ^ 32)%Z ->
        exists m x,
          Spec.mean64 (Spec.presentPercents data) = Fin m
          /\ Spec.mean (Spec.presentPercents data) = Fin x
          /\ (this m - this x <= 1 # 8192)%Q /\ (this x - this m <= 1 # 8192)%Q)
  /\ (forall l, map perc l = repeat (Some (ofZ 100)) 19 ++ [Some (ofZ 1)] ->
        avgPercent (DashboardView.summary
          (DashboardView.dashboard largeToString l [] [] [])) = lit "95.0%"
        /\ toFixed largeToString 1 (Spec.mean (Spec.presentPercents l)) ++ lit "%"
           = lit "95.1%")
  /\ (forall a b c, perc a = Some (ofZ 50) -> perc b = None ->
        perc c = Some (ofZ 100) ->
        avgPercent (DashboardView.summary
          (DashboardView.dashboard largeToString [a; b; c] [] [] [])) = lit "75.0%"
        /\ Spec.mean64 (Spec.presentPercents [a; b; c]) = ofZ 75
        /\ Spec.mean64 (Spec.percentsOrZero [a; b; c]) = ofZ 50).
Proof.
  intros data shown.
  assert (S : shown = toFixed largeToString 1
                        (Spec.mean64 (Spec.presentPercents data)) ++ lit "%").
  { unfold shown, DashboardView.dashboard. cbn [DashboardView.summary avgPercent].
    fold data. now rewrite avg64_mean64. }
  split; [exact S|].
  split; [apply present_filter|].
  split; [|split; [|split; [|split; [|split]]]].
  - intro F. rewrite S.
    rewrite (present_none F). reflexivity.
  - intros q Hq Hlarge Hsmall. rewrite S, Hq. unfold toFixed.
    destruct (Qcltb q (Q2Qc 0)).
    + destruct (toFixedAbs_one_decimal _ Hsmall) as [a [d [E [NE D]]]].
      exists [45%N], a, d. rewrite E. cbn [app]. rewrite <- app_assoc. auto.
    + destruct (toFixedAbs_one_decimal _ Hlarge) as [a [d [E [NE D]]]].
      exists [], a, d. rewrite E. cbn [app]. rewrite <- app_assoc. auto.
  - intros W L. destruct (Spec.presentPercents data) as [|x xs] eqn:E; [reflexivity|].
    destruct (@sumFrom_whole (x :: xs) 0 W) as [t [E1 [E2 _]]]; [lia|lia|].
    unfold Spec.mean64, Spec.mean. rewrite E1, <- reduce_sum, E2. reflexivity.
  - apply mean64_accuracy.
  - intros l Hl.
    assert (P : Spec.presentPercents l = repeat (ofZ 100) 19 ++ [ofZ 1]).
    { rewrite <- numbers_present, Hl. reflexivity. }
    destruct nineteen_full_one_started as [M64 M].
    split.
    + unfold DashboardView.dashboard. cbn [DashboardView.summary avgPercent].
      rewrite filteredProjects_all, avg64_mean64, P, M64. reflexivity.
    + rewrite P, M. reflexivity.
  - intros a b c Ha Hb Hc.
    assert (P : Spec.presentPercents [a; b; c] = [ofZ 50; ofZ 100])
      by (unfold Spec.presentPercents; simpl; now rewrite Ha, Hb, Hc).
    assert (M : Spec.mean64 (Spec.presentPercents [a; b; c]) = ofZ 75)
      by (rewrite P; apply number_eqb_eq; vm_compute; reflexivity).
    split; [|split; [exact M|]].
    + unfold DashboardView.dashboard. cbn [DashboardView.summary avgPercent].
      rewrite filteredProjects_all, avg64_mean64, M. reflexivity.
    + unfold Spec.percentsOrZero. simpl. rewrite Ha, Hb, Hc.
      apply number_eqb_eq; vm_compute; reflexivity.
Qed.

End Aggregator.

(** Three records with percentages 50, null and 100 print "75.0%". *)
Lemma average_of_present_percentages_witness :
  let r p := {| CLIENTE := lit "Acme"; TIPO_DE_PROJETO := [];
                TIPO_DE_PRODUTO := []; BUs := lit "TI"; C_Custo := lit "1";
                STATUS := lit "EM ANDAMENTO"; perc := p |} in
  avgPercent (DashboardView.summary
    (DashboardView.dashboard (fun _ => [])
       [r (Some (ofZ 50)); r None; r (Some (ofZ 100))] [] [] []))
  = lit "75.0%".
Proof.
  intro r.
  exact (proj1 (proj2 (proj2 (proj2 (proj2 (proj2 (proj2 (proj2
    (average_of_present_percentages (fun _ => [])
       [r (Some (ofZ 50)); r None; r (Some (ofZ 100))] [] [] [])))))))
    (r (Some (ofZ 50))) (r None) (r (Some (ofZ 100)))
    eq_refl eq_refl eq_refl)).
Defined.

(** ** The CSV normalizer *)

Section Normalizer.

Lemma In_dropWhile (f : N -> bool) (c : N) (s : jstring) :
  In c s -> f c = false -> In c (dropWhile f s).
Proof.
  intros Hin Hc. induction s as [|x s IH]; [contradiction|].
  simpl. destruct (f x) eqn:E.
  - destruct Hin as [->|Hin]; [congruence|now apply IH].
  - exact Hin.
Qed.

Lemma dropWhile_incl (f : N -> bool) (c : N) (s : jstring) :
  In c (dropWhile f s) -> In c s.
Proof.
  induction s as [|x s IH]; simpl; [trivial|].
  destruct (f x); [right; now apply IH|trivial].
Qed.

Lemma trim_incl (c : N) (s : jstring) : In c (trim s) -> In c s.
Proof.
  unfold trim, trimEnd, trimStart. intro H.
  apply <- in_rev in H. apply dropWhile_incl in H.
  apply <- in_rev in H. now apply dropWhile_incl in H.
Qed.

Lemma trim_nonempty (c : N) (s : jstring) :
  In c s -> isWhiteSpace c = false -> trim s <> [].
Proof.
  intros Hin Hc. unfold trim, trimEnd, trimStart.
  assert (H : In c (rev (dropWhile isWhiteSpace
                           (rev (dropWhile isWhiteSpace s))))).
  { apply -> in_rev. apply In_dropWhile; trivial.
    apply -> in_rev. now apply In_dropWhile. }
  intro E. rewrite E in H. contradiction.
Qed.

Lemma startsWith_In (p s : jstring) :
  startsWith p s = true -> forall c, In c p -> In c s.
Proof.
  revert s. induction p as [|a p IH]; intros s H c Hc; [contradiction|].
  destruct s as [|b s]; [discriminate|].
  simpl in H. apply andb_true_iff in H. destruct H as [Hab H].
  apply N.eqb_eq in Hab. subst b.
  destruct Hc as [->|Hc]; [now left|right; now apply (IH s H)].
Qed.

Lemma includes_In (p s : jstring) :
  includes p s = true -> forall c, In c p -> In c s.
Proof.
  induction s as [|b s IH]; intros H c Hc; simpl in H.
  - rewrite orb_false_r in H. eapply startsWith_In; eassumption.
  - apply orb_true_iff in H. destruct H as [H|H].
    + eapply startsWith_In; eassumption.
    + right. now apply IH.
Qed.

Lemma headerLine_notBlank (l : jstring) :
  DashboardView.isHeaderLine l = true -> DashboardView.notBlank l = true.
Proof.
  unfold DashboardView.isHeaderLine, DashboardView.notBlank. intro H.
  assert (HC : In 67%N (toUpperCase l))
    by (eapply includes_In; [exact H | now left]).
  apply toUpperCase_C in HC.
  assert (T : trim (removeAll 59%N l) <> []).
  { destruct HC as [HC|HC].
    - apply (@trim_nonempty 67%N); [|reflexivity].
      unfold removeAll. apply filter_In. now split.
    - apply (@trim_nonempty 99%N); [|reflexivity].
      unfold removeAll. apply filter_In. now split. }
  apply Nat.ltb_lt. destruct (trim (removeAll 59%N l)); [congruence|simpl; lia].
Qed.

(** [findIndex] and [slice] locate the header line and what follows. *)
Lemma findIndex_from_break {A} (f : A -> bool) (l : list A) (i : Z) :
  (0 <= i)%Z ->
  match Spec.breakAt f l with
  | None => findIndex_from f l i = (-1)%Z
  | Some (x, r) =>
      (i <= findIndex_from f l i)%Z
      /\ skipn (Z.to_nat (findIndex_from f l i - i)) l = x :: r
  end.
Proof.
  revert i. induction l as [|y l IH]; intros i Hi; simpl; [reflexivity|].
  destruct (f y).
  - split; [lia|]. now rewrite Z.sub_diag.
  - specialize (IH (i + 1)%Z ltac:(lia)).
    destruct (Spec.breakAt f l) as [[x r]|]; [|exact IH].
    destruct IH as [Hle Hs]. split; [lia|].
    replace (Z.to_nat (findIndex_from f l (i + 1) - i))
      with (S (Z.to_nat (findIndex_from f l (i + 1) - (i + 1)))) by lia.
    exact Hs.
Qed.

Lemma rowStep_fold (idxMap : DashboardView.IdxMap) (lines : list jstring)
    (acc : list Project) :
  fold_left (DashboardView.rowStep idxMap) lines acc =
  acc ++ map (Spec.recordOf idxMap) (filter (Spec.identified idxMap) lines).
Proof.
  revert acc. induction lines as [|l lines IH]; intro acc; simpl.
  - now rewrite app_nil_r.
  - rewrite IH. unfold DashboardView.rowStep at 1, Spec.identified at 2.
    cbv zeta.
    destruct (truthy (DashboardView.cellOr (split 59%N l)
                        (DashboardView.idx_cliente idxMap)));
    destruct (truthy (DashboardView.cellOr (split 59%N l)
                        (DashboardView.idx_cCusto idxMap)));
      simpl; rewrite <- ?app_assoc; reflexivity.
Qed.

(** The parser computes the normalizer of the specification. *)
Lemma parseTeleinfoCsv_normalizer (text : jstring) :
  DashboardView.parseTeleinfoCsv text = Spec.normalizer text.
Proof.
  unfold DashboardView.parseTeleinfoCsv, Spec.normalizer, Spec.headerAndRest.
  cbv zeta.
  set (allLines := splitLines (DashboardView.stripBom text)).
  pose proof (@findIndex_from_break _ DashboardView.isHeaderLine allLines 0
                ltac:(lia)) as B.
  fold (JS.findIndex DashboardView.isHeaderLine allLines) in B.
  destruct (Spec.breakAt DashboardView.isHeaderLine allLines) as [[h rest]|] eqn:E.
  - destruct B as [Hpos Hs]. rewrite Z.sub_0_r in Hs.
    destruct (Z.eqb_spec (JS.findIndex DashboardView.isHeaderLine allLines) (-1));
      [lia|].
    unfold slice. rewrite Hs.
    assert (Hh : DashboardView.isHeaderLine h = true).
    { clear - E. induction allLines as [|y l IH]; [discriminate|].
      simpl in E. destruct (DashboardView.isHeaderLine y) eqn:Hy.
      - now inversion E; subst.
      - now apply IH. }
    cbn [filter]. rewrite (headerLine_notBlank _ Hh).
    destruct (filter DashboardView.notBlank rest) as [|b body] eqn:Eb;
      [reflexivity|].
    cbn [List.length Nat.ltb Nat.leb nth skipn].
    fold (Spec.headerTokens h).
    destruct ((DashboardView.idx_cliente
                 (DashboardView.mkIdxMap (Spec.headerTokens h)) =? -1)%Z
              && (DashboardView.idx_cCusto
                    (DashboardView.mkIdxMap (Spec.headerTokens h)) =? -1)%Z);
      [reflexivity|].
    rewrite rowStep_fold. cbn [app].
    destruct (map _ _); reflexivity.
  - rewrite B. reflexivity.
Qed.

End Normalizer.

Section NormalizerClaims.

Lemma findIndex_from_absent {A} (f : A -> bool) (l : list A) (i : Z) :
  (0 <= i)%Z -> (findIndex_from f l i = (-1)%Z <-> existsb f l = false).
Proof.
  revert i. induction l as [|x l IH]; intros i Hi; simpl; [tauto|].
  destruct (f x); simpl.
  - split; [lia|discriminate].
  - apply IH. lia.
Qed.

(** A column is not found exactly when no header token equals its name,
    case-insensitively. *)
Lemma findIndex_absent (headers : list jstring) (name : jstring) :
  (DashboardView.findIndex headers [name] =? -1)%Z = true
  <-> existsb (fun h => eqs (toLowerCase h) (toLowerCase name)) headers = false.
Proof.
  unfold DashboardView.findIndex, JS.findIndex. cbv zeta.
  set (f := fun h => eqs (toLowerCase h) (toLowerCase name)).
  pose proof (@findIndex_from_absent _ f headers 0 ltac:(lia)) as H.
  destruct (Z.eqb_spec (findIndex_from f headers 0) (-1)) as [E|NE];
    cbn [negb].
  - split; [intros _; now apply H|reflexivity].
  - destruct (Z.eqb_spec (findIndex_from f headers 0) (-1)) as [E|_];
      [contradiction|].
    split; [discriminate|]. intro X. apply H in X. contradiction.
Qed.

(** C7.  When the header of the text resolves neither a CLIENTE nor a
    C.Custo column, the parser returns no record and raises exactly one
    alert, a fatal one: the missing-header alert when no line holds
    "CLIENTE" at all, and otherwise the too-few-lines or the
    missing-identity-column alert. *)
Theorem missing_identity_columns_fatal (text : jstring) :
  Spec.resolves text (lit "CLIENTE") = false ->
  Spec.resolves text (lit "C.Custo") = false ->
  fst (DashboardView.parseTeleinfoCsv text) = []
  /\ exists a,
       snd (DashboardView.parseTeleinfoCsv text) = [a]
       /\ DashboardView.fatal a = true
       /\ (Spec.headerAndRest text = None -> a = DashboardView.NoHeaderLine)
       /\ (Spec.headerAndRest text <> None ->
           a = DashboardView.EmptyOrHeaderOnly
           \/ a = DashboardView.NoIdentityColumn).
Proof.
  intros Hc Hk. rewrite parseTeleinfoCsv_normalizer.
  unfold Spec.normalizer, Spec.resolves, Spec.headerNames in *.
  destruct (Spec.headerAndRest text) as [[h rest]|].
  - destruct (filter DashboardView.notBlank rest).
    + split; [reflexivity|]. eexists. repeat split; auto; discriminate.
    + cbn [DashboardView.mkIdxMap DashboardView.idx_cliente
             DashboardView.idx_cCusto].
      rewrite (proj2 (findIndex_absent _ _) Hc), (proj2 (findIndex_absent _ _) Hk).
      split; [reflexivity|]. eexists. repeat split; auto; discriminate.
  - split; [reflexivity|]. eexists. repeat split; auto. congruence.
Qed.

(** A file whose header names the client column "NOME CLIENTE" has a
    header line but neither identity column. *)
Lemma missing_identity_columns_fatal_witness :
  fst (DashboardView.parseTeleinfoCsv
         (lit "NOME CLIENTE;STATUS" ++ [10%N] ++ lit "Acme;OK")) = [].
Proof.
  exact (proj1 (@missing_identity_columns_fatal
                  (lit "NOME CLIENTE;STATUS" ++ [10%N] ++ lit "Acme;OK")
                  eq_refl eq_refl)).
Defined.

Lemma dropWhile_idem (f : N -> bool) (s : jstring) :
  dropWhile f (dropWhile f s) = dropWhile f s.
Proof.
  induction s as [|x s IH]; [reflexivity|].
  simpl. destruct (f x) eqn:E; [exact IH|]. simpl. now rewrite E.
Qed.

Lemma dropWhile_length (f : N -> bool) (s : jstring) :
  List.length (dropWhile f s) <= List.length s.
Proof.
  induction s as [|x s IH]; simpl; [lia|]. destruct (f x); simpl; lia.
Qed.

Lemma dropWhile_fix_prefix (f : N -> bool) (x w : jstring) :
  dropWhile f (x ++ w) = x ++ w -> dropWhile f x = x.
Proof.
  destruct x as [|h t]; [reflexivity|]. simpl.
  destruct (f h); [|reflexivity].
  intro E. pose proof (dropWhile_length f (t ++ w)) as L.
  rewrite E in L. simpl in L. lia.
Qed.

(** A trimmed text is left as it is by [trim]. *)
Lemma trim_idem (s : jstring) : trim (trim s) = trim s.
Proof.
  unfold trim, trimEnd, trimStart.
  set (a := dropWhile isWhiteSpace s).
  assert (Ha : dropWhile isWhiteSpace a = a) by apply dropWhile_idem.
  destruct (dropWhile_suffix isWhiteSpace (rev a)) as [pre E].
  assert (Ea : a = rev (dropWhile isWhiteSpace (rev a)) ++ rev pre).
  { rewrite <- rev_app_distr, <- E. now rewrite rev_involutive. }
  rewrite Ea in Ha. apply dropWhile_fix_prefix in Ha.
  rewrite Ha, rev_involutive, dropWhile_idem. reflexivity.
Qed.

Lemma cellOr_trimmed (cells : list jstring) (idx : Z) :
  trim (DashboardView.cellOr cells idx) = DashboardView.cellOr cells idx.
Proof.
  unfold DashboardView.cellOr, DashboardView.getCell, or_else.
  destruct (-1 <? idx)%Z; [|reflexivity].
  destruct (nth_error cells (Z.to_nat idx)); [|reflexivity].
  destruct (truthy (trim j)); [apply trim_idem|reflexivity].
Qed.

Lemma subseq_filter {A} (f : A -> bool) (l : list A) :
  Spec.subseq (filter f l) l.
Proof.
  induction l as [|x l IH]; simpl; [constructor|].
  destruct (f x); now constructor.
Qed.

Lemma subseq_after_break {A} (f g : A -> bool) (l : list A) h rest :
  Spec.breakAt f l = Some (h, rest) -> Spec.subseq (filter g rest) l.
Proof.
  induction l as [|x l IH]; simpl; [discriminate|].
  destruct (f x).
  - intro E. inversion E; subst. constructor. apply subseq_filter.
  - intro E. constructor. now apply IH.
Qed.

Lemma subseq_nil_l {A} (l : list A) : Spec.subseq [] l.
Proof. induction l; now constructor. Qed.

Lemma rows_of_text (text : jstring) :
  fst (DashboardView.parseTeleinfoCsv text) =
  map (Spec.recordOf (Spec.idxMapOf text))
      (filter (Spec.identified (Spec.idxMapOf text)) (Spec.dataLines text)).
Proof.
  rewrite parseTeleinfoCsv_normalizer.
  unfold Spec.normalizer, Spec.idxMapOf, Spec.dataLines.
  destruct (Spec.headerAndRest text) as [[h rest]|]; [|reflexivity].
  destruct (filter DashboardView.notBlank rest) as [|b body]; [reflexivity|].
  set (idx := DashboardView.mkIdxMap (Spec.headerTokens h)).
  destruct ((DashboardView.idx_cliente idx =? -1)%Z
            && (DashboardView.idx_cCusto idx =? -1)%Z) eqn:E.
  - apply andb_true_iff in E. destruct E as [E1 E2].
    apply Z.eqb_eq in E1, E2. cbn [fst].
    replace (filter (Spec.identified idx) (b :: body)) with (@nil jstring);
      [reflexivity|].
    symmetry. induction (b :: body) as [|l ls IH]; [reflexivity|].
    simpl. unfold Spec.identified at 1, DashboardView.cellOr.
    rewrite E1, E2. simpl. exact IH.
  - destruct (map (Spec.recordOf idx) (filter (Spec.identified idx) (b :: body)));
      reflexivity.
Qed.

(** C9.  Every record the parser returns has a CLIENTE or a C.Custo field
    that is not empty, both already trimmed; the records are the images,
    in order, of the data lines that are identified, and the data lines
    keep the order of the lines of the input. *)
Theorem emitted_rows_identified_in_order (text : jstring) :
  let rows := fst (DashboardView.parseTeleinfoCsv text) in
  Forall (fun p => (trim (CLIENTE p) <> [] \/ trim (C_Custo p) <> [])
                   /\ trim (CLIENTE p) = CLIENTE p
                   /\ trim (C_Custo p) = C_Custo p) rows
  /\ rows = map (Spec.recordOf (Spec.idxMapOf text))
                (filter (Spec.identified (Spec.idxMapOf text))
                        (Spec.dataLines text))
  /\ Spec.subseq (Spec.dataLines text)
                 (splitLines (DashboardView.stripBom text)).
Proof.
  intro rows. unfold rows. split; [|split].
  - rewrite rows_of_text. apply Forall_map. apply Forall_forall.
    intros l Hl. apply filter_In in Hl. destruct Hl as [_ Hl].
    unfold Spec.recordOf. cbn [CLIENTE C_Custo]. rewrite !cellOr_trimmed.
    split; [|split; reflexivity].
    unfold Spec.identified in Hl. apply orb_true_iff in Hl.
    destruct Hl as [Hl|Hl]; [left|right]; intro E; rewrite E in Hl;
      discriminate.
  - apply rows_of_text.
  - unfold Spec.dataLines, Spec.headerAndRest.
    destruct (Spec.breakAt _ _) as [[h rest]|] eqn:E.
    + eapply subseq_after_break. exact E.
    + apply subseq_nil_l.
Qed.

End NormalizerClaims.

(** ** The two summaries *)

Section TwoSummaries.

Variable largeToString : Qc -> jstring.

Lemma chart_colours_agree (s : jstring) :
  DashboardView.getStatusChartColor s = PresentationView.getStatusChartColor s
  /\ DashboardView.getBuChartColor s = PresentationView.getBuChartColor s.
Proof. split; reflexivity. Qed.

Lemma tallies_agree (data : list Project) (t : Tally) :
  fold_left DashboardView.tallyStep data t =
  fold_left PresentationView.tallyStep data t.
Proof.
  revert t. induction data as [|p data IH]; intro t; [reflexivity|].
  simpl. rewrite IH. reflexivity.
Qed.

(** C10.  On the same list of records the summary of the dashboard (with
    no filter selected) and the portfolio summary of the presentation
    have the same total, the same printed average, the same four status
    counts and the same status and BU chart data; with a filter selected
    the dashboard agrees with the portfolio summary of the records that
    pass the filter. *)
Theorem dashboard_and_presentation_summaries_agree (data : list Project) :
  let same (d : DashboardView.ViewModel) (p : PresentationView.PortfolioSummary) :=
    total (DashboardView.summary d) = PresentationView.ps_total p
    /\ avgPercent (DashboardView.summary d) = PresentationView.ps_avgPercent p
    /\ finished (DashboardView.summary d) = PresentationView.ps_finished p
    /\ inProgress (DashboardView.summary d) = PresentationView.ps_inProgress p
    /\ paralyzed (DashboardView.summary d) = PresentationView.ps_paralyzed p
    /\ notStarted (DashboardView.summary d) = PresentationView.ps_notStarted p
    /\ DashboardView.statusChartData d = PresentationView.ps_statusChartData p
    /\ DashboardView.buChartData d = PresentationView.ps_buChartData p in
  same (DashboardView.dashboard largeToString data [] [] [])
       (PresentationView.portfolioSummary largeToString data)
  /\ forall statusFilter buFilter clientFilter,
       same (DashboardView.dashboard largeToString data
               statusFilter buFilter clientFilter)
            (PresentationView.portfolioSummary largeToString
               (DashboardView.filteredProjects data
                  statusFilter buFilter clientFilter)).
Proof.
  intro same.
  assert (G : forall f1 f2 f3,
    same (DashboardView.dashboard largeToString data f1 f2 f3)
         (PresentationView.portfolioSummary largeToString
            (DashboardView.filteredProjects data f1 f2 f3))).
  { intros f1 f2 f3. unfold same, DashboardView.dashboard,
      PresentationView.portfolioSummary.
    cbn [DashboardView.summary DashboardView.statusChartData
         DashboardView.buChartData total avgPercent finished inProgress
         paralyzed notStarted PresentationView.ps_total
         PresentationView.ps_avgPercent PresentationView.ps_finished
         PresentationView.ps_inProgress PresentationView.ps_paralyzed
         PresentationView.ps_notStarted PresentationView.ps_statusChartData
         PresentationView.ps_buChartData].
    rewrite tallies_agree.
    repeat split; reflexivity. }
  split; [|exact G].
  specialize (G [] [] []). now rewrite filteredProjects_all in G.
Qed.

End TwoSummaries.

(** ** The percentage normalizer *)

Section PercentNormalizer.

Lemma replaceFirst_absent (c : N) (r s : jstring) :
  ~ In c s -> replaceFirst c r s = s.
Proof.
  induction s as [|x s IH]; intro H; [reflexivity|].
  simpl. destruct (N.eqb_spec x c) as [->|_].
  - exfalso. apply H. now left.
  - f_equal. apply IH. intro Hs. apply H. now right.
Qed.

Lemma replaceFirst_at (c : N) (r a b : jstring) :
  ~ In c a -> replaceFirst c r (a ++ c :: b) = a ++ r ++ b.
Proof.
  induction a as [|x a IH]; intro H; simpl.
  - now rewrite N.eqb_refl.
  - destruct (N.eqb_spec x c) as [->|_].
    + exfalso. apply H. now left.
    + f_equal. apply IH. intro Hs. apply H. now right.
Qed.

Lemma dropWhile_stop (f : N -> bool) (a w : jstring) (c : N) :
  f c = false -> dropWhile f (a ++ c :: w) = dropWhile f a ++ c :: w.
Proof.
  intro Hc. induction a as [|x a IH]; simpl.
  - now rewrite Hc.
  - destruct (f x); [exact IH|reflexivity].
Qed.

Lemma trim_app_ws (a w : jstring) :
  forallb isWhiteSpace w = true -> trim (a ++ w) = trim a.
Proof.
  intro H. unfold trim, trimStart.
  induction a as [|x a IH]; simpl.
  - replace (dropWhile isWhiteSpace w) with (@nil N); [reflexivity|].
    rewrite <- (app_nil_r w). now rewrite dropWhile_all.
  - destruct (isWhiteSpace x); [exact IH|].
    now apply (trimEnd_app_ws (x :: a)).
Qed.

Lemma trim_percent_ws (a w : jstring) :
  forallb isWhiteSpace w = true ->
  trim (a ++ 37%N :: w) = trimStart a ++ [37%N].
Proof.
  intro H. unfold trim, trimStart at 1.
  rewrite dropWhile_stop by reflexivity. fold (trimStart a).
  change (trimStart a ++ 37%N :: w) with (trimStart a ++ [37%N] ++ w).
  rewrite app_assoc, trimEnd_app_ws by exact H.
  unfold trimEnd. rewrite rev_app_distr. simpl.
  now rewrite rev_involutive.
Qed.

Lemma strip_without_percent (s : jstring) :
  ~ In 37%N s -> Spec.stripTrailingPercent s = trim s.
Proof.
  intro H. unfold Spec.stripTrailingPercent.
  destruct (rev (trim s)) as [|c r] eqn:E; [reflexivity|].
  destruct (N.eqb_spec c 37) as [->|_]; [|reflexivity].
  exfalso. apply H. apply trim_incl. apply in_rev. rewrite E. now left.
Qed.

Lemma strip_trailing_percent (a w : jstring) :
  forallb isWhiteSpace w = true ->
  Spec.stripTrailingPercent (a ++ 37%N :: w) = trim a.
Proof.
  intro H. unfold Spec.stripTrailingPercent.
  rewrite trim_percent_ws by exact H.
  rewrite rev_app_distr. simpl. rewrite rev_involutive.
  unfold trim, trimStart. now rewrite dropWhile_idem.
Qed.

(** What both normalizers do with the cleaned text. *)
Lemma parse_cleaned (c : jstring) :
  (if negb (truthy c) then None
   else let num := parseFloat (replaceFirst 44%N [46%N] c) in
        if isNaN num then None else Some num)
  = match c with
    | [] => None
    | _ => match parseFloat (replaceFirst 44%N [46%N] c) with
           | NaN => None
           | num => Some num
           end
    end.
Proof.
  destruct c as [|x c]; [reflexivity|].
  cbn [truthy negb]. cbv zeta.
  destruct (parseFloat _); reflexivity.
Qed.

Lemma normalizePercent_cleaned (s : jstring) :
  DashboardView.normalizePercent (DashboardView.Str s) =
  match trim (replaceFirst 37%N [] s) with
  | [] => None
  | c => match parseFloat (replaceFirst 44%N [46%N] c) with
         | NaN => None
         | num => Some num
         end
  end.
Proof.
  unfold DashboardView.normalizePercent. cbv zeta.
  rewrite parse_cleaned. destruct (trim _); reflexivity.
Qed.

(** C1, as stated, fails on a percent sign that is not trailing: the
    code removes it and reads 45 from "%45", where stripping only a
    trailing sign leaves a text that does not parse. *)
Lemma leading_percent_is_removed :
  DashboardView.normalizePercent (DashboardView.Str (lit "%45")) = Some (ofZ 45)
  /\ Spec.normalizePercent (Some (lit "%45")) = None
  /\ DashboardView.normalizePercent (DashboardView.Str (lit "%45"))
     <> Spec.normalizePercent (Some (lit "%45")).
Proof.
  assert (E : DashboardView.normalizePercent (DashboardView.Str (lit "%45"))
              = Some (ofZ 45))
    by (apply option_number_eqb_eq; vm_compute; reflexivity).
  split; [exact E|]. split; [reflexivity|].
  rewrite E. change (Spec.normalizePercent (Some (lit "%45"))) with (@None number).
  discriminate.
Qed.

(** C1, amended.  The normalizer maps null and undefined to null.  On a
    text it removes the first percent sign, wherever it stands, and only
    that one: the text before the sign and the text after it, joined, are
    trimmed; null is returned when nothing is left; otherwise the first
    comma becomes a point and the number is read with [parseFloat], null
    being returned when that is NaN and the number, unclamped, otherwise.
    A text without a percent sign is read the same way as it stands.
    When the only percent sign of the text is a trailing one (possibly
    followed by white space), or there is none, this is the normalizer of
    the specification.  "45%", "45,5", "45.5" and " 45 " give 45, 45.5,
    45.5 and 45; "", null and "abc%" give null; "%%45" gives null, since
    the second sign stays in front of the digits, while "45%%" and "4%5"
    give 45. *)
Theorem normalizePercent_removes_first_percent :
  DashboardView.normalizePercent DashboardView.Null = None
  /\ DashboardView.normalizePercent DashboardView.Undefined = None
  /\ (forall s, ~ In 37%N s ->
        DashboardView.normalizePercent (DashboardView.Str s)
        = Spec.normalizePercent (Some s))
  /\ (forall a w, ~ In 37%N a -> forallb isWhiteSpace w = true ->
        DashboardView.normalizePercent (DashboardView.Str (a ++ 37%N :: w))
        = Spec.normalizePercent (Some (a ++ 37%N :: w)))
  /\ (forall a b, ~ In 37%N a ->
        DashboardView.normalizePercent (DashboardView.Str (a ++ 37%N :: b))
        = Spec.readPercent (a ++ b))
  /\ (forall s, ~ In 37%N s ->
        DashboardView.normalizePercent (DashboardView.Str s) = Spec.readPercent s)
  /\ DashboardView.normalizePercent (DashboardView.Str (lit "45%")) = Some (ofZ 45)
  /\ DashboardView.normalizePercent (DashboardView.Str (lit "45,5")) = Some (ofQ (455 # 10)%Q)
  /\ DashboardView.normalizePercent (DashboardView.Str (lit "45.5")) = Some (ofQ (455 # 10)%Q)
  /\ DashboardView.normalizePercent (DashboardView.Str (lit " 45 ")) = Some (ofZ 45)
  /\ DashboardView.normalizePercent (DashboardView.Str (lit "")) = None
  /\ DashboardView.normalizePercent (DashboardView.Str (lit "abc%")) = None
  /\ DashboardView.normalizePercent (DashboardView.Str (lit "150%")) = Some (ofZ 150)
  /\ DashboardView.normalizePercent (DashboardView.Str (lit "-5")) = Some (ofZ (-5))
  /\ DashboardView.normalizePercent (DashboardView.Str (lit "%%45")) = None
  /\ DashboardView.normalizePercent (DashboardView.Str (lit "45%%")) = Some (ofZ 45)
  /\ DashboardView.normalizePercent (DashboardView.Str (lit "4%5")) = Some (ofZ 45).
Proof.
  split; [reflexivity|]. split; [reflexivity|].
  split; [|split; [|split; [|split]]].
  - intros s H. rewrite normalizePercent_cleaned.
    unfold Spec.normalizePercent.
    rewrite replaceFirst_absent, strip_without_percent by exact H.
    reflexivity.
  - intros a w Ha Hw. rewrite normalizePercent_cleaned.
    unfold Spec.normalizePercent.
    rewrite replaceFirst_at, strip_trailing_percent by assumption.
    cbn [app]. now rewrite trim_app_ws.
  - intros a b Ha. rewrite normalizePercent_cleaned.
    rewrite replaceFirst_at by exact Ha. reflexivity.
  - intros s H. rewrite normalizePercent_cleaned.
    rewrite replaceFirst_absent by exact H. reflexivity.
  - repeat split; try reflexivity;
      apply option_number_eqb_eq; vm_compute; reflexivity.
Qed.

Lemma normalizePercent_removes_first_percent_witness :
  DashboardView.normalizePercent (DashboardView.Str (lit "80 % "))
  = Spec.normalizePercent (Some (lit "80 % ")).
Proof.
  refine (proj1 (proj2 (proj2 (proj2 normalizePercent_removes_first_percent)))
            (lit "80 ") (lit " ") _ eq_refl).
  intro H. repeat (destruct H as [H|H]; [discriminate|]). exact H.
Defined.

End PercentNormalizer.

(** ** Filter choices *)

Section FilterChoices.

Variable largeToString : Qc -> jstring.

Lemma eqs_true (a b : jstring) : eqs a b = true <-> a = b.
Proof.
  unfold eqs. destruct (jstring_eq_dec a b); split; congruence.
Qed.

Lemma truthy_true (s : jstring) : truthy s = true <-> s <> [].
Proof. destruct s; simpl; split; congruence. Qed.

Lemma setAdd_In (s : JSet) (x y : jstring) :
  In y (setAdd s x) <-> In y s \/ y = x.
Proof.
  induction s as [|z s IH]; simpl.
  - split; [intros [->|[]]; now right | intros [[]| ->]; now left].
  - destruct (eqs z x) eqn:E.
    + apply eqs_true in E. subst z. simpl. split; [tauto|].
      intros [H| ->]; [exact H|now left].
    + simpl. rewrite IH. tauto.
Qed.

Lemma setAdd_NoDup (s : JSet) (x : jstring) : NoDup s -> NoDup (setAdd s x).
Proof.
  induction 1 as [|z s Hz Hs IH]; simpl.
  - constructor; [intros []|constructor].
  - destruct (eqs z x) eqn:E; [now constructor|].
    constructor; [|exact IH].
    rewrite setAdd_In. intros [H| ->]; [contradiction|].
    assert (T : eqs x x = true) by now apply eqs_true.
    congruence.
Qed.

Lemma collect_spec (field : Project -> jstring) (projects : list Project)
    (acc : JSet) :
  NoDup acc ->
  let r := fold_left (fun s p => if truthy (field p) then setAdd s (field p) else s)
                     projects acc in
  NoDup r
  /\ forall x, In x r <->
               In x acc \/ (x <> [] /\ exists p, In p projects /\ field p = x).
Proof.
  revert acc. induction projects as [|p ps IH]; intros acc Hacc; simpl.
  - split; [exact Hacc|]. intro x. split; [now left|].
    intros [H|[_ [p [[] _]]]]. exact H.
  - destruct (truthy (field p)) eqn:T.
    + destruct (IH (setAdd acc (field p)) (setAdd_NoDup _ Hacc)) as [ND M].
      split; [exact ND|]. intro x. rewrite M, setAdd_In.
      apply truthy_true in T. split.
      * intros [[H| ->]|[Hx [q [Hq E]]]]; [now left| |].
        -- right. split; [exact T|]. exists p. split; [now left|reflexivity].
        -- right. split; [exact Hx|]. exists q. split; [now right|exact E].
      * intros [H|[Hx [q [[->|Hq] E]]]].
        -- left. now left.
        -- left. right. now symmetry.
        -- right. split; [exact Hx|]. now exists q.
    + destruct (IH acc Hacc) as [ND M]. split; [exact ND|].
      intro x. rewrite M. split.
      * intros [H|[Hx [q [Hq E]]]]; [now left|].
        right. split; [exact Hx|]. exists q. split; [now right|exact E].
      * intros [H|[Hx [q [[->|Hq] E]]]]; [now left| |].
        -- exfalso. rewrite E in T. apply Hx.
           destruct x; [reflexivity|discriminate].
        -- right. split; [exact Hx|]. now exists q.
Qed.

Lemma leStr_total (a b : jstring) : leStr a b = false -> leStr b a = true.
Proof.
  revert b. induction a as [|x a IH]; intros [|y b]; simpl; try congruence.
  intro H. apply orb_false_iff in H. destruct H as [H1 H2].
  apply N.ltb_ge in H1.
  destruct (N.eqb_spec x y) as [->|Hne].
  - simpl in H2. rewrite N.eqb_refl, (IH _ H2). simpl. apply orb_true_r.
  - assert (L : (y <? x)%N = true) by (apply N.ltb_lt; lia).
    now rewrite L.
Qed.

Lemma insertSorted_In (x y : jstring) (l : list jstring) :
  In y (insertSorted x l) <-> y = x \/ In y l.
Proof.
  induction l as [|z l IH]; simpl.
  - split; [intros [->|[]]; now left | intros [->|[]]; now left].
  - destruct (leStr x z); simpl; [split; intuition congruence|].
    rewrite IH. split; intuition congruence.
Qed.

Lemma insertSorted_Sorted (x : jstring) (l : list jstring) :
  Sorted (fun a b => leStr a b = true) l ->
  Sorted (fun a b => leStr a b = true) (insertSorted x l).
Proof.
  induction 1 as [|z l Hs IH Hd]; simpl.
  - repeat constructor.
  - destruct (leStr x z) eqn:E.
    + constructor; [now constructor|now constructor].
    + constructor; [exact IH|].
      apply leStr_total in E.
      destruct l as [|w l]; simpl.
      * now constructor.
      * destruct (leStr x w); constructor; trivial.
        now inversion Hd.
Qed.

Lemma insertSorted_NoDup (x : jstring) (l : list jstring) :
  ~ In x l -> NoDup l -> NoDup (insertSorted x l).
Proof.
  intros Hx Hl. induction Hl as [|z l Hz Hl IH]; simpl.
  - constructor; [intros []|constructor].
  - destruct (leStr x z).
    + constructor; [exact Hx|now constructor].
    + constructor.
      * rewrite insertSorted_In. intros [->|H]; [|contradiction].
        apply Hx. now left.
      * apply IH. intro H. apply Hx. now right.
Qed.

Lemma leStr_trans (a b c : jstring) :
  leStr a b = true -> leStr b c = true -> leStr a c = true.
Proof.
  revert b c. induction a as [|x a IH]; intros [|y b] [|z c]; simpl;
    try congruence.
  intros H1 H2. apply orb_true_iff in H1, H2. apply orb_true_iff.
  rewrite andb_true_iff, N.ltb_lt, N.eqb_eq in *.
  destruct H1 as [H1|[-> H1]], H2 as [H2|[-> H2]].
  - left. lia.
  - now left.
  - now left.
  - right. split; [reflexivity|]. now apply (IH b).
Qed.

Lemma sorted_insertions (l : list jstring) :
  Sorted (fun a b => leStr a b = true) (sort l).
Proof.
  induction l as [|z l IH]; simpl; [constructor|].
  now apply insertSorted_Sorted.
Qed.

Lemma sort_spec (l : list jstring) :
  NoDup l ->
  StronglySorted (fun a b => leStr a b = true) (sort l)
  /\ NoDup (sort l)
  /\ forall x, In x (sort l) <-> In x l.
Proof.
  intro ND. split.
  - apply Sorted_StronglySorted; [|apply sorted_insertions].
    intros a b c. apply leStr_trans.
  - induction ND as [|z l Hz Hl [ND M]]; simpl.
    + split; [constructor|tauto].
    + split.
      * apply insertSorted_NoDup; [now rewrite M|exact ND].
      * intro x. rewrite insertSorted_In, M. intuition congruence.
Qed.

Lemma choices_of_field (field : Project -> jstring) (projects : list Project) :
  Spec.isChoiceList projects field (sort (DashboardView.collect field projects)).
Proof.
  unfold Spec.isChoiceList, DashboardView.collect.
  destruct (@collect_spec field projects [] ltac:(constructor)) as [ND M].
  destruct (sort_spec ND) as [S [ND' M']].
  split; [exact S|]. split; [exact ND'|].
  intro x. rewrite M', M. simpl. tauto.
Qed.

(** C8.  The filter choices do not depend on the filter selection: for a
    fixed collection, any two selections give the same three lists, and
    each list holds the distinct non-empty values of its field over the
    whole collection in ascending order. *)
Theorem filter_choices_ignore_selection (projects : list Project)
    (status1 bu1 client1 status2 bu2 client2 : jstring) :
  DashboardView.uniqueFilters
    (DashboardView.dashboard largeToString projects status1 bu1 client1)
  = DashboardView.uniqueFilters
      (DashboardView.dashboard largeToString projects status2 bu2 client2)
  /\ Spec.isChoiceList projects STATUS
       (DashboardView.statuses (DashboardView.uniqueFilters
          (DashboardView.dashboard largeToString projects status1 bu1 client1)))
  /\ Spec.isChoiceList projects BUs
       (DashboardView.bus (DashboardView.uniqueFilters
          (DashboardView.dashboard largeToString projects status1 bu1 client1)))
  /\ Spec.isChoiceList projects CLIENTE
       (DashboardView.clients (DashboardView.uniqueFilters
          (DashboardView.dashboard largeToString projects status1 bu1 client1))).
Proof.
  split; [reflexivity|].
  split; [|split]; apply choices_of_field.
Qed.

End FilterChoices.

(** ** The status classifier *)

Section Classifier.

Variable largeToString : Qc -> jstring.

(** Normalizing a normalized status changes nothing. *)
Lemma normalize_idem (s : jstring) :
  Spec.normalize (Spec.normalize s) = Spec.normalize s.
Proof.
  unfold Spec.normalize.
  now rewrite trim_upper, trim_idem, toUpperCase_idem.
Qed.

Lemma normalizeStatus_normalize (s : jstring) :
  DashboardView.normalizeStatus s = Spec.normalize s.
Proof. destruct s; reflexivity. Qed.

Lemma chart_by_bucket (s : jstring) :
  DashboardView.getStatusChartColor s = Spec.chartColor (Spec.classify s).
Proof.
  unfold DashboardView.getStatusChartColor, Spec.classify, Spec.bucketOf.
  cbv zeta. rewrite normalizeStatus_normalize.
  unfold Spec.rules. cbn [find fst snd].
  destruct (startsWith FINALIZADO _); [reflexivity|].
  destruct (startsWith EM_ANDAMENTO _); [reflexivity|].
  destruct (startsWith PARALIZADO _); [reflexivity|].
  destruct (startsWith NAO_INICIADO _); reflexivity.
Qed.

Lemma chartColor_inj (a b : Spec.Bucket) :
  Spec.chartColor a = Spec.chartColor b -> a = b.
Proof. destruct a, b; simpl; intro H; try reflexivity; discriminate. Qed.

Lemma Bucket_eqb_eq (a b : Spec.Bucket) : Spec.Bucket_eqb a b = true <-> a = b.
Proof. destruct a, b; simpl; split; congruence. Qed.

(** The four counters of the counting loop count the stored status texts
    by bucket. *)
Lemma tally_counts (data : list Project) (t : Tally) :
  let r := fold_left DashboardView.tallyStep data t in
  let n b := List.length
               (filter (fun p => Spec.Bucket_eqb (Spec.bucketOf (STATUS p)) b) data) in
  t_finished r = t_finished t + n Spec.B_FINALIZADO
  /\ t_inProgress r = t_inProgress t + n Spec.B_EM_ANDAMENTO
  /\ t_paralyzed r = t_paralyzed t + n Spec.B_PARALIZADO
  /\ t_notStarted r = t_notStarted t + n Spec.B_NAO_INICIADO.
Proof.
  revert t. induction data as [|p data IH]; intro t.
  - simpl. repeat split; lia.
  - cbn [fold_left filter]. cbv zeta in IH |- *.
    destruct (IH (DashboardView.tallyStep t p)) as [H1 [H2 [H3 H4]]].
    rewrite H1, H2, H3, H4. clear.
    unfold DashboardView.tallyStep, Spec.bucketOf, Spec.rules. cbv zeta.
    cbn [find fst snd].
    destruct (startsWith FINALIZADO (STATUS p));
      [cbn; repeat split; lia|].
    destruct (startsWith EM_ANDAMENTO (STATUS p));
      [cbn; repeat split; lia|].
    destruct (startsWith PARALIZADO (STATUS p));
      [cbn; repeat split; lia|].
    destruct (startsWith NAO_INICIADO (STATUS p));
      cbn; repeat split; lia.
Qed.

Lemma parsed_status_normalized (text : jstring) :
  Forall (fun p => Spec.normalize (STATUS p) = STATUS p)
         (fst (DashboardView.parseTeleinfoCsv text)).
Proof.
  rewrite rows_of_text. apply Forall_map. apply Forall_forall. intros l _.
  unfold Spec.recordOf. cbn [STATUS].
  rewrite normalizeStatus_normalize. apply normalize_idem.
Qed.

Lemma countBucket_stored (b : Spec.Bucket) (data : list Project) :
  Forall (fun p => Spec.normalize (STATUS p) = STATUS p) data ->
  Spec.countBucket b data =
  List.length (filter (fun p => Spec.Bucket_eqb (Spec.bucketOf (STATUS p)) b) data).
Proof.
  intro F. unfold Spec.countBucket. f_equal. apply filter_ext_in.
  intros p Hp. rewrite Forall_forall in F. unfold Spec.classify.
  now rewrite (F p Hp).
Qed.

(** C5.  The chart colour of a status is the colour of its bucket, and
    the bucket is the first of FINALIZADO, EM ANDAMENTO, PARALIZADO and
    NAO INICIADO that is a prefix of the trimmed, upper-cased status,
    DEFAULT when none is; the four counters of the summary count the
    displayed records of a parsed file by that bucket.  The status
    "PARALIZADO - AGUARDANDO CLIENTE" falls in PARALIZADO. *)
Theorem status_classified_by_prefix :
  (forall s, DashboardView.getStatusChartColor s = Spec.chartColor (Spec.classify s))
  /\ (forall s b, Spec.classify s = b <->
                  DashboardView.getStatusChartColor s = Spec.chartColor b)
  /\ (forall s,
        let n := toUpperCase (trim s) in
        (Spec.classify s = Spec.B_FINALIZADO <-> startsWith FINALIZADO n = true)
        /\ (Spec.classify s = Spec.B_EM_ANDAMENTO <->
            startsWith FINALIZADO n = false /\ startsWith EM_ANDAMENTO n = true)
        /\ (Spec.classify s = Spec.B_PARALIZADO <->
            startsWith FINALIZADO n = false /\ startsWith EM_ANDAMENTO n = false
            /\ startsWith PARALIZADO n = true)
        /\ (Spec.classify s = Spec.B_NAO_INICIADO <->
            startsWith FINALIZADO n = false /\ startsWith EM_ANDAMENTO n = false
            /\ startsWith PARALIZADO n = false /\ startsWith NAO_INICIADO n = true)
        /\ (Spec.classify s = Spec.B_DEFAULT <->
            startsWith FINALIZADO n = false /\ startsWith EM_ANDAMENTO n = false
            /\ startsWith PARALIZADO n = false /\ startsWith NAO_INICIADO n = false))
  /\ (forall text statusFilter buFilter clientFilter,
        let projects := fst (DashboardView.parseTeleinfoCsv text) in
        let data := DashboardView.filteredProjects projects
                      statusFilter buFilter clientFilter in
        let sm := DashboardView.summary
                    (DashboardView.dashboard largeToString projects
                       statusFilter buFilter clientFilter) in
        finished sm = Spec.countBucket Spec.B_FINALIZADO data
        /\ inProgress sm = Spec.countBucket Spec.B_EM_ANDAMENTO data
        /\ paralyzed sm = Spec.countBucket Spec.B_PARALIZADO data
        /\ notStarted sm = Spec.countBucket Spec.B_NAO_INICIADO data)
  /\ Spec.classify (lit "PARALIZADO - AGUARDANDO CLIENTE") = Spec.B_PARALIZADO
  /\ DashboardView.getStatusChartColor (lit "PARALIZADO - AGUARDANDO CLIENTE")
     = lit "#ef4444".
Proof.
  split; [exact chart_by_bucket|].
  split.
  { intros s b. rewrite chart_by_bucket. split.
    - now intros ->.
    - apply chartColor_inj. }
  split.
  { intros s n. unfold Spec.classify, Spec.bucketOf, Spec.normalize, Spec.rules.
    fold n. cbn [find fst snd].
    destruct (startsWith FINALIZADO n); cbn [snd];
      [repeat split; intros; intuition congruence|].
    destruct (startsWith EM_ANDAMENTO n); cbn [snd];
      [repeat split; intros; intuition congruence|].
    destruct (startsWith PARALIZADO n); cbn [snd];
      [repeat split; intros; intuition congruence|].
    destruct (startsWith NAO_INICIADO n); cbn [snd];
      repeat split; intros; intuition congruence. }
  split; [|split; reflexivity].
  intros text f1 f2 f3 projects data sm.
  assert (F : Forall (fun p => Spec.normalize (STATUS p) = STATUS p) data).
  { unfold data, DashboardView.filteredProjects.
    pose proof (parsed_status_normalized text) as P. fold projects in P.
    rewrite Forall_forall in *. intros p Hp. apply filter_In in Hp.
    now apply P. }
  rewrite !(countBucket_stored _ F).
  destruct (tally_counts data emptyTally) as [H1 [H2 [H3 H4]]].
  unfold sm, DashboardView.dashboard.
  cbn [DashboardView.summary finished inProgress paralyzed notStarted].
  fold data. rewrite H1, H2, H3, H4. repeat split.
Qed.

End Classifier.

(** * Further properties of the code *)

(** ** The parser: outcome, fields and tolerance *)

Section ParserOutcome.

Lemma findIndex_resolved (headers : list jstring) (name : jstring) :
  (DashboardView.findIndex headers [name] =? -1)%Z
  = negb (existsb (fun h => eqs (toLowerCase h) (toLowerCase name)) headers).
Proof.
  pose proof (findIndex_absent headers name) as H.
  destruct (DashboardView.findIndex headers [name] =? -1)%Z;
    destruct (existsb _ headers); trivial.
  - now apply proj1 in H; specialize (H eq_refl).
  - now apply proj2 in H; specialize (H eq_refl).
Qed.

(** X1.  The parser raises at most one alert, and it raises one exactly
    when it returns no record; the alert is the warning, not a fatal one,
    exactly when a header with an identity column and at least one data
    line were found but no data line is identified. *)
Theorem parser_rows_or_one_alert (text : jstring) :
  let rows := fst (DashboardView.parseTeleinfoCsv text) in
  let alerts := snd (DashboardView.parseTeleinfoCsv text) in
  (rows <> [] /\ alerts = [] \/ rows = [] /\ exists a, alerts = [a])
  /\ (alerts = [DashboardView.NoValidRows] <->
      Spec.dataLines text <> []
      /\ (Spec.resolves text (lit "CLIENTE") = true
          \/ Spec.resolves text (lit "C.Custo") = true)
      /\ filter (Spec.identified (Spec.idxMapOf text)) (Spec.dataLines text) = []).
Proof.
  cbv zeta. rewrite parseTeleinfoCsv_normalizer.
  unfold Spec.normalizer, Spec.dataLines, Spec.resolves, Spec.headerNames,
    Spec.idxMapOf.
  destruct (Spec.headerAndRest text) as [[h rest]|]; cbn [fst snd].
  - destruct (filter DashboardView.notBlank rest) as [|b body] eqn:Eb;
      cbn [fst snd].
    + split; [right; split; [reflexivity|now eexists]|].
      split; [discriminate|]. intros [H _]. now elim H.
    + cbn [DashboardView.mkIdxMap DashboardView.idx_cliente
             DashboardView.idx_cCusto].
      rewrite !findIndex_resolved.
      set (idx := DashboardView.mkIdxMap (Spec.headerTokens h)).
      set (rc := existsb (fun tok => eqs (toLowerCase tok)
                            (toLowerCase (lit "CLIENTE"))) (Spec.headerTokens h)).
      set (rk := existsb (fun tok => eqs (toLowerCase tok)
                            (toLowerCase (lit "C.Custo"))) (Spec.headerTokens h)).
      destruct rc, rk; cbn [negb andb fst snd];
        try (destruct (filter (Spec.identified idx) (b :: body)) as [|l ls] eqn:F;
             cbn [map fst snd];
             [ split; [right; split; [reflexivity|now eexists]|];
               split; [intros _|reflexivity]; split; [discriminate|];
               split; [|reflexivity]; auto
             | split; [left; split; [discriminate|reflexivity]|];
               split; [discriminate|]; intros [_ [_ H]]; discriminate ]).
      split; [right; split; [reflexivity|now eexists]|].
      split; [discriminate|]. intros [_ [[H|H] _]]; discriminate.
  - split; [right; split; [reflexivity|now eexists]|].
    split; [discriminate|]. intros [H _]. now elim H.
Qed.

Lemma normalizePercent_not_NaN (v : DashboardView.value) :
  DashboardView.normalizePercent v <> Some NaN.
Proof.
  destruct v as [| |s]; try discriminate.
  rewrite normalizePercent_cleaned.
  destruct (trim _); [discriminate|].
  destruct (parseFloat _); discriminate.
Qed.

(** X2.  The percentage normalizer never returns NaN, so the percentage
    of a parsed record is null or a number that is not NaN. *)
Theorem parsed_percentage_never_NaN (text : jstring) :
  (forall v, DashboardView.normalizePercent v <> Some NaN)
  /\ Forall (fun p => perc p <> Some NaN)
            (fst (DashboardView.parseTeleinfoCsv text)).
Proof.
  split; [exact normalizePercent_not_NaN|].
  rewrite rows_of_text. apply Forall_map. apply Forall_forall. intros l _.
  apply normalizePercent_not_NaN.
Qed.

(** X3.  Every text field of a parsed record is trimmed, and its STATUS
    is moreover upper-cased: upper-casing it or normalizing it again
    changes nothing. *)
Theorem parsed_fields_trimmed (text : jstring) :
  Forall (fun p =>
            trim (CLIENTE p) = CLIENTE p
            /\ trim (TIPO_DE_PROJETO p) = TIPO_DE_PROJETO p
            /\ trim (TIPO_DE_PRODUTO p) = TIPO_DE_PRODUTO p
            /\ trim (BUs p) = BUs p
            /\ trim (C_Custo p) = C_Custo p
            /\ trim (STATUS p) = STATUS p
            /\ toUpperCase (STATUS p) = STATUS p
            /\ DashboardView.normalizeStatus (STATUS p) = STATUS p)
         (fst (DashboardView.parseTeleinfoCsv text)).
Proof.
  rewrite rows_of_text. apply Forall_map. apply Forall_forall. intros l _.
  unfold Spec.recordOf.
  cbn [CLIENTE TIPO_DE_PROJETO TIPO_DE_PRODUTO BUs C_Custo STATUS].
  rewrite !cellOr_trimmed. repeat split.
  - rewrite normalizeStatus_normalize. unfold Spec.normalize.
    now rewrite trim_upper, trim_idem.
  - rewrite normalizeStatus_normalize. unfold Spec.normalize.
    apply toUpperCase_idem.
  - rewrite !normalizeStatus_normalize. apply normalize_idem.
Qed.

End ParserOutcome.

Section ParserCells.

Lemma cellOr_absent (cells : list jstring) (i : Z) :
  (i <= -1 \/ Z.of_nat (List.length cells) <= i)%Z ->
  DashboardView.cellOr cells i = []
  /\ DashboardView.normalizePercent
       (if (-1 <? i)%Z then DashboardView.Str (DashboardView.getCell cells i)
        else DashboardView.Null) = None.
Proof.
  intro H. unfold DashboardView.cellOr, DashboardView.getCell.
  destruct (Z.ltb_spec (-1) i) as [Hi|Hi]; [|split; reflexivity].
  assert (E : nth_error cells (Z.to_nat i) = None)
    by (apply nth_error_None; lia).
  rewrite E. split; reflexivity.
Qed.

(** X4.  A record built from a data line has an empty text, and a null
    percentage, in every column that the header does not resolve or for
    which the line has no cell: a short line is not an error. *)
Theorem missing_cells_are_empty (idxMap : DashboardView.IdxMap)
    (line : jstring) (p : Project) :
  In p (DashboardView.rowStep idxMap [] line) ->
  let absent i := (i <= -1 \/ Z.of_nat (List.length (split 59%N line)) <= i)%Z in
  (absent (DashboardView.idx_cliente idxMap) -> CLIENTE p = [])
  /\ (absent (DashboardView.idx_tipoProjeto idxMap) -> TIPO_DE_PROJETO p = [])
  /\ (absent (DashboardView.idx_tipoProduto idxMap) -> TIPO_DE_PRODUTO p = [])
  /\ (absent (DashboardView.idx_bus idxMap) -> BUs p = [])
  /\ (absent (DashboardView.idx_cCusto idxMap) -> C_Custo p = [])
  /\ (absent (DashboardView.idx_status idxMap) -> STATUS p = [])
  /\ (absent (DashboardView.idx_perc idxMap) -> perc p = None).
Proof.
  intros Hp absent.
  change (DashboardView.rowStep idxMap [] line)
    with (fold_left (DashboardView.rowStep idxMap) [line] []) in Hp.
  rewrite rowStep_fold in Hp. cbn [app filter] in Hp.
  destruct (Spec.identified idxMap line); [|contradiction].
  destruct Hp as [<-|[]]. unfold Spec.recordOf.
  cbn [CLIENTE TIPO_DE_PROJETO TIPO_DE_PRODUTO BUs C_Custo STATUS perc].
  repeat split; intro H; try (now apply cellOr_absent).
  now rewrite (proj1 (cellOr_absent _ H)).
Qed.

(** A line with the client only, under a header whose BU column is the
    fourth. *)
Lemma missing_cells_are_empty_witness :
  let idxMap := DashboardView.mkIdxMap
                  [lit "CLIENTE"; lit "STATUS"; lit "%"; lit "BUs"] in
  let p := Spec.recordOf idxMap (lit "Acme") in
  In p (DashboardView.rowStep idxMap [] (lit "Acme")) /\ BUs p = [].
Proof.
  intros idxMap p.
  assert (Hp : In p (DashboardView.rowStep idxMap [] (lit "Acme")))
    by (left; reflexivity).
  split; [exact Hp|].
  destruct (missing_cells_are_empty idxMap (lit "Acme") p Hp)
    as [_ [_ [_ [Hb _]]]].
  apply Hb. right. vm_compute. discriminate.
Defined.

Lemma findIndex_from_first {A} (f : A -> bool) (l : list A) (i0 : Z) :
  (findIndex_from f l i0 = (-1)%Z /\ forall x, In x l -> f x = false)
  \/ (exists pre h post,
        l = pre ++ h :: post
        /\ findIndex_from f l i0 = (i0 + Z.of_nat (List.length pre))%Z
        /\ f h = true /\ forall x, In x pre -> f x = false).
Proof.
  revert i0. induction l as [|y l IH]; intro i0; simpl.
  - left. split; [reflexivity|]. intros x [].
  - destruct (f y) eqn:Ey.
    + right. exists [], y, l. simpl. repeat split; trivial; try lia;
        try contradiction.
    + destruct (IH (i0 + 1)%Z) as [[E N]|[pre [h [post [E [I [Hh Hpre]]]]]]].
      * left. split; [exact E|]. intros x [<-|Hx]; [exact Ey|now apply N].
      * right. exists (y :: pre), h, post.
        split; [now rewrite E|]. split; [rewrite I; cbn [List.length]; lia|].
        split; [exact Hh|].
        intros x [<-|Hx]; [exact Ey|now apply Hpre].
Qed.

(** X5.  A column is resolved to the position of the first header token
    that equals its name up to letter case, and to -1 when no token does;
    a name that occurs twice resolves to its first occurrence. *)
Theorem column_resolved_to_first_match (headers : list jstring) (name : jstring) :
  let i := DashboardView.findIndex headers [name] in
  (i = (-1)%Z
   /\ forall h, In h headers -> toLowerCase h <> toLowerCase name)
  \/ (exists pre h post,
        headers = pre ++ h :: post
        /\ i = Z.of_nat (List.length pre)
        /\ toLowerCase h = toLowerCase name
        /\ forall x, In x pre -> toLowerCase x <> toLowerCase name).
Proof.
  cbv zeta. unfold DashboardView.findIndex, JS.findIndex.
  set (f := fun h => eqs (toLowerCase h) (toLowerCase name)).
  assert (F : forall x, f x = false -> toLowerCase x <> toLowerCase name).
  { intros x Hx E. apply eqs_true in E. unfold f in Hx. congruence. }
  destruct (findIndex_from_first f headers 0)
    as [[E N]|[pre [h [post [E [I [Hh Hpre]]]]]]].
  - left. rewrite E. cbn. split; [reflexivity|]. intros h Hh. now apply F, N.
  - right. exists pre, h, post. rewrite I.
    destruct (Z.eqb_spec (0 + Z.of_nat (List.length pre)) (-1)); [lia|].
    cbn [negb]. split; [exact E|]. split; [lia|].
    split; [now apply eqs_true|].
    intros x Hx. now apply F, Hpre.
Qed.

Lemma split_cons (sep c : N) (s : jstring) :
  exists cur rest, split sep s = cur :: rest.
Proof.
  destruct s as [|x s]; simpl; [now eexists; eexists|].
  destruct (x =? sep)%N; [now eexists; eexists|].
  destruct (split sep s); now eexists; eexists.
Qed.

Lemma join_cons (sep : N) (c cur : jstring) (rest : list jstring) :
  Spec.join sep ((c ++ cur) :: rest) = c ++ Spec.join sep (cur :: rest).
Proof.
  destruct rest; simpl; [reflexivity|]. now rewrite <- app_assoc.
Qed.

Lemma join_split (sep : N) (s : jstring) : Spec.join sep (split sep s) = s.
Proof.
  induction s as [|x s IH]; [reflexivity|].
  simpl. destruct (split_cons sep x s) as [cur [rest E]]. rewrite E in *.
  destruct (N.eqb_spec x sep) as [->|_].
  - change (Spec.join sep ([] :: cur :: rest))
      with (sep :: Spec.join sep (cur :: rest)). now rewrite IH.
  - change (x :: cur) with ([x] ++ cur). rewrite join_cons, IH. reflexivity.
Qed.

Lemma split_cells_free (sep : N) (s : jstring) :
  Forall (fun c => ~ In sep c) (split sep s).
Proof.
  induction s as [|x s IH]; simpl.
  - constructor; [intros []|constructor].
  - destruct (N.eqb_spec x sep) as [->|Hne].
    + constructor; [intros []|exact IH].
    + destruct (split sep s) as [|cur rest].
      * constructor; [|constructor]. intros [H|[]]. congruence.
      * inversion IH; subst. constructor; [|assumption].
        intros [H|H]; [congruence|contradiction].
Qed.

Lemma split_length (sep : N) (s : jstring) :
  List.length (split sep s) = S (count_occ N.eq_dec s sep).
Proof.
  induction s as [|x s IH]; [reflexivity|].
  simpl. destruct (N.eqb_spec x sep) as [->|Hne].
  - destruct (N.eq_dec sep sep); [|congruence]. simpl. now rewrite IH.
  - destruct (N.eq_dec x sep); [congruence|].
    destruct (split sep s); simpl in *; lia.
Qed.

Lemma split_app (sep : N) (c s : jstring) :
  ~ In sep c -> split sep (c ++ sep :: s) = c :: split sep s.
Proof.
  induction c as [|x c IH]; intro H; simpl.
  - now rewrite N.eqb_refl.
  - destruct (N.eqb_spec x sep) as [->|_]; [exfalso; apply H; now left|].
    rewrite IH; [reflexivity|]. intro Hc. apply H. now right.
Qed.

Lemma split_absent (sep : N) (c : jstring) : ~ In sep c -> split sep c = [c].
Proof.
  induction c as [|x c IH]; intro H; simpl; [reflexivity|].
  destruct (N.eqb_spec x sep) as [->|_]; [exfalso; apply H; now left|].
  rewrite IH; [reflexivity|]. intro Hc. apply H. now right.
Qed.

(** X6.  Splitting a line on a separator loses nothing: joining the
    cells gives the line back, no cell holds the separator, there is one
    cell more than separators (so never zero cells), and a list of
    separator-free cells that is not empty is recovered from its join. *)
Theorem split_join_round_trip (sep : N) :
  (forall s, Spec.join sep (split sep s) = s)
  /\ (forall s, Forall (fun c => ~ In sep c) (split sep s))
  /\ (forall s, List.length (split sep s) = S (count_occ N.eq_dec s sep))
  /\ (forall cells, cells <> [] -> Forall (fun c => ~ In sep c) cells ->
        split sep (Spec.join sep cells) = cells).
Proof.
  split; [apply join_split|]. split; [apply split_cells_free|].
  split; [apply split_length|].
  intros cells NE F. induction F as [|c rest Hc F IH]; [congruence|].
  destruct rest as [|c2 rest].
  - simpl. now apply split_absent.
  - change (Spec.join sep (c :: c2 :: rest))
      with (c ++ sep :: Spec.join sep (c2 :: rest)).
    rewrite split_app by exact Hc. rewrite IH; [reflexivity|discriminate].
Qed.

Lemma split_join_round_trip_witness :
  split 59%N (Spec.join 59%N [lit "Acme"; lit ""; lit "80%"])
  = [lit "Acme"; lit ""; lit "80%"].
Proof.
  apply (proj2 (proj2 (proj2 (split_join_round_trip 59%N)))).
  - discriminate.
  - repeat constructor; intro H; repeat (destruct H as [H|H]; [discriminate|]);
      exact H.
Defined.

End ParserCells.

Section ParserEncoding.

Lemma splitLines_other (c : N) (s : jstring) :
  c <> 10%N -> c <> 13%N ->
  splitLines (c :: s) =
  match splitLines s with
  | cur :: rest => (c :: cur) :: rest
  | [] => [[c]]
  end.
Proof.
  intros H10 H13. simpl.
  destruct (N.eqb_spec c 10); [contradiction|].
  destruct (N.eqb_spec c 13); [contradiction|].
  destruct s; reflexivity.
Qed.

(** Without carriage returns the lines are the pieces between line
    feeds. *)
Lemma splitLines_split (t : jstring) :
  ~ In 13%N t -> splitLines t = split 10%N t.
Proof.
  induction t as [|c t IH]; intro H; [reflexivity|].
  assert (Ht : ~ In 13%N t) by (intro X; apply H; now right).
  assert (Hc : c <> 13%N) by (intro X; apply H; now left).
  destruct (N.eq_dec c 10) as [->|Hn].
  - simpl. now rewrite IH.
  - rewrite splitLines_other by assumption. rewrite IH by exact Ht.
    simpl. destruct (N.eqb_spec c 10); [contradiction|reflexivity].
Qed.

Lemma splitLines_toCRLF (t : jstring) :
  ~ In 13%N t -> splitLines (Spec.toCRLF t) = splitLines t.
Proof.
  induction t as [|c t IH]; intro H; [reflexivity|].
  assert (Ht : ~ In 13%N t) by (intro X; apply H; now right).
  assert (Hc : c <> 13%N) by (intro X; apply H; now left).
  unfold Spec.toCRLF in *. cbn [flat_map].
  destruct (N.eqb_spec c 10) as [->|Hn].
  - cbn [app]. simpl splitLines at 1 2. now rewrite IH.
  - cbn [app]. rewrite !splitLines_other by assumption. now rewrite IH.
Qed.

Lemma stripBom_toCRLF (t : jstring) :
  DashboardView.stripBom (Spec.toCRLF t) = Spec.toCRLF (DashboardView.stripBom t).
Proof.
  destruct t as [|c t]; [reflexivity|].
  unfold Spec.toCRLF. cbn [flat_map DashboardView.stripBom].
  destruct (N.eqb_spec c 10) as [->|Hn]; [reflexivity|].
  cbn [app DashboardView.stripBom].
  destruct (c =? 65279)%N; [reflexivity|].
  cbn [flat_map]. destruct (N.eqb_spec c 10); [contradiction|reflexivity].
Qed.

Lemma parse_by_lines (t u : jstring) :
  splitLines (DashboardView.stripBom t) = splitLines (DashboardView.stripBom u) ->
  DashboardView.parseTeleinfoCsv t = DashboardView.parseTeleinfoCsv u.
Proof.
  intro E. rewrite !parseTeleinfoCsv_normalizer.
  unfold Spec.normalizer, Spec.headerAndRest. now rewrite E.
Qed.

(** X7.  The parser does not depend on the line ending or on a leading
    byte order mark: a text without carriage returns gives the same
    records and alerts when its line feeds are written CR LF, and when a
    byte order mark is put in front of it. *)
Theorem parser_ignores_line_ending_and_bom (text : jstring) :
  ~ In 13%N text ->
  DashboardView.parseTeleinfoCsv (Spec.toCRLF text)
  = DashboardView.parseTeleinfoCsv text
  /\ (DashboardView.stripBom text = text ->
      DashboardView.parseTeleinfoCsv (65279%N :: Spec.toCRLF text)
      = DashboardView.parseTeleinfoCsv text
      /\ DashboardView.parseTeleinfoCsv (65279%N :: text)
         = DashboardView.parseTeleinfoCsv text).
Proof.
  intro H.
  assert (Hs : ~ In 13%N (DashboardView.stripBom text)).
  { destruct text as [|c t]; [exact H|]. simpl.
    destruct (c =? 65279)%N; [|exact H]. intro X. apply H. now right. }
  split.
  - apply parse_by_lines. rewrite stripBom_toCRLF. now apply splitLines_toCRLF.
  - intro B. split; apply parse_by_lines; cbn [DashboardView.stripBom N.eqb Pos.eqb].
    + rewrite B. now apply splitLines_toCRLF.
    + now rewrite B.
Qed.

Lemma parser_ignores_line_ending_and_bom_witness :
  DashboardView.parseTeleinfoCsv
    (Spec.toCRLF (lit "CLIENTE;%" ++ [10%N] ++ lit "Acme;80%"))
  = DashboardView.parseTeleinfoCsv (lit "CLIENTE;%" ++ [10%N] ++ lit "Acme;80%").
Proof.
  refine (proj1 (@parser_ignores_line_ending_and_bom
                   (lit "CLIENTE;%" ++ [10%N] ++ lit "Acme;80%") _)).
  intro H. repeat (destruct H as [H|H]; [discriminate|]). exact H.
Defined.

End ParserEncoding.

(** ** Colours *)

Section Colours.

Lemma normalizeStatus_idem (s : jstring) :
  DashboardView.normalizeStatus (DashboardView.normalizeStatus s)
  = DashboardView.normalizeStatus s.
Proof. rewrite !normalizeStatus_normalize. apply normalize_idem. Qed.

(** X8.  The badge style and the chart colour of a status always come
    from the same entry of the colour table, and both are unchanged when
    the status is normalized first; the presentation's copy of the chart
    colour gives the same colour. *)
Theorem status_badge_and_chart_agree (s : jstring) :
  (exists st,
     In st [ DashboardView.statusColors_FINALIZADO;
             DashboardView.statusColors_EM_ANDAMENTO;
             DashboardView.statusColors_PARALIZADO;
             DashboardView.statusColors_NAO_INICIADO;
             DashboardView.statusColors_DEFAULT ]
     /\ DashboardView.getStatusClass s = pill st
     /\ DashboardView.getStatusChartColor s = chart st)
  /\ DashboardView.getStatusClass (DashboardView.normalizeStatus s)
     = DashboardView.getStatusClass s
  /\ DashboardView.getStatusChartColor (DashboardView.normalizeStatus s)
     = DashboardView.getStatusChartColor s
  /\ PresentationView.getStatusChartColor s = DashboardView.getStatusChartColor s.
Proof.
  split; [|split; [|split]].
  - unfold DashboardView.getStatusClass, DashboardView.getStatusChartColor.
    cbv zeta.
    destruct (startsWith FINALIZADO _);
      [eexists; split; [left; reflexivity|split; reflexivity]|].
    destruct (startsWith EM_ANDAMENTO _);
      [eexists; split; [right; left; reflexivity|split; reflexivity]|].
    destruct (startsWith PARALIZADO _);
      [eexists; split; [do 2 right; left; reflexivity|split; reflexivity]|].
    destruct (startsWith NAO_INICIADO _);
      [eexists; split; [do 3 right; left; reflexivity|split; reflexivity]|].
    eexists; split; [do 4 right; left; reflexivity|split; reflexivity].
  - unfold DashboardView.getStatusClass. cbv zeta.
    now rewrite normalizeStatus_idem.
  - unfold DashboardView.getStatusChartColor. cbv zeta.
    now rewrite normalizeStatus_idem.
  - reflexivity.
Qed.

(** X9.  The colour of a business unit is one of the five colours of the
    code and does not depend on surrounding white space or on letters
    being already upper case; the presentation's copy gives the same
    colour. *)
Theorem bu_colour_insensitive (bu : jstring) :
  In (DashboardView.getBuChartColor bu)
     [lit "#f97316"; lit "#10b981"; lit "#0b5ed7"; lit "#6b7280"; lit "#8b949e"]
  /\ DashboardView.getBuChartColor (trim bu) = DashboardView.getBuChartColor bu
  /\ DashboardView.getBuChartColor (toUpperCase bu) = DashboardView.getBuChartColor bu
  /\ PresentationView.getBuChartColor bu = DashboardView.getBuChartColor bu.
Proof.
  split; [|split; [|split]].
  - unfold DashboardView.getBuChartColor. cbv zeta.
    repeat match goal with
           | |- context [if ?b then _ else _] => destruct b
           end;
      repeat (first [left; reflexivity | right]).
  - unfold DashboardView.getBuChartColor. cbv zeta. now rewrite trim_idem.
  - unfold DashboardView.getBuChartColor. cbv zeta.
    now rewrite trim_upper, toUpperCase_idem.
  - reflexivity.
Qed.

End Colours.

(** ** Counters and charts *)

Section Charts.

Variable largeToString : Qc -> jstring.

Lemma buckets_partition (data : list Project) :
  let n b := List.length
               (filter (fun p => Spec.Bucket_eqb (Spec.bucketOf (STATUS p)) b) data) in
  n Spec.B_FINALIZADO + n Spec.B_EM_ANDAMENTO + n Spec.B_PARALIZADO
  + n Spec.B_NAO_INICIADO + n Spec.B_DEFAULT = List.length data.
Proof.
  induction data as [|p data IH]; [reflexivity|].
  cbv zeta in *. cbn [filter List.length].
  destruct (Spec.bucketOf (STATUS p)); cbn [Spec.Bucket_eqb List.length]; lia.
Qed.

(** X10.  The four status counters and the number of displayed records
    whose status starts with none of the four labels add up to the total:
    no record is counted twice and the counters never exceed the total. *)
Theorem counters_partition_total (projects : list Project)
    (statusFilter buFilter clientFilter : jstring) :
  let data := DashboardView.filteredProjects projects
                statusFilter buFilter clientFilter in
  let sm := DashboardView.summary
              (DashboardView.dashboard largeToString projects
                 statusFilter buFilter clientFilter) in
  total sm = List.length data
  /\ finished sm + inProgress sm + paralyzed sm + notStarted sm
     + List.length
         (filter (fun p => negb (startsWith FINALIZADO (STATUS p))
                           && negb (startsWith EM_ANDAMENTO (STATUS p))
                           && negb (startsWith PARALIZADO (STATUS p))
                           && negb (startsWith NAO_INICIADO (STATUS p))) data)
     = total sm.
Proof.
  intros data sm. split; [reflexivity|].
  destruct (tally_counts data emptyTally) as [H1 [H2 [H3 H4]]].
  unfold sm, DashboardView.dashboard.
  cbn [DashboardView.summary finished inProgress paralyzed notStarted total].
  fold data. rewrite H1, H2, H3, H4. cbn [emptyTally t_finished t_inProgress
    t_paralyzed t_notStarted Nat.add].
  rewrite <- (buckets_partition data). cbv zeta. f_equal. f_equal.
  apply filter_ext. intro p.
  unfold Spec.bucketOf, Spec.rules. cbn [find fst snd].
  destruct (startsWith FINALIZADO (STATUS p)); [reflexivity|].
  destruct (startsWith EM_ANDAMENTO (STATUS p)); [reflexivity|].
  destruct (startsWith PARALIZADO (STATUS p)); [reflexivity|].
  destruct (startsWith NAO_INICIADO (STATUS p)); reflexivity.
Qed.

End Charts.

Section ChartData.

Variable largeToString : Qc -> jstring.

Lemma eqs_refl (k : jstring) : eqs k k = true.
Proof. now apply eqs_true. Qed.

Lemma eqs_sym (a b : jstring) : eqs a b = eqs b a.
Proof.
  destruct (eqs a b) eqn:E.
  - apply eqs_true in E. subst. symmetry. apply eqs_refl.
  - destruct (eqs b a) eqn:E'; [|reflexivity].
    apply eqs_true in E'. subst. rewrite eqs_refl in E. discriminate.
Qed.

Lemma get_set (o : object nat) (k k' : jstring) (v : nat) :
  get (set o k v) k' = if eqs k k' then Some v else get o k'.
Proof.
  induction o as [|[k0 v0] o IH]; simpl.
  - destruct (eqs k k'); reflexivity.
  - destruct (eqs k0 k) eqn:E0.
    + apply eqs_true in E0. subst k0. simpl. destruct (eqs k k'); reflexivity.
    + simpl. destruct (eqs k0 k') eqn:E1; [|exact IH].
      apply eqs_true in E1. subst k'. rewrite eqs_sym, E0. reflexivity.
Qed.

Lemma keys_of_set (o : object nat) (k : jstring) (v : nat) (x : jstring) :
  In x (map fst (set o k v)) -> In x (map fst o) \/ x = k.
Proof.
  induction o as [|[k0 v0] o IH]; simpl.
  - intros [<-|[]]. now right.
  - destruct (eqs k0 k); simpl; intros [<-|H]; auto.
    destruct (IH H); auto.
Qed.

Lemma keys_set (o : object nat) (k : jstring) (v : nat) :
  NoDup (map fst o) -> NoDup (map fst (set o k v)).
Proof.
  induction o as [|[k0 v0] o IH]; simpl; intro ND.
  - repeat constructor. intros [].
  - inversion ND as [|? ? Hk0 ND']; subst.
    destruct (eqs k0 k) eqn:E; simpl.
    + constructor; assumption.
    + constructor; [|now apply IH].
      intro H. apply keys_of_set in H. destruct H as [H|H]; [contradiction|].
      subst k0. rewrite eqs_refl in E. discriminate.
Qed.

Lemma sum_increment (o : object nat) (k : jstring) :
  Spec.sumValues (increment o k) = S (Spec.sumValues o).
Proof.
  unfold increment.
  assert (G : forall d, Spec.sumValues (set o k
                (match get o k with Some v => v | None => d end + 1))
              = match get o k with Some _ => S (Spec.sumValues o)
                                 | None => d + 1 + Spec.sumValues o end).
  { induction o as [|[k0 v0] o IH]; intro d; simpl; [lia|].
    destruct (eqs k0 k); simpl; [lia|].
    rewrite IH. destruct (get o k); lia. }
  rewrite G. destruct (get o k); lia.
Qed.

Lemma increments_spec (ks : list jstring) (o : object nat) :
  NoDup (map fst o) ->
  let o' := fold_left increment ks o in
  NoDup (map fst o')
  /\ Spec.sumValues o' = Spec.sumValues o + List.length ks
  /\ forall k, Spec.valueOr0 o' k = Spec.valueOr0 o k + Spec.countKey k ks
               /\ (get o' k = None <-> get o k = None /\ Spec.countKey k ks = 0).
Proof.
  revert o. induction ks as [|x ks IH]; intros o ND; cbn [fold_left].
  - cbv zeta. split; [exact ND|]. split; [simpl; lia|].
    intro k. unfold Spec.countKey. simpl. split; [lia|tauto].
  - destruct (IH (increment o x) (keys_set _ _ _ ND)) as [ND' [S' G]].
    cbv zeta. split; [exact ND'|].
    split; [rewrite S', sum_increment; simpl; lia|].
    intro k. destruct (G k) as [V N]. rewrite V, N.
    unfold Spec.valueOr0, increment, Spec.countKey. rewrite get_set. cbn [filter].
    destruct (eqs x k) eqn:E; cbn [List.length].
    + apply eqs_true in E. subst x. split; [lia|].
      split; [intros [H _]; discriminate|intros [_ H]; discriminate].
    + split; [lia|tauto].
Qed.

Lemma get_In (o : object nat) (k : jstring) (v : nat) :
  get o k = Some v -> In (k, v) o.
Proof.
  induction o as [|[k0 v0] o IH]; simpl; [discriminate|].
  destruct (eqs k0 k) eqn:E.
  - apply eqs_true in E. subst. intro H. inversion H. now left.
  - intro H. right. now apply IH.
Qed.

Lemma In_get (o : object nat) (k : jstring) (v : nat) :
  NoDup (map fst o) -> In (k, v) o -> get o k = Some v.
Proof.
  induction o as [|[k0 v0] o IH]; simpl; intros ND H; [contradiction|].
  inversion ND as [|? ? Hk0 ND']; subst.
  destruct H as [H|H].
  - inversion H; subst. now rewrite eqs_refl.
  - destruct (eqs k0 k) eqn:E; [|now apply IH].
    apply eqs_true in E. subst k0. exfalso. apply Hk0.
    change k with (fst (k, v)). now apply in_map.
Qed.

Lemma insertIndexed_perm (i : N) (e : jstring * nat)
    (l : list (N * (jstring * nat))) :
  Permutation (insertIndexed i e l) ((i, e) :: l).
Proof.
  induction l as [|[j e'] l IH]; simpl; [reflexivity|].
  destruct (i <? j)%N; [reflexivity|].
  rewrite IH. apply perm_swap.
Qed.

Lemma entries_perm (o : object nat) : Permutation (entries o) o.
Proof.
  unfold entries, indexedEntries.
  assert (G : forall acc : list (N * (jstring * nat)),
    Permutation
      (map snd (fold_left
         (fun acc e => match arrayIndex (fst e) with
                       | Some i => insertIndexed i e acc
                       | None => acc
                       end) o acc)
       ++ filter (fun e => match arrayIndex (fst e) with
                           | Some _ => false | None => true end) o)
      (map snd acc ++ o)).
  { induction o as [|e o IH]; intro acc; cbn [fold_left filter].
    - reflexivity.
    - destruct (arrayIndex (fst e)) as [i|].
      + rewrite IH. rewrite (Permutation_map snd (insertIndexed_perm i e acc)).
        cbn [map snd app]. apply Permutation_middle.
      + rewrite <- Permutation_middle. rewrite IH.
        apply Permutation_middle. }
  exact (G []).
Qed.

Lemma sumValues_perm (a b : object nat) :
  Permutation a b -> Spec.sumValues a = Spec.sumValues b.
Proof.
  induction 1; simpl; lia.
Qed.

Lemma tally_objects (data : list Project) (t : Tally) :
  statusCounts (fold_left DashboardView.tallyStep data t)
  = fold_left increment (map (Spec.labelOf STATUS) data) (statusCounts t)
  /\ buCounts (fold_left DashboardView.tallyStep data t)
     = fold_left increment (map (Spec.labelOf BUs) data) (buCounts t).
Proof.
  revert t. induction data as [|p data IH]; intro t; [split; reflexivity|].
  cbn [fold_left map]. destruct (IH (DashboardView.tallyStep t p)) as [H1 H2].
  rewrite H1, H2. unfold DashboardView.tallyStep. cbv zeta.
  destruct (startsWith FINALIZADO (STATUS p)); [split; reflexivity|].
  destruct (startsWith EM_ANDAMENTO (STATUS p)); [split; reflexivity|].
  destruct (startsWith PARALIZADO (STATUS p)); [split; reflexivity|].
  destruct (startsWith NAO_INICIADO (STATUS p)); split; reflexivity.
Qed.

Lemma countKey_occurrences (field : Project -> jstring) (k : jstring)
    (data : list Project) :
  Spec.countKey k (map (Spec.labelOf field) data) = Spec.occurrences field k data.
Proof.
  unfold Spec.countKey, Spec.occurrences.
  induction data as [|p data IH]; [reflexivity|].
  cbn [map filter]. destruct (eqs (Spec.labelOf field p) k); simpl; now rewrite IH.
Qed.

Lemma chartTotal_sum (colour : jstring -> jstring) (es : object nat) :
  Spec.chartTotal
    (map (fun e => {| datum_name := fst e; Projetos := snd e;
                      color := colour (fst e) |}) es)
  = Spec.sumValues es.
Proof.
  induction es as [|e es IH]; [reflexivity|]. simpl. now rewrite <- IH.
Qed.

Lemma chart_of_counts (field : Project -> jstring) (colour : jstring -> jstring)
    (data : list Project) :
  Spec.isChartOf field colour data
    (map (fun e => {| datum_name := fst e; Projetos := snd e;
                      color := colour (fst e) |})
         (entries (fold_left increment (map (Spec.labelOf field) data) []))).
Proof.
  set (o := fold_left increment (map (Spec.labelOf field) data) []).
  destruct (@increments_spec (map (Spec.labelOf field) data) []
              ltac:(constructor)) as [ND [S G]]. fold o in ND, S, G.
  pose proof (entries_perm o) as P.
  unfold Spec.isChartOf. split; [|split; [|split]].
  - rewrite map_map. cbn [datum_name].
    apply (Permutation_NoDup (l := map fst o)); [|exact ND].
    symmetry. now apply Permutation_map.
  - intros d Hd. apply in_map_iff in Hd. destruct Hd as [[k v] [<- He]].
    cbn [datum_name Projetos color fst snd].
    apply (Permutation_in _ P) in He. apply (In_get _ _ _ ND) in He.
    destruct (G k) as [V N]. unfold Spec.valueOr0 in V. rewrite He in V.
    cbn [get] in V. rewrite countKey_occurrences in V, N.
    split; [exact V|]. split; [|reflexivity].
    destruct (Spec.occurrences field k data) eqn:Z0; [|lia].
    assert (X : get o k = None) by (apply N; split; reflexivity).
    congruence.
  - intros p Hp. set (k := Spec.labelOf field p).
    destruct (get o k) as [v|] eqn:Gk.
    + exists {| datum_name := k; Projetos := v; color := colour k |}.
      split; [|reflexivity].
      apply in_map_iff. exists (k, v). split; [reflexivity|].
      apply (Permutation_in _ (Permutation_sym P)). now apply get_In.
    + exfalso. apply (G k) in Gk. destruct Gk as [_ C].
      rewrite countKey_occurrences in C. unfold Spec.occurrences in C.
      assert (I : In p (filter (fun q => eqs (Spec.labelOf field q) k) data)).
      { apply filter_In. split; [exact Hp|]. apply eqs_refl. }
      destruct (filter _ data); [contradiction|discriminate].
  - rewrite chartTotal_sum, (sumValues_perm P), S, length_map. reflexivity.
Qed.

(** X11.  When no status or BU label of the displayed records is the
    name of a member every object inherits ("constructor", "toString",
    "__proto__" and the like), the status chart of the dashboard has one
    bar per distinct status of the displayed records (with "N/A" for an
    empty status); each bar counts the records with its label, so it is
    at least 1, and is coloured by its label; the bars add up to the
    total.  The BU chart is the same for the BU field. *)
Theorem charts_count_displayed_records (projects : list Project)
    (statusFilter buFilter clientFilter : jstring) :
  let data := DashboardView.filteredProjects projects
                statusFilter buFilter clientFilter in
  let view := DashboardView.dashboard largeToString projects
                statusFilter buFilter clientFilter in
  Spec.plainLabels data ->
  Spec.isChartOf STATUS DashboardView.getStatusChartColor data
    (DashboardView.statusChartData view)
  /\ Spec.isChartOf BUs DashboardView.getBuChartColor data
       (DashboardView.buChartData view)
  /\ Spec.chartTotal (DashboardView.statusChartData view)
     = total (DashboardView.summary view).
Proof.
  intros data view _.
  destruct (tally_objects data emptyTally) as [H1 H2].
  unfold view, DashboardView.dashboard.
  cbn [DashboardView.statusChartData DashboardView.buChartData
       DashboardView.summary total].
  fold data. rewrite H1, H2. cbn [emptyTally statusCounts buCounts].
  split; [apply chart_of_counts|]. split; [apply chart_of_counts|].
  apply (chart_of_counts STATUS DashboardView.getStatusChartColor data).
Qed.

End ChartData.

(** Two records in progress and one finished: the bars add up to 3. *)
Lemma charts_count_displayed_records_witness :
  let r s := {| CLIENTE := lit "Acme"; TIPO_DE_PROJETO := [];
                TIPO_DE_PRODUTO := []; BUs := lit "TI"; C_Custo := lit "1";
                STATUS := s; perc := None |} in
  let l := [r (lit "EM ANDAMENTO"); r (lit "FINALIZADO"); r (lit "EM ANDAMENTO")] in
  Spec.plainLabels (DashboardView.filteredProjects l [] [] [])
  /\ Spec.chartTotal
       (DashboardView.statusChartData (DashboardView.dashboard (fun _ => []) l [] [] []))
     = 3.
Proof.
  intros r l.
  assert (P : Spec.plainLabels (DashboardView.filteredProjects l [] [] [])).
  { repeat constructor; intro H; vm_compute in H;
      repeat (destruct H as [H|H]; [discriminate|]); exact H. }
  split; [exact P|].
  exact (proj2 (proj2 (@charts_count_displayed_records (fun _ => []) l [] [] [] P))).
Defined.

(** ** Filtering *)

Section Filtering.

Variable largeToString : Qc -> jstring.




End Filtering.

(** ** The text of the timeline *)

Section TimelineTextFacts.

Variable hostToString : Qc -> jstring.

Lemma ceil_div_days (a : Z) :
  ceil (div (ofZ a) (ofZ PresentationView.oneDay)) = ofZ (Spec.daysUp a).
Proof.
  rewrite div_ofZ by reflexivity. unfold ceil. f_equal.
  cbn [this Q2Qc]. rewrite Qred_correct. reflexivity.
Qed.

Lemma abs_ofZ (z : Z) : abs (ofZ z) = ofZ (Z.abs z).
Proof.
  unfold abs, ofZ. change (Q2Qc 0) with (Q2Qc (inject_Z 0)).
  rewrite Qcltb_Z. destruct (Z.ltb_spec z 0).
  - f_equal. rewrite Q2Qc_opp, <- inject_Z_opp. f_equal. f_equal. lia.
  - f_equal. f_equal. f_equal. lia.
Qed.

Lemma strictEq_ofZ (a b : Z) : strictEq (ofZ a) (ofZ b) = (a =? b)%Z.
Proof. apply Qceqb_Z. Qed.

Lemma toString_days (n : Z) :
  (0 <= n < 10 ^ 21)%Z ->
  toString hostToString (ofZ n) ++ PresentationView.dias (ofZ n)
  = Spec.showDays n.
Proof.
  intro H. unfold toString, ofZ, Spec.showDays, PresentationView.dias, gt.
  change (Q2Qc 0) with (Q2Qc (inject_Z 0)).
  rewrite !Qcltb_Z. fold (ofZ n) (ofZ 1). rewrite lt_ofZ.
  rewrite this_ofZ. cbn [Qden Qnum inject_Z Pos.eqb andb].
  destruct (Z.ltb_spec (- 10 ^ 21) n); [|lia].
  destruct (Z.ltb_spec n (10 ^ 21)); [|lia].
  destruct (Z.ltb_spec n 0); [lia|]. reflexivity.
Qed.

Lemma daysUp_positive (a : Z) : (0 < a -> 1 <= Spec.daysUp a <= a)%Z.
Proof.
  intro H. unfold Spec.daysUp, PresentationView.oneDay.
  pose proof (Z.div_mod (- a) (1000 * 60 * 60 * 24) ltac:(lia)) as D.
  pose proof (Z.mod_pos_bound (- a) (1000 * 60 * 60 * 24) ltac:(lia)) as B.
  lia.
Qed.

Lemma daysUp_zero : Spec.daysUp 0 = 0%Z.
Proof. reflexivity. Qed.

Lemma daysDown (a : Z) :
  (0 < a -> - Spec.daysUp (- a) = a / PresentationView.oneDay
            /\ 0 <= a / PresentationView.oneDay <= a
            /\ (a / PresentationView.oneDay = 0 <-> a < PresentationView.oneDay))%Z.
Proof.
  intro H. unfold Spec.daysUp, PresentationView.oneDay.
  rewrite !Z.opp_involutive.
  pose proof (Z.div_mod a (1000 * 60 * 60 * 24) ltac:(lia)) as D.
  pose proof (Z.mod_pos_bound a (1000 * 60 * 60 * 24) ltac:(lia)) as B.
  split; [reflexivity|]. lia.
Qed.

(** X13.  For valid dates with start <= end, the text of the timeline is
    "Finalizado ha N dia(s)" after the end, N being the whole days past,
    and "Finaliza hoje" while less than one whole day has passed;
    "Inicia em N dia(s)" before the start and "Faltam N dia(s)" from the
    start up to the end, both with N at least 1 and rounded up; and
    "Finaliza hoje" on the end date.  The plural "s" is used for N > 1. *)
Theorem timeline_text_cases (today s e : Z) :
  Spec.validTime today -> Spec.validTime s -> Spec.validTime e -> (s <= e)%Z ->
  PresentationView.timelineText hostToString today (Some (Some s)) (Some (Some e))
  = (if (e <? today)%Z then
       if ((today - e) / PresentationView.oneDay =? 0)%Z then lit "Finaliza hoje"
       else lit "Finalizado h" ++ [225%N] ++ lit " "
            ++ Spec.showDays ((today - e) / PresentationView.oneDay)
     else if (today <? s)%Z then
       lit "Inicia em " ++ Spec.showDays (Spec.daysUp (s - today))
     else if (e =? today)%Z then lit "Finaliza hoje"
     else lit "Faltam " ++ Spec.showDays (Spec.daysUp (e - today)))
  /\ ((today < s)%Z -> (1 <= Spec.daysUp (s - today))%Z)
  /\ ((today < e)%Z -> (1 <= Spec.daysUp (e - today))%Z)
  /\ ((e < today < e + PresentationView.oneDay)%Z ->
      PresentationView.timelineText hostToString today
        (Some (Some s)) (Some (Some e)) = lit "Finaliza hoje").
Proof.
  intros Vt Vs Ve Hse. unfold Spec.validTime in *.
  assert (G : PresentationView.timelineText hostToString today
                (Some (Some s)) (Some (Some e))
    = (if (e <? today)%Z then
         if ((today - e) / PresentationView.oneDay =? 0)%Z then lit "Finaliza hoje"
         else lit "Finalizado h" ++ [225%N] ++ lit " "
              ++ Spec.showDays ((today - e) / PresentationView.oneDay)
       else if (today <? s)%Z then
         lit "Inicia em " ++ Spec.showDays (Spec.daysUp (s - today))
       else if (e =? today)%Z then lit "Finaliza hoje"
       else lit "Faltam " ++ Spec.showDays (Spec.daysUp (e - today)))).
  { unfold PresentationView.timelineText. cbv zeta.
    cbn [PresentationView.timeValue].
    rewrite le_ofZ. destruct (Z.leb_spec s e); [|lia].
    rewrite !sub_ofZ, !ceil_div_days. unfold gt. rewrite !lt_ofZ.
    destruct (Z.ltb_spec e today) as [Hpast|Hnot].
    - rewrite abs_ofZ, strictEq_ofZ.
      destruct (@daysDown (today - e) ltac:(lia)) as [E [B Z0]].
      replace (e - today)%Z with (- (today - e))%Z by lia.
      replace (Z.abs (Spec.daysUp (- (today - e))))
        with ((today - e) / PresentationView.oneDay)%Z by lia.
      destruct (Z.eqb_spec ((today - e) / PresentationView.oneDay) 0);
        [reflexivity|].
      rewrite toString_days by lia. reflexivity.
    - destruct (Z.ltb_spec today s) as [Hbefore|Hin].
      + pose proof (@daysUp_positive (s - today) ltac:(lia)).
        rewrite toString_days by lia. reflexivity.
      + rewrite strictEq_ofZ.
        destruct (Z.eqb_spec e today) as [->|Hne].
        * rewrite Z.sub_diag. reflexivity.
        * pose proof (@daysUp_positive (e - today) ltac:(lia)).
          destruct (Z.eqb_spec (Spec.daysUp (e - today)) 0); [lia|].
          rewrite toString_days by lia. reflexivity. }
  split; [exact G|]. split; [|split].
  - intro H. apply daysUp_positive. lia.
  - intro H. apply daysUp_positive. lia.
  - intros [H1 H2]. rewrite G.
    destruct (Z.ltb_spec e today); [|lia].
    destruct (@daysDown (today - e) ltac:(lia)) as [_ [_ Z0]].
    destruct (Z.eqb_spec ((today - e) / PresentationView.oneDay) 0);
      [reflexivity|].
    exfalso. apply n. apply Z0. lia.
Qed.

End TimelineTextFacts.

(** From 1 to 11 January 2024, seen on 6 January: five days are left. *)
Lemma timeline_text_cases_witness :
  PresentationView.timelineText (fun _ => []) 1704499200000
    (Some (Some 1704067200000%Z)) (Some (Some 1704931200000%Z))
  = lit "Faltam 5 dias".
Proof.
  refine (eq_trans (proj1 (@timeline_text_cases (fun _ => [])
            1704499200000 1704067200000 1704931200000 _ _ _ _)) _);
    unfold Spec.validTime; try lia.
  reflexivity.
Defined.

(** ** Editing a detailed project *)

Section PercentageFacts.

Lemma sum_of_percentages (xs : list number) :
  Forall Spec.isPercentage xs ->
  exists q, Spec.sum xs = Fin q
            /\ (0 <= this q)%Q
            /\ (this q <= inject_Z 100 * inject_Z (Z.of_nat (List.length xs)))%Q.
Proof.
  induction 1 as [|x xs Hx _ [q [E [L U]]]].
  - exists (Q2Qc (inject_Z 0)). split; [reflexivity|].
    rewrite this_0. simpl. split; [apply Qle_refl|]. unfold Qle. simpl. lia.
  - apply isPercentage_bounds in Hx. destruct Hx as [qx [-> [Lx Ux]]].
    exists (qx + q)%Qc. unfold Spec.sum in *. cbn [fold_right]. rewrite E.
    split; [reflexivity|]. rewrite this_plus.
    cbn [List.length]. rewrite Nat2Z.inj_succ, <- Z.add_1_r, inject_Z_plus.
    change (inject_Z 1) with 1%Q. change (inject_Z 100) with (100 # 1)%Q in *.
    change (0 <= this qx)%Q in Lx. change (this qx <= 100 # 1)%Q in Ux.
    split; lra.
Qed.

(** The mean of percentages is a percentage. *)
Lemma mean_of_percentages (xs : list number) :
  Forall Spec.isPercentage xs -> Spec.isPercentage (Spec.mean xs).
Proof.
  intro F. destruct xs as [|x xs].
  - apply isPercentage_bounds. exists (Q2Qc (inject_Z 0)).
    split; [reflexivity|]. rewrite this_0. split; [apply Qle_refl|].
    unfold Qle. simpl. lia.
  - destruct (sum_of_percentages F) as [q [E [L U]]].
    unfold Spec.mean. rewrite E. unfold div, ofZ.
    change (Q2Qc 0) with (Q2Qc (inject_Z 0)). rewrite Qceqb_Z.
    set (n := Z.of_nat (List.length (x :: xs))) in *.
    assert (Hn : (0 < n)%Z) by (unfold n; simpl; lia).
    destruct (Z.eqb_spec n 0); [lia|].
    apply isPercentage_bounds. eexists. split; [reflexivity|].
    rewrite this_div, this_ofZ.
    assert (Pn : (0 < inject_Z n)%Q)
      by (change 0%Q with (inject_Z 0); rewrite <- Zlt_Qlt; exact Hn).
    split.
    + apply Qle_shift_div_l; [exact Pn|]. rewrite Qmult_0_l. exact L.
    + apply Qle_shift_div_r; [exact Pn|]. exact U.
Qed.

End PercentageFacts.

Section DraftEdits.

Lemma replaceAt_length {A} (i : nat) (f : A -> A) (l : list A) :
  List.length (MonitoringView.replaceAt i f l) = List.length l.
Proof.
  revert i. induction l as [|x l IH]; intros [|i]; simpl; auto.
Qed.

Lemma replaceAt_nth {A} (i j : nat) (f : A -> A) (l : list A) :
  nth_error (MonitoringView.replaceAt i f l) j =
  if (j =? i)%nat then option_map f (nth_error l j) else nth_error l j.
Proof.
  revert i j. induction l as [|x l IH]; intros [|i] [|j]; simpl; auto.
  - destruct (j =? i)%nat; reflexivity.
Qed.

(** X14.  Editing the percentage of an existing step stores the value
    clamped to [0, 100] (a percentage whenever the input is a number,
    NaN when it is not), keeps the name of the step, and leaves the other
    steps, their number and the rest of the draft (name, start and end
    dates, sold and used hours) as they were. *)
Theorem step_edit_clamps_percentage (current : MonitoringView.Draft)
    (index : nat) (value : number) :
  (index < List.length (MonitoringView.d_steps current))%nat ->
  exists d st,
    MonitoringView.handleStepChange current index (MonitoringView.EditPerc value)
    = Some d
    /\ nth_error (MonitoringView.d_steps current) index = Some st
    /\ nth_error (MonitoringView.d_steps d) index
       = Some {| step_name := step_name st;
                 step_perc := max (ofZ 0) (min (ofZ 100) value) |}
    /\ (value <> NaN -> Spec.isPercentage (max (ofZ 0) (min (ofZ 100) value)))
    /\ (value = NaN -> max (ofZ 0) (min (ofZ 100) value) = NaN)
    /\ (forall j, j <> index ->
          nth_error (MonitoringView.d_steps d) j
          = nth_error (MonitoringView.d_steps current) j)
    /\ List.length (MonitoringView.d_steps d)
       = List.length (MonitoringView.d_steps current)
    /\ MonitoringView.d_name d = MonitoringView.d_name current
    /\ MonitoringView.d_soldHours d = MonitoringView.d_soldHours current
    /\ MonitoringView.d_usedHours d = MonitoringView.d_usedHours current
    /\ MonitoringView.d_start d = MonitoringView.d_start current
    /\ MonitoringView.d_end d = MonitoringView.d_end current.
Proof.
  intro H. unfold MonitoringView.handleStepChange.
  destruct (Nat.ltb_spec index (List.length (MonitoringView.d_steps current)));
    [|lia].
  destruct (nth_error (MonitoringView.d_steps current) index) as [st|] eqn:E;
    [|apply nth_error_None in E; lia].
  eexists. exists st. split; [reflexivity|]. split; [reflexivity|].
  cbn [MonitoringView.withSteps MonitoringView.d_steps MonitoringView.d_name
       MonitoringView.d_soldHours MonitoringView.d_usedHours
       MonitoringView.d_start MonitoringView.d_end].
  split; [rewrite replaceAt_nth, Nat.eqb_refl, E; reflexivity|].
  split; [apply clamp_stores_percentage|].
  split; [apply clamp_stores_percentage|].
  split.
  - intros j Hj. rewrite replaceAt_nth.
    destruct (Nat.eqb_spec j index); [contradiction|reflexivity].
  - split; [apply replaceAt_length|]. repeat split.
Qed.

Lemma step_edit_clamps_percentage_witness :
  exists d,
    MonitoringView.handleStepChange MonitoringView.initialProjectState 1
      (MonitoringView.EditPerc (ofZ 150)) = Some d
    /\ Spec.isPercentage (max (ofZ 0) (min (ofZ 100) (ofZ 150))).
Proof.
  destruct (@step_edit_clamps_percentage MonitoringView.initialProjectState 1
              (ofZ 150) ltac:(simpl; lia))
    as [d [st [H [_ [_ [P _]]]]]].
  exists d. split; [exact H|]. apply P. discriminate.
Defined.

Lemma ge_zero_hours (value : number) :
  Spec.isHours (if ge value (ofZ 0) then value else ofZ 0).
Proof.
  unfold Spec.isHours, ge. destruct (le (ofZ 0) value) eqn:E; [exact E|].
  reflexivity.
Qed.

(** X15.  Editing an hours bucket never stores a negative number or NaN:
    it stores the input when that is at least 0 and 0 otherwise, and it
    changes no other bucket, not the other hours structure, and nothing
    else of the draft. *)
Theorem hours_edit_stores_non_negative (prev : MonitoringView.Draft)
    (type : MonitoringView.HoursType) (bu : MonitoringView.Bu) (value : number) :
  let d := MonitoringView.handleHoursChange prev type bu value in
  let stored := MonitoringView.getBu (MonitoringView.getHours d type) bu in
  Spec.isHours stored
  /\ (Spec.isHours value -> stored = value)
  /\ (~ Spec.isHours value -> stored = ofZ 0)
  /\ (forall bu', bu' <> bu ->
        MonitoringView.getBu (MonitoringView.getHours d type) bu'
        = MonitoringView.getBu (MonitoringView.getHours prev type) bu')
  /\ (forall type', type' <> type ->
        MonitoringView.getHours d type' = MonitoringView.getHours prev type')
  /\ MonitoringView.d_steps d = MonitoringView.d_steps prev
  /\ MonitoringView.d_name d = MonitoringView.d_name prev.
Proof.
  cbv zeta.
  assert (S : MonitoringView.getBu
                (MonitoringView.getHours
                   (MonitoringView.handleHoursChange prev type bu value) type) bu
              = if ge value (ofZ 0) then value else ofZ 0)
    by (destruct type, bu; reflexivity).
  rewrite S. split; [apply ge_zero_hours|].
  split; [intro H; unfold Spec.isHours in H; unfold ge; now rewrite H|].
  split.
  { intro H. unfold Spec.isHours in H. unfold ge.
    destruct (le (ofZ 0) value); [now elim H|reflexivity]. }
  split; [intros bu' H; destruct type, bu, bu'; try reflexivity; congruence|].
  split; [intros type' H; destruct type, type'; try reflexivity; congruence|].
  destruct type; split; reflexivity.
Qed.

Lemma dropAt_last {A} (l : list A) (x : A) :
  MonitoringView.dropAt (List.length l) (l ++ [x]) = l.
Proof. induction l as [|y l IH]; simpl; [reflexivity|now rewrite IH]. Qed.

Lemma dropAt_length {A} (i : nat) (l : list A) :
  List.length (MonitoringView.dropAt i l) =
  if (i <? List.length l)%nat then List.length l - 1 else List.length l.
Proof.
  revert i. induction l as [|y l IH]; intros [|i]; simpl; try lia.
  rewrite IH. change (S i <? S (List.length l))%nat with (i <? List.length l)%nat.
  destruct (Nat.ltb_spec i (List.length l)); lia.
Qed.

Lemma dropAt_outside {A} (i : nat) (l : list A) :
  (List.length l <= i)%nat -> MonitoringView.dropAt i l = l.
Proof.
  revert i. induction l as [|y l IH]; intros [|i] H; simpl in *; try lia; auto.
  now rewrite IH by lia.
Qed.

Lemma withSteps_same (d : MonitoringView.Draft) :
  MonitoringView.withSteps d (MonitoringView.d_steps d) = d.
Proof. destruct d; reflexivity. Qed.

Lemma dropAt_nth {A} (i j : nat) (l : list A) :
  nth_error (MonitoringView.dropAt i l) j =
  if (j <? i)%nat then nth_error l j else nth_error l (S j).
Proof.
  revert i j. induction l as [|y l IH]; intros i j.
  - destruct i, j; cbn [MonitoringView.dropAt nth_error];
      destruct (_ <? _)%nat; reflexivity.
  - destruct i as [|i]; [reflexivity|].
    destruct j as [|j]; [reflexivity|].
    cbn [MonitoringView.dropAt nth_error]. rewrite IH.
    change (S j <? S i)%nat with (j <? i)%nat. reflexivity.
Qed.

(** X16.  Adding a step appends "Nova Etapa" at 0% after the steps
    already there; removing a step drops the step at the given index and
    no other: the steps before it stay in place and the steps after it
    move up by one, so removing at an index that is not in the list
    changes nothing.  Neither edit touches the rest of the draft, and
    removing the step just added gives the draft back. *)
Theorem add_then_remove_step (d : MonitoringView.Draft) (index : nat) :
  MonitoringView.removeStep (List.length (MonitoringView.d_steps d))
    (MonitoringView.addStep d) = d
  /\ List.length (MonitoringView.d_steps (MonitoringView.addStep d))
     = S (List.length (MonitoringView.d_steps d))
  /\ List.length (MonitoringView.d_steps (MonitoringView.removeStep index d))
     = (if (index <? List.length (MonitoringView.d_steps d))%nat
        then List.length (MonitoringView.d_steps d) - 1
        else List.length (MonitoringView.d_steps d))
  /\ ((List.length (MonitoringView.d_steps d) <= index)%nat ->
      MonitoringView.removeStep index d = d)
  /\ Spec.subseq (MonitoringView.d_steps (MonitoringView.removeStep index d))
                 (MonitoringView.d_steps d)
  /\ MonitoringView.d_steps (MonitoringView.addStep d)
     = MonitoringView.d_steps d
       ++ [{| step_name := lit "Nova Etapa"; step_perc := ofZ 0 |}]
  /\ (forall j,
        nth_error (MonitoringView.d_steps (MonitoringView.removeStep index d)) j
        = if (j <? index)%nat then nth_error (MonitoringView.d_steps d) j
          else nth_error (MonitoringView.d_steps d) (S j))
  /\ Spec.sameButSteps (MonitoringView.addStep d) d
  /\ Spec.sameButSteps (MonitoringView.removeStep index d) d.
Proof.
  split; [|split; [|split; [|split; [|split; [|split; [|split]]]]]].
  - unfold MonitoringView.removeStep, MonitoringView.addStep.
    cbn [MonitoringView.withSteps MonitoringView.d_steps].
    rewrite dropAt_last. destruct d; reflexivity.
  - unfold MonitoringView.addStep.
    cbn [MonitoringView.withSteps MonitoringView.d_steps].
    rewrite length_app. simpl. lia.
  - apply dropAt_length.
  - intro H. unfold MonitoringView.removeStep. rewrite dropAt_outside by exact H.
    apply withSteps_same.
  - unfold MonitoringView.removeStep.
    cbn [MonitoringView.withSteps MonitoringView.d_steps].
    generalize (MonitoringView.d_steps d). clear.
    intro l. revert index. induction l as [|y l IH]; intros [|i]; simpl.
    + constructor.
    + constructor.
    + apply Spec.subseq_skip. clear. induction l as [|z l IH];
        [constructor|now apply Spec.subseq_keep].
    + apply Spec.subseq_keep. apply IH.
  - reflexivity.
  - intro j. apply dropAt_nth.
  - split; repeat split.
Qed.

End DraftEdits.

Section SaveAndReload.

Lemma eqs_false (a b : jstring) : eqs a b = false <-> a <> b.
Proof.
  unfold eqs. destruct (jstring_eq_dec a b); split; congruence.
Qed.

Lemma draft_of_withId (d : MonitoringView.Draft) (i : jstring) :
  {| MonitoringView.d_name := name (MonitoringView.withId d i);
     MonitoringView.d_start := start (MonitoringView.withId d i);
     MonitoringView.d_end := end_ (MonitoringView.withId d i);
     MonitoringView.d_steps := steps (MonitoringView.withId d i);
     MonitoringView.d_soldHours := soldHours (MonitoringView.withId d i);
     MonitoringView.d_usedHours := usedHours (MonitoringView.withId d i) |} = d.
Proof. destruct d; reflexivity. Qed.

Lemma find_appended (l : list DetailedProject) (x : DetailedProject) (k : jstring) :
  ~ In k (map id l) -> id x = k ->
  find (fun p => eqs (id p) k) (l ++ [x]) = Some x.
Proof.
  intros H E. induction l as [|y l IH]; simpl.
  - rewrite E, eqs_refl. reflexivity.
  - destruct (eqs (id y) k) eqn:Ey.
    + apply eqs_true in Ey. exfalso. apply H. now left.
    + apply IH. intro X. apply H. now right.
Qed.

Lemma find_replaced (l : list DetailedProject) (x : DetailedProject) (k : jstring) :
  In k (map id l) -> id x = k ->
  find (fun p => eqs (id p) k)
       (map (fun p => if eqs (id p) k then x else p) l) = Some x.
Proof.
  intros H E. induction l as [|y l IH]; [contradiction|].
  simpl. destruct (eqs (id y) k) eqn:Ey.
  - rewrite E, eqs_refl. reflexivity.
  - rewrite Ey. apply IH. destruct H as [H|H]; [|exact H].
    apply eqs_false in Ey. contradiction.
Qed.

(** X17.  Saving a named draft reports "Projeto salvo!", and selecting
    the saved project afterwards loads exactly what was saved: for a new
    project when the fresh id is not in use, for an existing one when its
    id is stored.  A new project is appended under the fresh id; an
    update keeps the ids and their order; the projects with another id
    are kept as they are. *)
Theorem save_then_reload (now : jstring) (cur d0 : MonitoringView.Draft)
    (st : MonitoringView.Store) :
  trim (MonitoringView.d_name cur) <> [] ->
  (MonitoringView.selectedProjectId st = lit "new" ->
   now <> lit "new" /\ ~ In now (map id (MonitoringView.projects st))) ->
  (MonitoringView.selectedProjectId st <> lit "new" ->
   In (MonitoringView.selectedProjectId st) (map id (MonitoringView.projects st))) ->
  let st' := fst (MonitoringView.handleSave now cur st) in
  snd (MonitoringView.handleSave now cur st) = MonitoringView.Saved
  /\ MonitoringView.selectProject st' d0 = cur
  /\ map id (MonitoringView.projects st')
     = (if eqs (MonitoringView.selectedProjectId st) (lit "new")
        then map id (MonitoringView.projects st) ++ [now]
        else map id (MonitoringView.projects st))
  /\ (forall p, In p (MonitoringView.projects st) ->
        id p <> MonitoringView.selectedProjectId st ->
        In p (MonitoringView.projects st')).
Proof.
  intros Hname Hnew Hold. cbv zeta. unfold MonitoringView.handleSave.
  apply truthy_true in Hname. rewrite Hname. cbn [negb].
  destruct (eqs (MonitoringView.selectedProjectId st) (lit "new")) eqn:Esel;
    cbn [fst snd].
  - apply eqs_true in Esel. destruct (Hnew Esel) as [Hnow Hfresh].
    split; [reflexivity|]. split; [|split].
    + unfold MonitoringView.selectProject.
      cbn [MonitoringView.selectedProjectId MonitoringView.projects
           MonitoringView.withId id].
      rewrite (proj2 (eqs_false now (lit "new")) Hnow).
      fold (MonitoringView.withId cur now).
      rewrite (@find_appended _ (MonitoringView.withId cur now) now Hfresh eq_refl).
      apply draft_of_withId.
    + cbn [MonitoringView.projects]. rewrite map_app. reflexivity.
    + intros p Hp _. cbn [MonitoringView.projects]. apply in_or_app. now left.
  - apply eqs_false in Esel. specialize (Hold Esel).
    split; [reflexivity|]. split; [|split].
    + unfold MonitoringView.selectProject.
      cbn [MonitoringView.selectedProjectId MonitoringView.projects].
      rewrite (proj2 (eqs_false _ _) Esel).
      rewrite (@find_replaced _ (MonitoringView.withId cur
                 (MonitoringView.selectedProjectId st)) _ Hold eq_refl).
      apply draft_of_withId.
    + cbn [MonitoringView.projects]. rewrite map_map. apply map_ext_in.
      intros p _. destruct (eqs (id p) (MonitoringView.selectedProjectId st)) eqn:E;
        [|reflexivity].
      apply eqs_true in E. now rewrite E.
    + intros p Hp Hne. cbn [MonitoringView.projects]. apply in_map_iff.
      exists p. split; [|exact Hp].
      now rewrite (proj2 (eqs_false _ _) Hne).
Qed.

Lemma save_then_reload_witness :
  let cur := MonitoringView.withSteps
               {| MonitoringView.d_name := lit "Rede";
                  MonitoringView.d_start := []; MonitoringView.d_end := [];
                  MonitoringView.d_steps := [];
                  MonitoringView.d_soldHours := MonitoringView.initialBuHours;
                  MonitoringView.d_usedHours := MonitoringView.initialBuHours |}
               [] in
  let st := {| MonitoringView.projects := [];
               MonitoringView.selectedProjectId := lit "new" |} in
  MonitoringView.selectProject
    (fst (MonitoringView.handleSave (lit "1700000000000") cur st))
    MonitoringView.initialProjectState = cur.
Proof.
  intros cur st.
  refine (proj1 (proj2 (@save_then_reload (lit "1700000000000") cur
                          MonitoringView.initialProjectState st _ _ _))).
  - discriminate.
  - intros _. split; [discriminate|intros []].
  - intro H. now elim H.
Defined.

End SaveAndReload.

Section ProgressRange.

Lemma zero_is_percentage : Spec.isPercentage (ofZ 0).
Proof.
  apply isPercentage_bounds. exists (Q2Qc (inject_Z 0)).
  split; [reflexivity|]. rewrite this_0. split; [apply Qle_refl|].
  unfold Qle. simpl. lia.
Qed.

Lemma Forall_replaceAt {A} (P : A -> Prop) (f : A -> A) (i : nat) (l : list A) :
  Forall P l -> (forall x, P x -> P (f x)) ->
  Forall P (MonitoringView.replaceAt i f l).
Proof.
  intros F Hf. revert i. induction F as [|x l Hx F IH]; intros [|i]; simpl;
    constructor; auto.
Qed.

Lemma Forall_dropAt {A} (P : A -> Prop) (i : nat) (l : list A) :
  Forall P l -> Forall P (MonitoringView.dropAt i l).
Proof.
  intro F. revert i. induction F as [|x l Hx F IH]; intros [|i]; simpl; auto.
Qed.

(** X18.  The default draft has percentages in all its steps, and the
    edits keep it so: adding a step, removing a step, renaming a step,
    and setting a step's percentage to any input that is a number. *)
Theorem edits_keep_percentages (d : MonitoringView.Draft) :
  Spec.percentSteps (MonitoringView.d_steps MonitoringView.initialProjectState)
  /\ (Spec.percentSteps (MonitoringView.d_steps d) ->
      Spec.percentSteps (MonitoringView.d_steps (MonitoringView.addStep d))
      /\ (forall i, Spec.percentSteps
                      (MonitoringView.d_steps (MonitoringView.removeStep i d)))
      /\ (forall i value d',
            MonitoringView.handleStepChange d i (MonitoringView.EditName value)
            = Some d' ->
            Spec.percentSteps (MonitoringView.d_steps d'))
      /\ (forall i value d',
            value <> NaN ->
            MonitoringView.handleStepChange d i (MonitoringView.EditPerc value)
            = Some d' ->
            Spec.percentSteps (MonitoringView.d_steps d'))).
Proof.
  unfold Spec.percentSteps. split.
  - repeat constructor; apply zero_is_percentage.
  - intro F. split; [|split; [|split]].
    + unfold MonitoringView.addStep.
      cbn [MonitoringView.withSteps MonitoringView.d_steps].
      apply Forall_app. split; [exact F|].
      repeat constructor. apply zero_is_percentage.
    + intro i. unfold MonitoringView.removeStep.
      cbn [MonitoringView.withSteps MonitoringView.d_steps].
      now apply Forall_dropAt.
    + intros i value d'. unfold MonitoringView.handleStepChange.
      destruct (i <? _)%nat; [|discriminate].
      intro E. inversion E; subst.
      cbn [MonitoringView.withSteps MonitoringView.d_steps].
      apply Forall_replaceAt; [exact F|]. intros x Hx. exact Hx.
    + intros i value d' Hv. unfold MonitoringView.handleStepChange.
      destruct (i <? _)%nat; [|discriminate].
      intro E. inversion E; subst.
      cbn [MonitoringView.withSteps MonitoringView.d_steps].
      apply Forall_replaceAt; [exact F|]. intros x _.
      cbn [step_perc]. now apply clamp_stores_percentage.
Qed.

Lemma edits_keep_percentages_witness :
  Spec.percentSteps
    (MonitoringView.d_steps
       (MonitoringView.addStep MonitoringView.initialProjectState)).
Proof.
  destruct (edits_keep_percentages MonitoringView.initialProjectState)
    as [I K].
  exact (proj1 (K I)).
Defined.

(** X19.  When every step of a detailed project has a percentage, its
    overall progress is a percentage too, in the monitoring view, on the
    slide and in the risk-analysis prompt: a number between 0 and 100,
    never NaN. *)
Theorem overall_progress_in_range (proj : DetailedProject) :
  Spec.percentSteps (steps proj) ->
  Spec.isPercentage (MonitoringView.overallProgress (steps proj))
  /\ Spec.isPercentage (PresentationView.overallProgress proj)
  /\ Spec.isPercentage (GeminiService.overallProgress proj).
Proof.
  intro F. unfold Spec.percentSteps in F.
  assert (G : forall l, Forall (fun st => Spec.isPercentage (step_perc st)) l ->
                        Spec.isPercentage (Spec.mean (map step_perc l))).
  { intros l Hl. apply mean_of_percentages. now apply Forall_map. }
  split; [|split].
  - rewrite monitoring_mean. apply G.
    apply Forall_forall. intros x Hx. apply filter_In in Hx.
    rewrite Forall_forall in F. now apply F.
  - unfold PresentationView.overallProgress. rewrite mean_of_steps. now apply G.
  - unfold GeminiService.overallProgress. rewrite mean_of_steps. now apply G.
Qed.

Lemma overall_progress_in_range_witness :
  Spec.isPercentage
    (MonitoringView.overallProgress
       (MonitoringView.d_steps MonitoringView.initialProjectState)).
Proof.
  refine (proj1 (@overall_progress_in_range
            (MonitoringView.withId MonitoringView.initialProjectState (lit "1")) _)).
  unfold Spec.percentSteps. repeat constructor; apply zero_is_percentage.
Defined.

End ProgressRange.

(** ** The presentation: navigation, key facts and next steps *)

Section Presentation.

(** X20.  The slide index never leaves the deck: from an index of the
    deck, the next and previous updaters and every key stroke give an
    index of the deck; next stops at the last slide, previous at the
    first, previous undoes next before the last slide, Escape leaves the
    slide mode without moving, and outside the slide mode keys do
    nothing.  The deck always has at least four slides. *)
Theorem slide_index_stays_in_deck (detailedProjects : list DetailedProject)
    (k : PresentationView.Key) (mode : bool) (i : Z) :
  let n := PresentationView.slidesLength detailedProjects in
  Spec.inDeck n i ->
  (4 <= n)%Z
  /\ Spec.inDeck n (PresentationView.goToNextSlide n i)
  /\ Spec.inDeck n (PresentationView.goToPrevSlide i)
  /\ Spec.inDeck n (snd (PresentationView.handleKeyDown n k (mode, i)))
  /\ PresentationView.goToNextSlide n (n - 1) = (n - 1)%Z
  /\ PresentationView.goToPrevSlide 0 = 0%Z
  /\ ((i < n - 1)%Z ->
      PresentationView.goToPrevSlide (PresentationView.goToNextSlide n i) = i)
  /\ PresentationView.handleKeyDown n PresentationView.Escape (true, i) = (false, i)
  /\ PresentationView.handleKeyDown n k (false, i) = (false, i).
Proof.
  intros n H. unfold Spec.inDeck in *.
  assert (Hn : (4 <= n)%Z) by (unfold n, PresentationView.slidesLength; lia).
  unfold PresentationView.goToNextSlide, PresentationView.goToPrevSlide.
  split; [exact Hn|]. split; [lia|]. split; [lia|]. split.
  - unfold PresentationView.handleKeyDown, PresentationView.goToNextSlide,
      PresentationView.goToPrevSlide.
    destruct mode, k; cbn [negb snd]; lia.
  - repeat split; try reflexivity; lia.
Qed.

Lemma slide_index_stays_in_deck_witness :
  Spec.inDeck (PresentationView.slidesLength [])
    (PresentationView.goToNextSlide (PresentationView.slidesLength []) 3).
Proof.
  refine (proj1 (proj2 (@slide_index_stays_in_deck []
            PresentationView.ArrowRight true 3 _))).
  unfold Spec.inDeck. simpl. lia.
Defined.

Lemma removeKeyFact_appended (now : jstring) (facts : list KeyFact) (f : KeyFact) :
  ~ In now (map kf_id facts) -> kf_id f = now ->
  PresentationView.removeKeyFact now (facts ++ [f]) = facts.
Proof.
  intros H E. unfold PresentationView.removeKeyFact.
  rewrite filter_app. cbn [filter]. rewrite E, eqs_refl. cbn [negb].
  rewrite app_nil_r. apply forallb_filter_id. apply forallb_forall.
  intros x Hx. apply negb_true_iff. apply eqs_false. intro X. apply H.
  rewrite <- X. now apply in_map.
Qed.

Lemma removeNextStep_appended (now : jstring) (l : list NextStep) (x : NextStep) :
  ~ In now (map ns_id l) -> ns_id x = now ->
  PresentationView.removeNextStep now (l ++ [x]) = l.
Proof.
  intros H E. unfold PresentationView.removeNextStep.
  rewrite filter_app. cbn [filter]. rewrite E, eqs_refl. cbn [negb].
  rewrite app_nil_r. apply forallb_filter_id. apply forallb_forall.
  intros y Hy. apply negb_true_iff. apply eqs_false. intro X. apply H.
  rewrite <- X. now apply in_map.
Qed.

(** X21.  A key fact is added only when its text is not blank; it is
    then appended under the fresh id, with the text and the logo of the
    inputs, and both inputs are cleared; removing that id gives the
    former list back when the id was not in use.  Removing an id removes
    every fact stored under it and nothing else.  Next steps behave the
    same, both of their inputs being required: with either blank nothing
    changes, otherwise the step is appended under the fresh id with the
    project and the description of the inputs, and both inputs are
    cleared; removing an id removes every next step stored under it and
    nothing else. *)
Theorem key_fact_added_then_removed (now : jstring)
    (st : PresentationView.KeyFactForm) (ns : PresentationView.NextStepForm) :
  (trim (PresentationView.newFactText st) = [] ->
   PresentationView.addKeyFact now st = st)
  /\ (trim (PresentationView.newFactText st) <> [] ->
      PresentationView.addKeyFact now st
      = {| PresentationView.keyFacts :=
             PresentationView.keyFacts st ++
             [{| kf_id := now; kf_text := PresentationView.newFactText st;
                 kf_logoUrl := Some (PresentationView.newFactLogo st) |}];
           PresentationView.newFactText := [];
           PresentationView.newFactLogo := [] |}
      /\ (~ In now (map kf_id (PresentationView.keyFacts st)) ->
          PresentationView.removeKeyFact now
            (PresentationView.keyFacts (PresentationView.addKeyFact now st))
          = PresentationView.keyFacts st))
  /\ (forall i facts f,
        In f (PresentationView.removeKeyFact i facts)
        <-> In f facts /\ kf_id f <> i)
  /\ (trim (PresentationView.newNextStepProject ns) = []
      \/ trim (PresentationView.newNextStepDesc ns) = [] ->
      PresentationView.addNextStep now ns = ns)
  /\ (trim (PresentationView.newNextStepProject ns) <> [] ->
      trim (PresentationView.newNextStepDesc ns) <> [] ->
      ~ In now (map ns_id (PresentationView.nextSteps ns)) ->
      PresentationView.newNextStepProject (PresentationView.addNextStep now ns) = []
      /\ PresentationView.newNextStepDesc (PresentationView.addNextStep now ns) = []
      /\ PresentationView.removeNextStep now
           (PresentationView.nextSteps (PresentationView.addNextStep now ns))
         = PresentationView.nextSteps ns)
  /\ (trim (PresentationView.newNextStepProject ns) <> [] ->
      trim (PresentationView.newNextStepDesc ns) <> [] ->
      PresentationView.addNextStep now ns
      = {| PresentationView.nextSteps :=
             PresentationView.nextSteps ns ++
             [{| ns_id := now;
                 ns_project := PresentationView.newNextStepProject ns;
                 ns_description := PresentationView.newNextStepDesc ns |}];
           PresentationView.newNextStepProject := [];
           PresentationView.newNextStepDesc := [] |})
  /\ (forall i l x,
        In x (PresentationView.removeNextStep i l)
        <-> In x l /\ ns_id x <> i).
Proof.
  split; [|split; [|split; [|split; [|split; [|split]]]]].
  - intro E. unfold PresentationView.addKeyFact. now rewrite E.
  - intro NE. apply truthy_true in NE. unfold PresentationView.addKeyFact.
    rewrite NE. cbn [negb]. split; [reflexivity|].
    intro F. cbn [PresentationView.keyFacts].
    now apply removeKeyFact_appended.
  - intros i facts f. unfold PresentationView.removeKeyFact.
    rewrite filter_In, negb_true_iff, eqs_false. reflexivity.
  - intro E. unfold PresentationView.addNextStep.
    destruct E as [E|E]; rewrite E; cbn [truthy negb orb];
      [reflexivity|apply orb_true_r || idtac].
    destruct (negb (truthy (trim (PresentationView.newNextStepProject ns))));
      reflexivity.
  - intros N1 N2 F. apply truthy_true in N1, N2.
    unfold PresentationView.addNextStep. rewrite N1, N2. cbn [negb orb].
    cbn [PresentationView.newNextStepProject PresentationView.newNextStepDesc
         PresentationView.nextSteps].
    split; [reflexivity|]. split; [reflexivity|].
    now apply removeNextStep_appended.
  - intros N1 N2. apply truthy_true in N1, N2.
    unfold PresentationView.addNextStep. rewrite N1, N2. reflexivity.
  - intros i l x. unfold PresentationView.removeNextStep.
    rewrite filter_In, negb_true_iff, eqs_false. reflexivity.
Qed.

Lemma key_fact_added_then_removed_witness :
  let st := {| PresentationView.keyFacts := [];
               PresentationView.newFactText := lit "Contrato renovado";
               PresentationView.newFactLogo := [] |} in
  PresentationView.removeKeyFact (lit "1700000000000")
    (PresentationView.keyFacts
       (PresentationView.addKeyFact (lit "1700000000000") st))
  = PresentationView.keyFacts st.
Proof.
  intro st.
  refine (proj2 (proj1 (proj2 (@key_fact_added_then_removed
            (lit "1700000000000") st
            {| PresentationView.nextSteps := [];
               PresentationView.newNextStepProject := [];
               PresentationView.newNextStepDesc := [] |})) _) _).
  - discriminate.
  - intros [].
Defined.

End Presentation.

(** ** Hours *)

Section Hours.

Lemma hours_cases (x : number) :
  Spec.isHours x ->
  x = PInf \/ exists q, x = Fin q /\ (0 <= this q)%Q.
Proof.
  unfold Spec.isHours. destruct x as [q| | |]; simpl; try discriminate.
  - intro H. right. exists q. split; [reflexivity|].
    change (Q2Qc (inject_Z 0)) with (Q2Qc 0) in H.
    apply Qcleb_le in H. exact H.
  - now left.
Qed.

Lemma hours_of_bound (q : Qc) : (0 <= this q)%Q -> Spec.isHours (Fin q).
Proof.
  intro H. unfold Spec.isHours. cbn [le ofZ]. apply Qcleb_le. exact H.
Qed.

Lemma add_hours (a b : number) :
  Spec.isHours a -> Spec.isHours b ->
  Spec.isHours (add a b) /\ le a (add a b) = true /\ le b (add a b) = true.
Proof.
  intros Ha Hb.
  destruct (hours_cases Ha) as [->|[qa [-> La]]];
    destruct (hours_cases Hb) as [->|[qb [-> Lb]]];
    try (repeat split; reflexivity).
  cbn [add le]. split; [|split].
  - apply hours_of_bound. rewrite this_plus. lra.
  - apply Qcleb_le. unfold Qcle. rewrite this_plus. lra.
  - apply Qcleb_le. unfold Qcle. rewrite this_plus. lra.
Qed.

Lemma le_hours_trans (a b c : number) :
  Spec.isHours a -> le a b = true -> le b c = true -> le a c = true.
Proof.
  intros Ha H1 H2.
  destruct a as [qa| | |], b as [qb| | |], c as [qc| | |];
    simpl in *; try discriminate; try reflexivity.
  apply Qcleb_le in H1, H2. apply Qcleb_le.
  now apply (Qcle_trans _ qb).
Qed.

(** X22.  Hours stay storable: the default hours are, an hours edit
    keeps them so, and then the totals the risk analysis reports are
    neither negative nor NaN and no bucket exceeds its total. *)
Theorem hour_totals_are_non_negative (project : DetailedProject)
    (d : MonitoringView.Draft) (type : MonitoringView.HoursType)
    (bu : MonitoringView.Bu) (value : number) :
  Spec.hoursOk MonitoringView.initialBuHours
  /\ (Spec.hoursOk (MonitoringView.d_soldHours d) ->
      Spec.hoursOk (MonitoringView.d_usedHours d) ->
      Spec.hoursOk (MonitoringView.d_soldHours
                      (MonitoringView.handleHoursChange d type bu value))
      /\ Spec.hoursOk (MonitoringView.d_usedHours
                         (MonitoringView.handleHoursChange d type bu value)))
  /\ (Spec.hoursOk (soldHours project) ->
      Spec.isHours (GeminiService.totalSold project)
      /\ le (infra (soldHours project)) (GeminiService.totalSold project) = true
      /\ le (sse (soldHours project)) (GeminiService.totalSold project) = true
      /\ le (ti (soldHours project)) (GeminiService.totalSold project) = true
      /\ le (aut (soldHours project)) (GeminiService.totalSold project) = true)
  /\ (Spec.hoursOk (usedHours project) ->
      Spec.isHours (GeminiService.totalUsed project)
      /\ le (infra (usedHours project)) (GeminiService.totalUsed project) = true
      /\ le (sse (usedHours project)) (GeminiService.totalUsed project) = true
      /\ le (ti (usedHours project)) (GeminiService.totalUsed project) = true
      /\ le (aut (usedHours project)) (GeminiService.totalUsed project) = true).
Proof.
  assert (T : forall h, Spec.hoursOk h ->
    Spec.isHours (GeminiService.totalHours h)
    /\ le (infra h) (GeminiService.totalHours h) = true
    /\ le (sse h) (GeminiService.totalHours h) = true
    /\ le (ti h) (GeminiService.totalHours h) = true
    /\ le (aut h) (GeminiService.totalHours h) = true).
  { intros h [H1 [H2 [H3 H4]]]. unfold GeminiService.totalHours.
    destruct (add_hours H1 H2) as [S12 [A1 A2]].
    destruct (add_hours S12 H3) as [S123 [B12 B3]].
    destruct (add_hours S123 H4) as [S [C123 C4]].
    split; [exact S|].
    assert (D12 : le (add (infra h) (sse h))
                     (add (add (add (infra h) (sse h)) (ti h)) (aut h)) = true)
      by (eapply le_hours_trans; [exact S12|exact B12|exact C123]).
    split; [eapply le_hours_trans; [exact H1|exact A1|exact D12]|].
    split; [eapply le_hours_trans; [exact H2|exact A2|exact D12]|].
    split; [eapply le_hours_trans; [exact H3|exact B3|exact C123]|exact C4]. }
  split; [repeat split|]. split; [|split; [apply T|apply T]].
  intros Hs Hu.
  pose proof (ge_zero_hours value) as V.
  destruct Hs as [S1 [S2 [S3 S4]]], Hu as [U1 [U2 [U3 U4]]].
  destruct type, bu; split; repeat split; assumption.
Qed.

Lemma hour_totals_are_non_negative_witness :
  Spec.isHours
    (GeminiService.totalSold
       (MonitoringView.withId MonitoringView.initialProjectState (lit "1"))).
Proof.
  refine (proj1 (proj1 (proj2 (proj2 (@hour_totals_are_non_negative
            (MonitoringView.withId MonitoringView.initialProjectState (lit "1"))
            MonitoringView.initialProjectState MonitoringView.T_soldHours
            MonitoringView.K_infra (ofZ 8)))) _)).
  repeat split.
Defined.

End Hours.

(** ** More on the aggregator and the parser *)

Section AverageRange.

Lemma presentPercents_length (data : list Project) :
  (List.length (Spec.presentPercents data) <= List.length data)%nat.
Proof.
  unfold Spec.presentPercents.
  induction data as [|p l IH]; [apply Nat.le_refl|].
  cbn [flat_map List.length]. destruct (perc p); simpl; lia.
Qed.

(** X23.  When every percentage present among the records is between 0
    and 100, so is the average of the dashboard and of the presentation:
    the mean stays inside the range of the data and is never NaN.  This
    holds of the exact mean, and, for fewer than 2^32 records (the
    longest array there is), of the mean the machine computes in
    binary64. *)
Theorem average_of_percentages_in_range (data : list Project) :
  Forall (fun p => forall x, perc p = Some x -> Spec.isPercentage x) data ->
  Spec.isPercentage (DashboardView.avg data)
  /\ Spec.isPercentage (PresentationView.avg data)
  /\ ((Z.of_nat (List.length data) < 2 ^ 32)%Z ->
      Spec.isPercentage (DashboardView.avg64 data)
      /\ Spec.isPercentage (PresentationView.avg64 data)).
Proof.
  intro F.
  assert (P : Forall Spec.isPercentage (Spec.presentPercents data)).
  { unfold Spec.presentPercents.
    induction F as [|p l Hp _ IH]; [constructor|].
    cbn [flat_map]. destruct (perc p) as [x|] eqn:E; [|exact IH].
    constructor; [now apply Hp|exact IH]. }
  assert (G : Spec.isPercentage (DashboardView.avg data)).
  { rewrite avg_mean. now apply mean_of_percentages. }
  split; [exact G|]. split; [exact G|].
  intro B.
  assert (G64 : Spec.isPercentage (DashboardView.avg64 data)).
  { rewrite avg64_mean64. apply mean64_of_percentages; [exact P|].
    pose proof (presentPercents_length data). lia. }
  split; [exact G64|exact G64].
Qed.

Lemma average_of_percentages_in_range_witness :
  Spec.isPercentage
    (DashboardView.avg
       [ {| CLIENTE := lit "Acme"; TIPO_DE_PROJETO := []; TIPO_DE_PRODUTO := [];
            BUs := []; C_Custo := []; STATUS := []; perc := Some (ofZ 80) |};
         {| CLIENTE := lit "Beta"; TIPO_DE_PROJETO := []; TIPO_DE_PRODUTO := [];
            BUs := []; C_Custo := []; STATUS := []; perc := None |} ]).
Proof.
  refine (proj1 (@average_of_percentages_in_range _ _)).
  repeat constructor; cbn [perc]; intros x E; inversion E; subst.
  apply isPercentage_bounds. eexists. split; [reflexivity|].
  rewrite this_ofZ. split; unfold Qle; simpl; lia.
Defined.

End AverageRange.

Section JunkLines.

Lemma splitLines_cons (s : jstring) : exists cur rest, splitLines s = cur :: rest.
Proof.
  destruct s as [|c r]; simpl; [now eexists; eexists|].
  destruct (c =? 10)%N; [now eexists; eexists|].
  destruct r as [|c2 r2]; [now eexists; eexists|].
  destruct ((c =? 13)%N && (c2 =? 10)%N); [now eexists; eexists|].
  destruct (splitLines (c2 :: r2)); now eexists; eexists.
Qed.

Lemma splitLines_app (a b : jstring) :
  ~ In 13%N a -> splitLines (a ++ 10%N :: b) = splitLines a ++ splitLines b.
Proof.
  induction a as [|c a IH]; intro H.
  - simpl. reflexivity.
  - assert (Ha : ~ In 13%N a) by (intro X; apply H; now right).
    assert (Hc : c <> 13%N) by (intro X; apply H; now left).
    cbn [app]. destruct (N.eq_dec c 10) as [->|Hn].
    + simpl splitLines at 1 2. now rewrite IH.
    + rewrite !splitLines_other by assumption. rewrite IH by exact Ha.
      destruct (splitLines_cons a) as [cur [rest E]]. rewrite E. reflexivity.
Qed.

Lemma breakAt_skip {A} (f : A -> bool) (l1 l2 : list A) :
  Forall (fun x => f x = false) l1 ->
  Spec.breakAt f (l1 ++ l2) = Spec.breakAt f l2.
Proof.
  induction 1 as [|x l Hx _ IH]; [reflexivity|]. simpl. now rewrite Hx.
Qed.

Lemma stripBom_app (a b : jstring) :
  DashboardView.stripBom (a ++ 10%N :: b) = DashboardView.stripBom a ++ 10%N :: b.
Proof.
  destruct a as [|c a]; [reflexivity|]. simpl. destruct (c =? 65279)%N; reflexivity.
Qed.

(** X24.  Lines before the header are ignored: when no line of a
    preamble holds "CLIENTE", putting the preamble in front of a text
    changes neither the records nor the alerts. *)
Theorem preamble_is_ignored (preamble text : jstring) :
  ~ In 13%N preamble ->
  Forall (fun l => DashboardView.isHeaderLine l = false)
         (splitLines (DashboardView.stripBom preamble)) ->
  DashboardView.stripBom text = text ->
  DashboardView.parseTeleinfoCsv (preamble ++ 10%N :: text)
  = DashboardView.parseTeleinfoCsv text.
Proof.
  intros H F B. rewrite !parseTeleinfoCsv_normalizer.
  unfold Spec.normalizer, Spec.headerAndRest.
  rewrite stripBom_app, B.
  assert (Hs : ~ In 13%N (DashboardView.stripBom preamble)).
  { destruct preamble as [|c t]; [exact H|]. simpl.
    destruct (c =? 65279)%N; [|exact H]. intro X. apply H. now right. }
  rewrite splitLines_app by exact Hs.
  rewrite breakAt_skip by exact F. reflexivity.
Qed.

Lemma preamble_is_ignored_witness :
  DashboardView.parseTeleinfoCsv
    ((65279%N :: lit "Relatorio de projetos") ++ 10%N :: lit "CLIENTE;%")
  = DashboardView.parseTeleinfoCsv (lit "CLIENTE;%").
Proof.
  refine (@preamble_is_ignored (65279%N :: lit "Relatorio de projetos")
            (lit "CLIENTE;%") _ _ eq_refl).
  - intro H. repeat (destruct H as [H|H]; [discriminate|]). exact H.
  - repeat constructor.
Defined.

End JunkLines.
